(** * openfoamEmbedded3DP: time-series reconciler, slice extractor,
      steady-state detector and survival model

    A shallow embedding of the parts of [py/folderparser.py],
    [py/interfacemetrics.py] and [pythonscripts/plot_metrics.py] that the
    specification talks about, followed by the theorems that relate the
    specification's sentences to the code.

    Number models.  The reconciler only moves strings around and compares
    them; parsed times are values of an arbitrary type [F] produced by a
    parameter standing for Python's [float()].  The steady-state detector
    only subtracts and compares, so its floats are exact rationals ([Q]).
    The survival model needs [sqrt], [tan] and [exp], so its floats are the
    real numbers of the Standard Library ([R]).  Where a statement depends
    on what the doubles do at 0 and at the infinities, the bounds of the
    survival fraction, the class [survival] is followed once more on floats
    that can be [inf], [-inf] or [nan], with the operations on floats as a
    parameter ([PlotMetricsFloat]). *)

From Stdlib Require Import Bool Arith ZArith QArith Qround Lia List.
From Stdlib Require Import Ascii String DecimalString.
From Stdlib Require Import Sorting.Sorted Sorting.Permutation.
From Stdlib Require Import Reals Lra.
From Stdlib Require Lqa.
Import ListNotations.

Set Implicit Arguments.

(* ================================================================== *)
(** * Python values that the three files share *)
(* ================================================================== *)

Module Py.

(** The exceptions that the modelled code can raise. *)
Inductive exn : Type :=
| IndexError
| ValueError
| TypeError
| NameError
| FileNotFoundError
| ZeroDivisionError
| Exception (msg : string).

(** A computation either returns or raises. *)
Inductive result (A : Type) : Type :=
| Ok (a : A)
| Raise (e : exn).
Arguments Ok {A} a.
Arguments Raise {A} e.

Definition bind {A B : Type} (m : result A) (k : A -> result B) : result B :=
  match m with
  | Ok a => k a
  | Raise e => Raise e
  end.


(** [try: m except: h] *)
Definition try_except {A : Type} (m : result A) (h : exn -> result A) : result A :=
  match m with
  | Ok a => Ok a
  | Raise e => h e
  end.

Open Scope string_scope.

(** [len(s)] *)
Definition len (s : string) : nat := String.length s.

(** [sub in s] for strings. *)
Fixpoint contains (sub s : string) : bool :=
  prefix sub s ||
  match s with
  | EmptyString => false
  | String _ s' => contains sub s'
  end.

(** [s.endswith(suf)] *)
Fixpoint endswith (s suf : string) : bool :=
  String.eqb s suf ||
  match s with
  | EmptyString => false
  | String _ s' => endswith s' suf
  end.

Definition newline : ascii := Ascii.ascii_of_nat 10.
Definition nl : string := String newline EmptyString.

(** The lines of a text file as [f.readline()] returns them one after the
    other: every line keeps its terminating newline, the last one has none
    when the text does not end in a newline.  [cur] is the line being
    collected. *)
Fixpoint readlines_from (cur s : string) : list string :=
  match s with
  | EmptyString => if (len cur =? 0)%nat then [] else [cur]
  | String c s' =>
      if Ascii.eqb c newline
      then (cur ++ nl) :: readlines_from EmptyString s'
      else readlines_from (cur ++ String c EmptyString) s'
  end.

Definition readlines (s : string) : list string := readlines_from EmptyString s.

(** [f.readline()] on the lines still to read: the empty string at the end
    of the file. *)
Definition readline (rest : list string) : string * list string :=
  match rest with
  | [] => (EmptyString, [])
  | l :: r => (l, r)
  end.

(** The lines put together again. *)
Definition join (ls : list string) : string := fold_right String.append EmptyString ls.

(** [s.replace('\n', '')] *)
Fixpoint remove_newlines (s : string) : string :=
  match s with
  | EmptyString => EmptyString
  | String c s' =>
      if Ascii.eqb c newline then remove_newlines s' else String c (remove_newlines s')
  end.

(** [re.split(p1|p2, s)] for two literal, non-empty alternatives: the
    pieces of [s] between the matches, scanning from the left and trying
    [p1] before [p2] at every position.  [skip] counts the characters of
    the current match that are still to be dropped; [cur] is the piece
    being collected. *)
Fixpoint re_split2_from (p1 p2 : string) (skip : nat) (cur s : string) : list string :=
  match s with
  | EmptyString => [cur]
  | String c s' =>
      match skip with
      | S k => re_split2_from p1 p2 k cur s'
      | O =>
          if prefix p1 s then cur :: re_split2_from p1 p2 (len p1 - 1) EmptyString s'
          else if prefix p2 s then cur :: re_split2_from p1 p2 (len p2 - 1) EmptyString s'
          else re_split2_from p1 p2 0 (cur ++ String c EmptyString) s'
      end
  end.

Definition re_split2 (p1 p2 s : string) : list string :=
  re_split2_from p1 p2 0 EmptyString s.

(** [l[i]] on a list of strings. *)
Definition index (l : list string) (i : nat) : result string :=
  match nth_error l i with
  | Some s => Ok s
  | None => Raise IndexError
  end.

(** [s.replace(old, '')] for a non-empty [old]: every occurrence, found
    from the left, is dropped. *)
Fixpoint remove_all_from (old : string) (skip : nat) (s : string) : string :=
  match s with
  | EmptyString => EmptyString
  | String c s' =>
      match skip with
      | S k => remove_all_from old k s'
      | O =>
          if prefix old s then remove_all_from old (len old - 1) s'
          else String c (remove_all_from old 0 s')
      end
  end.

Definition remove_all (old s : string) : string :=
  if (len old =? 0)%nat then s else remove_all_from old 0 s.

End Py.

Notation "x <- m ;; k" := (Py.bind m (fun x => k))
  (at level 61, m at next level, right associativity).
Notation "' p <- m ;; k" := (Py.bind m (fun x => match x with p => k end))
  (at level 61, p pattern, m at next level, right associativity).

(* ================================================================== *)
(** * py/folderparser.py: the time-series reconciler *)
(* ================================================================== *)

Module FolderParser.
Import Py.
Open Scope string_scope.

(** ** What the code sees of the disk *)

(** A file of the VTK folder: its base name, [os.path.getmtime] and its
    text. *)
Record file : Type := mkFile { fname : string; mtime : Z; text : string }.

(** A simulation folder for which [caseFolder(folder)] is not [''].
    [listing] is [os.listdir(caseFolder(folder))] in the order the
    operating system gives it, [vtk] is the content of the [VTK] folder of
    the case folder in listing order ([None]: there is no such folder), and
    [clock] is the modification time that a file written now receives.
    The model takes [VTKFolder(folder)] to be the [VTK] folder of the case
    folder, which is so unless both [folder/VTK] and [folder/case] exist. *)
Record simfolder : Type := mkSim {
  cfbase : string;
  listing : list string;
  vtk : option (list file);
  clock : Z
}.

(** [exportFile(vtkfolder, name, txt)]: the file is replaced, or created. *)
Fixpoint exportFile (now : Z) (name txt : string) (d : list file) : list file :=
  match d with
  | [] => [mkFile name now txt]
  | f :: d' =>
      if String.eqb (fname f) name then mkFile name now txt :: d'
      else f :: exportFile now name txt d'
  end.

(** The double quote, and the pieces of a series file. *)
Definition dq : string := String (Ascii.ascii_of_nat 34) EmptyString.

(** ** [correctVTM] and [readVTM] *)

(** The loop
    [while not (pat in line) and len(line)>0: line = f.readline(); st = st + line]:
    the line it stops at, the lines left, and what it added to [st]. *)
Fixpoint seek (pat line : string) (rest : list string) {struct rest}
  : string * list string * string :=
  if contains pat line || (len line =? 0)%nat then (line, rest, EmptyString)
  else
    match rest with
    | [] => (EmptyString, [], EmptyString)
    | l :: r =>
        let '(line', rest', st') := seek pat l r in (line', rest', l ++ st')
    end.

(** [strs = re.split('_|/internal', line); folderlabel = strs[1]] *)
Definition label_of_line (line : string) : result string :=
  index (re_split2 "_" "/internal" line) 1.

(** Lines 336-351 of [readVTM]: the label and the time as the file has
    them, before the correction of the initial snapshot. *)
Definition readVTM_raw (content : string) : result (string * string) :=
  let '(line, rest) := readline (readlines content) in
  let '(line, rest, _) := seek "DataSet name=" line rest in
  folderlabel <- (if (0 <? len line)%nat then label_of_line line else Ok EmptyString) ;;
  let '(line, rest, _) := seek "TimeValue" line rest in
  if (0 <? len line)%nat then
    let '(line, rest) := readline rest in
    Ok (folderlabel, remove_newlines line)
  else Ok (folderlabel, EmptyString).

(** The text [st] that [correctVTM] writes back. *)
Definition correctVTM_text (content : string) : result string :=
  let '(line, rest) := readline (readlines content) in
  let st := line in
  let '(line, rest, st1) := seek "DataSet name=" line rest in
  let st := st ++ st1 in
  folderlabel <- (if (0 <? len line)%nat then label_of_line line else Ok EmptyString) ;;
  let '(line, rest, st2) := seek "TimeValue" line rest in
  let st := st ++ st2 in
  if (0 <? len line)%nat then
    let '(line, rest) := readline rest in
    let time := remove_newlines line in
    let st :=
      if String.eqb folderlabel "0" && negb (String.eqb time "0")
      then st ++ "0" ++ nl
      else st ++ line in
    (* while len(line)>0: line = f.readline(); st = st + line *)
    if (0 <? len line)%nat then Ok (st ++ join rest) else Ok st
  else Ok st.

(** [correctVTM(file)] for a file that exists: the text is written back
    with [exportFile], which also gives the file a new modification time. *)
Definition correctVTM (now : Z) (f : file) : result file :=
  st <- correctVTM_text (text f) ;;
  Ok (mkFile (fname f) now st).

(** [readVTM(file)]: the pair it returns and the file as it leaves it. *)
Definition readVTM (now : Z) (f : file) : result (string * string * file) :=
  '(folderlabel, time) <- readVTM_raw (text f) ;;
  if String.eqb folderlabel "0" && negb (String.eqb time "0") then
    f' <- correctVTM now f ;;
    Ok (folderlabel, "0", f')
  else Ok (folderlabel, time, f).

(** ** Values of the lists [flist] and [tlist] of [redoVTKSeriesNoLog] *)

Inductive pyval : Type :=
| PyStr (s : string)
| PyInt (z : Z)
| PyFloat (q : Q).

(** [str(z)] for an integer. *)
Definition str_of_Z (z : Z) : string :=
  DecimalString.NilZero.string_of_int (Z.to_int z).

(** Rounding of a rational to the nearest integer, ties to even, as
    Python's [round] and the [f] format do. *)
Definition round_half_even (q : Q) : Z :=
  let f := Qfloor q in
  let d := (q - inject_Z f)%Q in
  match (d ?= 1 # 2)%Q with
  | Lt => f
  | Gt => (f + 1)%Z
  | Eq => if Z.even f then f else (f + 1)%Z
  end.

(** ['{:1.1f}'.format(t)] for a number [q].  The code builds its times as
    floating-point sums of [0.1]; the model keeps the exact multiples of
    one tenth, which print alike as long as the accumulated error stays
    below one twentieth. *)
Definition format_1f (q : Q) : string :=
  let n := round_half_even (q * 10)%Q in
  let a := Z.abs n in
  (if (n <? 0)%Z then "-" else EmptyString)
    ++ str_of_Z (a / 10) ++ "." ++ str_of_Z (a mod 10).

(** [re.split('\_|.v', file)]: an underscore, or any character but a
    newline followed by [v]. *)
Fixpoint re_split_vtk_from (skip : nat) (cur s : string) : list string :=
  match s with
  | EmptyString => [cur]
  | String c s' =>
      match skip with
      | S k => re_split_vtk_from k cur s'
      | O =>
          if Ascii.eqb c "_" then cur :: re_split_vtk_from 0 EmptyString s'
          else if negb (Ascii.eqb c newline) && prefix "v" s'
               then cur :: re_split_vtk_from 1 EmptyString s'
               else re_split_vtk_from 0 (cur ++ String c EmptyString) s'
      end
  end.

Definition re_split_vtk (s : string) : list string :=
  re_split_vtk_from 0 EmptyString s.

(** ** Sorting the table of times and labels *)

(** [l[np.argsort(l[:,0])]] on the table of (time, label) rows: the rows
    in increasing order of the time column, which holds strings and is
    therefore compared as strings, character by character.  The model
    sorts by insertion, as numpy does for short arrays; numpy's sort for
    longer ones is not stable, so that the order of rows with equal times
    is left open by the code, but the time column is the same for every
    sorting algorithm. *)
Fixpoint insert_row (r : string * string) (l : list (string * string))
  : list (string * string) :=
  match l with
  | [] => [r]
  | h :: t =>
      if String.leb (fst h) (fst r) then h :: insert_row r t else r :: h :: t
  end.

Definition argsort_rows (l : list (string * string)) : list (string * string) :=
  fold_left (fun acc r => insert_row r acc) l [].

(** ** [generateVTKSeries] *)

(** One row of the series file, without what ends the line. *)
Definition series_row (cfbasename ending time folderlabel : string) : string :=
  "    { " ++ dq ++ "name" ++ dq ++ " : " ++ dq ++ cfbasename ++ "_" ++ folderlabel
    ++ ending ++ dq ++ ", " ++ dq ++ "time" ++ dq ++ " : " ++ time.

(** The rows of [l[0:-1]], each closed by a comma, then the last row. *)
Fixpoint series_rows (cfbasename ending : string) (l : list (string * string)) : string :=
  match l with
  | [] => EmptyString
  | [(time, folderlabel)] => series_row cfbasename ending time folderlabel ++ " }" ++ nl
  | (time, folderlabel) :: l' =>
      series_row cfbasename ending time folderlabel ++ " }," ++ nl
        ++ series_rows cfbasename ending l'
  end.

Definition series_text (cfbasename ending : string) (l : list (string * string)) : string :=
  "{" ++ nl ++ "  " ++ dq ++ "file-series-version" ++ dq ++ " : " ++ dq ++ "1.0" ++ dq ++ ","
    ++ nl ++ "  " ++ dq ++ "files" ++ dq ++ " : [" ++ nl
    ++ series_rows cfbasename ending l
    ++ "  ]" ++ nl ++ "}".

(** The first file of the VTK folder whose name contains ['.series']. *)
Definition find_series (d : list file) : option file :=
  find (fun f => contains ".series" (fname f)) d.

(** What [generateVTKSeries] does: nothing, or write a table. *)
Inductive generated : Type :=
| UpToDate
| NothingToWrite
| Written (name : string) (table : list (string * string)).

(** The decision and the table of [generateVTKSeries(tlist, flist, cf, ending, lastTime)]
    on the VTK folder [d]. *)
Definition generateVTKSeries_table (base : string) (d : list file)
    (tlist flist : list string) (ending : string) (lastTime : Z) : generated :=
  let seriesfile := find_series d in
  let uptodate :=
    match seriesfile with
    | Some f => (mtime f >? lastTime)%Z
    | None => false
    end in
  if uptodate then UpToDate
  else
    let cfbasename :=
      match seriesfile with
      | Some f => remove_all (ending ++ ".series") (fname f)
      | None => base
      end in
    if (List.length tlist =? 0)%nat || (List.length flist =? 0)%nat
       || negb (List.length tlist =? List.length flist)%nat
    then NothingToWrite
    else Written (cfbasename ++ ending ++ ".series") (argsort_rows (combine tlist flist)).

Definition generateVTKSeries (base : string) (now : Z) (d : list file)
    (tlist flist : list string) (ending : string) (lastTime : Z) : list file :=
  match generateVTKSeries_table base d tlist flist ending lastTime with
  | Written name l =>
      let cfbasename :=
        match find_series d with
        | Some f => remove_all (ending ++ ".series") (fname f)
        | None => base
        end in
      exportFile now name (series_text cfbasename ending l) d
  | _ => d
  end.

(** ** [redoVTKSeriesNoLog] *)

(** [flist.sort()] on integers. *)
Fixpoint insert_Z (z : Z) (l : list Z) : list Z :=
  match l with
  | [] => [z]
  | h :: t => if (h <=? z)%Z then h :: insert_Z z t else z :: h :: t
  end.

Definition sort_Z (l : list Z) : list Z :=
  fold_left (fun acc z => insert_Z z acc) l [].

(** The integers of a list of values; [None] when a string or a float is
    among them. *)
Fixpoint all_ints (l : list pyval) : option (list Z) :=
  match l with
  | [] => Some []
  | PyInt z :: l' => option_map (cons z) (all_ints l')
  | _ :: _ => None
  end.

(** The strings of a list of values that holds strings only. *)
Fixpoint all_strs (l : list pyval) : result (list string) :=
  match l with
  | [] => Ok []
  | PyStr s :: l' => ss <- all_strs l' ;; Ok (s :: ss)
  | _ :: _ => Raise TypeError
  end.

(** ['{:1.1f}'.format(t)] on a value of [tlist]. *)
Definition format_time (v : pyval) : result string :=
  match v with
  | PyInt z => Ok (format_1f (inject_Z z))
  | PyFloat q => Ok (format_1f q)
  | PyStr _ => Raise ValueError
  end.

Fixpoint format_times (l : list pyval) : result (list string) :=
  match l with
  | [] => Ok []
  | v :: l' => s <- format_time v ;; ss <- format_times l' ;; Ok (s :: ss)
  end.

(** The variables of the loop over the VTK folder, and the files as the
    loop leaves them. *)
Record redo_state : Type := mkRedo {
  r_flist : list pyval;
  r_tlist : list pyval;
  r_ending : string;
  r_lastTime : Z;
  r_files : list file
}.

Section Parsers.

(** Python's [float()] and [int()] on a string; [None] is [ValueError]. *)
Variable F : Type.
Variable float_of : string -> option F.
Variable int_of : string -> option Z.

Definition py_float (s : string) : result F :=
  match float_of s with Some x => Ok x | None => Raise ValueError end.

Definition py_int (s : string) : result Z :=
  match int_of s with Some z => Ok z | None => Raise ValueError end.

(** The body of [for file in os.listdir(vtkfolder)]. *)
Definition redo_file (now : Z) (st : redo_state) (f : file) : result redo_state :=
  if endswith (fname f) ".vtm" then
    let lastTime := if (mtime f >? r_lastTime st)%Z then mtime f else r_lastTime st in
    '(flabel, time, f') <- readVTM now f ;;
    if (0 <? len flabel)%nat && (0 <? len time)%nat then
      Ok (mkRedo (r_flist st ++ [PyStr flabel]) (r_tlist st ++ [PyStr time])
                 (r_ending st) lastTime (r_files st ++ [f']))
    else
      Ok (mkRedo (r_flist st) (r_tlist st) (r_ending st) lastTime (r_files st ++ [f']))
  else if endswith (fname f) ".vtk" then
    let lastTime := if (mtime f >? r_lastTime st)%Z then mtime f else r_lastTime st in
    s <- index (re_split_vtk (fname f)) 1 ;;
    flabel <- py_int s ;;
    t <- match last (map Some (r_tlist st)) None with
         | None => Ok (PyInt 0)
         | Some (PyInt z) => Ok (PyFloat (inject_Z z + (1 # 10)))
         | Some (PyFloat q) => Ok (PyFloat (q + (1 # 10)))
         | Some (PyStr _) => Raise TypeError
         end ;;
    Ok (mkRedo (r_flist st ++ [PyInt flabel]) (r_tlist st ++ [t])
               ".vtk" lastTime (r_files st ++ [f]))
  else
    Ok (mkRedo (r_flist st) (r_tlist st) (r_ending st) (r_lastTime st) (r_files st ++ [f])).

Fixpoint redo_loop (now : Z) (st : redo_state) (d : list file) : result redo_state :=
  match d with
  | [] => Ok st
  | f :: d' => st' <- redo_file now st f ;; redo_loop now st' d'
  end.

(** The lists handed to [generateVTKSeries]: as they are for [.vtm]
    files, where both hold strings; sorted labels and formatted times
    for [.vtk] files. *)
Definition redo_lists (st : redo_state) : result (list string * list string) :=
  if String.eqb (r_ending st) ".vtk" then
    match all_ints (r_flist st) with
    | None => Raise TypeError
    | Some zs =>
        tl <- format_times (r_tlist st) ;;
        Ok (tl, map str_of_Z (sort_Z zs))
    end
  else
    tl <- all_strs (r_tlist st) ;;
    fl <- all_strs (r_flist st) ;;
    Ok (tl, fl).

(** [redoVTKSeriesNoLog(folder)].  Every file written during one call
    gets the modification time [clock]. *)
Definition redoVTKSeriesNoLog (sf : simfolder) : result simfolder :=
  match vtk sf with
  | None => Ok sf
  | Some d =>
      st <- redo_loop (clock sf) (mkRedo [] [] ".vtm" 0 []) d ;;
      '(tl, fl) <- redo_lists st ;;
      Ok (mkSim (cfbase sf) (listing sf)
            (Some (generateVTKSeries (cfbase sf) (clock sf) (r_files st)
                     tl fl (r_ending st) (r_lastTime st)))
            (clock sf))
  end.

(** The table that [redoVTKSeriesNoLog] has [generateVTKSeries] write,
    with the lists of times and labels it was given. *)
Definition redo_generated (sf : simfolder)
  : result (list string * list string * generated) :=
  match vtk sf with
  | None => Ok ([], [], NothingToWrite)
  | Some d =>
      st <- redo_loop (clock sf) (mkRedo [] [] ".vtm" 0 []) d ;;
      '(tl, fl) <- redo_lists st ;;
      Ok (tl, fl,
          generateVTKSeries_table (cfbase sf) (r_files st) tl fl
            (r_ending st) (r_lastTime st))
  end.

(** ** Reading the times *)

(** [series(folder, loop)]: the series file, if any. *)
Definition series (loop : bool) (sf : simfolder) : result (option file * simfolder) :=
  match vtk sf with
  | None => Ok (None, sf)
  | Some d =>
      match find_series d with
      | Some f => Ok (Some f, sf)
      | None =>
          if loop then
            sf' <- redoVTKSeriesNoLog sf ;;
            Ok (match vtk sf' with Some d' => find_series d' | None => None end, sf')
          else Ok (None, sf)
      end
  end.

(** [vtkFiles(folder)] *)
Definition vtkFiles (sf : simfolder) : nat :=
  match vtk sf with
  | None => 0
  | Some d =>
      List.length
        (filter (fun f => endswith (fname f) ".vtk" || endswith (fname f) ".vtm") d)
  end.

(** [float(re.split(..., line)[1])], where the pattern splits at the
    word time followed by a double quote, a blank, a colon and a blank,
    and at a blank followed by a closing brace. *)
Definition series_line_time (line : string) : result F :=
  s <- index (re_split2 ("time" ++ dq ++ " : ") " }" line) 1 ;;
  py_float s.

(** The loop [for line in f] of [parseVTKSeries]. *)
Fixpoint series_times (lines : list string) : result (list F) :=
  match lines with
  | [] => Ok []
  | line :: rest =>
      if contains "name" line then
        t <- series_line_time line ;;
        ts <- series_times rest ;;
        Ok (t :: ts)
      else series_times rest
  end.

(** [parseVTKSeries(folder)] *)
Definition parseVTKSeries (sf : simfolder) : result (list F * simfolder) :=
  '(seriesfile, sf1) <- series true sf ;;
  times <- match seriesfile with
           | Some f => series_times (readlines (text f))
           | None => Ok []
           end ;;
  if (List.length times <? vtkFiles sf1)%nat then
    sf2 <- redoVTKSeriesNoLog sf1 ;;
    Ok (times, sf2)
  else Ok (times, sf1).

(** [timesFromFolder(folder)] *)
Fixpoint floats_of (ff : list string) : list F :=
  match ff with
  | [] => []
  | i :: ff' =>
      match float_of i with
      | None => floats_of ff'
      | Some s0 => s0 :: floats_of ff'
      end
  end.

Definition timesFromFolder (sf : simfolder) : list F := floats_of (listing sf).

(** [times(folder)] *)
Definition times (sf : simfolder) : result (list F * simfolder) :=
  let t1 := timesFromFolder sf in
  '(t2, sf') <- parseVTKSeries sf ;;
  if (List.length t2 <? List.length t1)%nat then Ok (t1, sf') else Ok (t2, sf').

End Parsers.

(** ** Plain decimal numerals

    Python's [float()] and [int()] also take exponents, underscores,
    surrounding blanks and the words [inf] and [nan].  The two functions
    below read the plain numerals that OpenFOAM uses for its time folders
    and time values, and serve where a concrete folder is evaluated. *)

Definition digit_of (c : ascii) : option Z :=
  let n := nat_of_ascii c in
  if (48 <=? n)%nat && (n <=? 57)%nat then Some (Z.of_nat (n - 48)) else None.

Fixpoint decimal_frac (num : Z) (den : positive) (seen : bool) (s : string) : option Q :=
  match s with
  | EmptyString => if seen then Some (num # den) else None
  | String c s' =>
      match digit_of c with
      | Some k => decimal_frac (10 * num + k) (10 * den) true s'
      | None => None
      end
  end.

Fixpoint decimal_whole (num : Z) (seen : bool) (s : string) : option Q :=
  match s with
  | EmptyString => if seen then Some (num # 1) else None
  | String c s' =>
      if Ascii.eqb c "." then decimal_frac num 1 seen s'
      else
        match digit_of c with
        | Some k => decimal_whole (10 * num + k) true s'
        | None => None
        end
  end.

Definition decimal_float (s : string) : option Q :=
  match s with
  | String "-" s' => option_map Qopp (decimal_whole 0 false s')
  | String "+" s' => decimal_whole 0 false s'
  | _ => decimal_whole 0 false s
  end.

Fixpoint decimal_digits (num : Z) (seen : bool) (s : string) : option Z :=
  match s with
  | EmptyString => if seen then Some num else None
  | String c s' =>
      match digit_of c with
      | Some k => decimal_digits (10 * num + k) true s'
      | None => None
      end
  end.

Definition decimal_int (s : string) : option Z :=
  match s with
  | String "-" s' => option_map Z.opp (decimal_digits 0 false s')
  | String "+" s' => decimal_digits 0 false s'
  | _ => decimal_digits 0 false s
  end.

(** ** Folder tools *)

(** What the folder tools look at in an entry of a folder of simulations:
    its base name, and whether it holds [case], [constant], [VTK],
    [interfacePoints] and [legend.csv]. *)
Record dirent : Type := mkDirent {
  d_name : string;
  d_case : bool;
  d_constant : bool;
  d_VTK : bool;
  d_interfacePoints : bool;
  d_legend : bool
}.

(** The three answers of [caseFolder(folder)]: [''], the folder itself, or
    its subfolder [case]. *)
Inductive casepath : Type := NoCase | Itself | CaseSub.

Definition caseFolder (e : dirent) : casepath :=
  if d_case e then CaseSub
  else if d_constant e then Itself
  else if d_VTK e then Itself
  else if d_interfacePoints e then Itself
  else if d_legend e then Itself
  else NoCase.

(** [isSimFolder(folder)]: the path that [caseFolder] answers exists
    whenever it is not ['']. *)
Definition isSimFolder (e : dirent) : bool :=
  if String.eqb (d_name e) "mesh" then false
  else
    match caseFolder e with
    | NoCase => false
    | _ => true
    end.

(** [s[2:]] *)
Definition from_2 (s : string) : string :=
  match s with
  | String _ (String _ r) => r
  | _ => EmptyString
  end.

(** [flist.sort(key=...)] once the keys are known: a stable sort, here by
    insertion behind the entries whose key is not larger. *)
Fixpoint insert_keyed (A : Type) (x : Z * A) (l : list (Z * A)) : list (Z * A) :=
  match l with
  | [] => [x]
  | h :: t => if (fst h <=? fst x)%Z then h :: insert_keyed x t else x :: h :: t
  end.

Definition sort_keyed (A : Type) (l : list (Z * A)) : list (Z * A) :=
  fold_left (fun acc x => insert_keyed x acc) l [].

Section CaseFolders.

Variable int_of : string -> option Z.

(** The keys [int(os.path.basename(x)[2:])] of the list, computed for all
    of its elements before anything is moved. *)
Fixpoint sort_keys (l : list dirent) : result (list (Z * dirent)) :=
  match l with
  | [] => Ok []
  | e :: l' =>
      k <- py_int int_of (from_2 (d_name e)) ;;
      ks <- sort_keys l' ;;
      Ok ((k, e) :: ks)
  end.

(** [caseFolders(folder)] on the entries of the folder in listing order. *)
Definition caseFolders (entries : list dirent) : result (list dirent) :=
  keyed <- sort_keys (filter isSimFolder entries) ;;
  Ok (map snd (sort_keyed keyed)).

End CaseFolders.

(** ** [currentRate] and [currentTime] *)

(** The dictionary of [legendUnique]: keys and values, every key once. *)
Definition legend_dict : Type := list (string * string).

(** [t[s]] for a key that may be missing. *)
Fixpoint lookup (s : string) (t : legend_dict) : option string :=
  match t with
  | [] => None
  | (k, v) :: t' => if String.eqb k s then Some v else lookup s t'
  end.

(** The dictionary [out] of [currentRate]. *)
Record rate_dict : Type := mkRate {
  simulation_time : string;
  end_time : string;
  rate : string;
  run_time : string
}.

(** [for s in keys: if s in t: out[...] = t[s]] *)
Definition pick (keys : list string) (t : legend_dict) : string :=
  fold_left (fun out s => match lookup s t with Some v => v | None => out end)
            keys EmptyString.

(** [currentRate(folder)] on the dictionary that [legendUnique] answers. *)
Definition currentRate (t : legend_dict) : rate_dict :=
  match t with
  | [] => mkRate EmptyString EmptyString EmptyString EmptyString
  | _ :: _ =>
      mkRate (pick ["simulation_time"; "simulation_time_(s)"; "simulation_time_s"] t)
             (pick ["endTime"; "endTime_s"; "endTime_(s)"] t)
             (pick ["simulation_rate"; "simulation_rate_(hr/s)"; "simulation_rate_hr/s"] t)
             (pick ["_interFoam_time"; "interFoam_time_(s)"; "interFoam_time_s"] t)
  end.

(** A value that is a float or still a string. *)
Inductive float_or_str : Type :=
| IsFloat (q : Q)
| IsStr (s : string).

(** [max(t2)] for a list with the first element [x]. *)
Definition list_max (x : Q) (l : list Q) : Q :=
  fold_left (fun best y => if Qle_bool y best then best else y) l x.

Section CurrentTime.

Variable float_of : string -> option Q.
Variable int_of : string -> option Z.

(** [try: v = float(v) except: pass] *)
Definition try_float (v : float_or_str) : float_or_str :=
  match v with
  | IsFloat q => IsFloat q
  | IsStr s =>
      match float_of s with
      | Some q => IsFloat q
      | None => IsStr s
      end
  end.

(** [currentTime(folder)]: the pair of the simulated time and the end time,
    and the folder as [times] leaves it. *)
Definition currentTime (t : legend_dict) (sf : simfolder)
  : result (float_or_str * float_or_str * simfolder) :=
  let rdict := currentRate t in
  let endTime := end_time rdict in
  '(t2, sf') <- times float_of int_of sf ;;
  let simtime :=
    match t2 with
    | x :: l => IsFloat (list_max x l)
    | [] => IsStr (simulation_time rdict)
    end in
  Ok (try_float simtime, try_float (IsStr endTime), sf').

End CurrentTime.

(** ** [modifyControlDict] *)

Definition tab : string := String (Ascii.ascii_of_nat 9) EmptyString.

(** [linenew], for the text [tend] of [str(tend)]. *)
Definition endTime_line (tend : string) : string := "endTime" ++ tab ++ tend ++ ";" ++ nl.

(** The loop over the lines of the dictionary: the value of [retval] and
    the lines written to the new file so far. *)
Fixpoint rewrite_endTime (tend : string) (lines : list string) : Z * list string :=
  match lines with
  | [] => (0%Z, [])
  | line :: rest =>
      if prefix "endTime" line then
        if String.eqb (endTime_line tend) line then (1%Z, [])
        else
          let '(retval, written) := rewrite_endTime tend rest in
          (retval, endTime_line tend :: written)
      else
        let '(retval, written) := rewrite_endTime tend rest in
        (retval, line :: written)
  end.

(** [modifyControlDict(folder, tend)] on the text of [system/controlDict]
    ([None]: there is no such file): the value returned and the text of the
    file afterwards. *)
Definition modifyControlDict (tend : string) (cdfile : option string) : Z * option string :=
  match cdfile with
  | None => (1%Z, None)
  | Some content =>
      let '(retval, written) := rewrite_endTime tend (readlines content) in
      if (retval =? 0)%Z then (0%Z, Some (join written)) else (retval, Some content)
  end.

(** ** [legendTableToDict] and [legendUnique] *)

(** [s.replace(' ', '_')] *)
Fixpoint underscores (s : string) : string :=
  match s with
  | EmptyString => EmptyString
  | String c s' => String (if Ascii.eqb c " " then "_"%char else c) (underscores s')
  end.

(** [l.count(x)] *)
Definition count (x : string) (l : list string) : nat :=
  List.length (filter (String.eqb x) l).

(** [[i[0] for i in t]] *)
Fixpoint first_cells (t : list (list string)) : result (list string) :=
  match t with
  | [] => Ok []
  | [] :: _ => Raise IndexError
  | (h :: _) :: t' => hs <- first_cells t' ;; Ok (h :: hs)
  end.

Definition section_words : list string :=
  ["sup"; "ink"; "controlDict"; "dynamicMeshDict"].

(** The body of the loop [for i in range(len(t))] up to the renaming of
    the row [h0 :: cells]: the row, the list [headers2] and the section
    after it.  [done] holds the rows before [i] as the loop left them and
    [rest'] the rows behind [i], which are still as they were; [headers] is
    the first column at the start, and [headers2] the list of that name,
    which is the same list until a row is renamed. *)
Definition legend_row (headers headers2 : list string) (section : string)
    (done : list (list string)) (h0 : string) (cells : list string)
    (rest' : list (list string)) : result (list string * list string * string) :=
  if String.eqb h0 EmptyString then
    match rest' with
    | (h1 :: _) :: _ => Ok (h0 :: cells, headers2, h1)
    | _ => Raise IndexError
    end
  else if existsb (String.eqb h0) section_words then Ok (h0 :: cells, headers2, h0)
  else if (1 <? count h0 headers)%nat then
    let newname := underscores h0 in
    let newname :=
      if (0 <? len section)%nat then section ++ "_" ++ newname else newname in
    let newname :=
      if (0 <? count newname headers2)%nat || (len section =? 0)%nat then
        match cells with
        | _ :: u :: _ => newname ++ "_" ++ u
        | _ => newname ++ "_0"
        end
      else newname in
    let row' := newname :: cells in
    hs <- first_cells (done ++ row' :: rest') ;;
    Ok (row', hs, section)
  else Ok (underscores h0 :: cells, headers2, section).

(** The loop, with [if len(t[i])==2: t[i] = t[i] + ['']] at the end of
    its body. *)
Fixpoint legend_loop (headers headers2 : list string) (section : string)
    (done rest : list (list string)) : result (list (list string)) :=
  match rest with
  | [] => Ok done
  | row :: rest' =>
      match row with
      | [] => Raise IndexError
      | h0 :: cells =>
          '(row', headers2', section') <-
            legend_row headers headers2 section done h0 cells rest' ;;
          let row'' := if (List.length row' =? 2)%nat then (row' ++ [EmptyString])%list
                       else row' in
          legend_loop headers headers2' section' (done ++ [row'']) rest'
      end
  end.

(** [{a[0]:a[1] for a in t}]: the pairs in the order of the rows, and the
    dictionary they make, where a key that comes again keeps its place and
    takes the new value. *)
Fixpoint values_of (t : list (list string)) : result (list (string * string)) :=
  match t with
  | [] => Ok []
  | (k :: v :: _) :: t' => vs <- values_of t' ;; Ok ((k, v) :: vs)
  | _ :: _ => Raise IndexError
  end.

Fixpoint dict_set (k v : string) (d : legend_dict) : legend_dict :=
  match d with
  | [] => [(k, v)]
  | (k', v') :: d' =>
      if String.eqb k' k then (k, v) :: d' else (k', v') :: dict_set k v d'
  end.

Definition to_dict (pairs : list (string * string)) : legend_dict :=
  fold_left (fun d kv => dict_set (fst kv) (snd kv) d) pairs [].

(** [legendTableToDict(t)] without units. *)
Definition legendTableToDict (t : list (list string)) : result legend_dict :=
  headers <- first_cells t ;;
  t' <- legend_loop headers headers EmptyString [] t ;;
  pairs <- values_of t' ;;
  Ok (to_dict pairs).

(** [legendUnique(folder)] without units, on the table that [importIf]
    reads. *)
Definition legendUnique (t : list (list string)) : result legend_dict :=
  if (List.length t =? 0)%nat then Ok [] else legendTableToDict t.

End FolderParser.

(* ================================================================== *)
(** * py/interfacemetrics.py: slice summaries and steady state *)
(* ================================================================== *)

Module InterfaceMetrics.
Import Py.
Open Scope Q_scope.

(** ** Columns of numbers *)

Definition Qmax2 (a b : Q) : Q := if Qle_bool a b then b else a.
Definition Qmin2 (a b : Q) : Q := if Qle_bool a b then a else b.

(** [col.max()] and [col.min()]; [None] stands for the [nan] that pandas
    gives for an empty column. *)
Definition col_max (l : list Q) : option Q :=
  match l with
  | [] => None
  | h :: t => Some (fold_left Qmax2 t h)
  end.

Definition col_min (l : list Q) : option Q :=
  match l with
  | [] => None
  | h :: t => Some (fold_left Qmin2 t h)
  end.

(** [col.max()-col.min()] and [col.min()] of a column that is not empty. *)
Definition extent (l : list Q) : Q :=
  match col_max l, col_min l with
  | Some hi, Some lo => hi - lo
  | _, _ => 0
  end.

Definition lowest (l : list Q) : Q :=
  match col_min l with
  | Some lo => lo
  | None => 0
  end.

Definition col_sum (l : list Q) : Q := fold_left Qplus l 0.

(** [col.mean()] of a column that is not empty. *)
Definition col_mean (l : list Q) : Q := col_sum l / inject_Z (Z.of_nat (List.length l)).

(** [np.sort(col.unique())]: the distinct values in increasing order. *)
Fixpoint insert_unique (q : Q) (l : list Q) : list Q :=
  match l with
  | [] => [q]
  | h :: t =>
      match q ?= h with
      | Lt => q :: l
      | Eq => l
      | Gt => h :: insert_unique q t
      end
  end.

Definition sort_unique (l : list Q) : list Q :=
  fold_left (fun acc q => insert_unique q acc) l [].

(** [col.unique()]: the distinct values in the order of their first
    appearance. *)
Fixpoint unique (l : list Q) : list Q :=
  match l with
  | [] => []
  | h :: t => h :: filter (fun q => negb (Qeq_bool q h)) (unique t)
  end.

(** [round(q, 3)] *)
Definition round3 (q : Q) : Q :=
  Qred (FolderParser.round_half_even (q * 1000) # 1000).

(** ** [folderStats] *)

(** The attributes of [folderStats] that the summaries use, in the units
    the constructor leaves them in. *)
Record folderStats : Type := mkFolderStats {
  ncx : Q;
  niw : Q;
  nt : Q;
  nbz : Q;
  bv : Q
}.

Definition nre (fs : folderStats) : Q := ncx fs + niw fs / 2 + nt fs.
Definition behind (fs : folderStats) : Q := nre fs + niw fs.
Definition intentzbot (fs : folderStats) : Q := nbz fs - niw fs.

(** ** [sliceSummary] *)

(** A row of an interface points table. *)
Record point : Type := mkPoint {
  pt_x : Q;
  pt_y : Q;
  pt_z : Q;
  pt_vx : Q;
  pt_time : Q
}.

(** The dictionary [rv]. *)
Record summary : Type := mkSummary {
  s_x : Q; s_xbehind : Q; s_time : Q;
  s_centery : Q; s_centerz : Q; s_area : Q; s_maxheight : Q; s_maxwidth : Q;
  s_centeryn : Q; s_centerzn : Q; s_arean : Q; s_maxheightn : Q; s_maxwidthn : Q;
  s_vertdisp : Q; s_vertdispn : Q; s_aspectratio : Q; s_speed : Q; s_speeddecay : Q
}.

(** The two failures of a slice that the specification names. *)
Definition InsufficientSamplesError : exn := Exception "Not enough points".
Definition DegenerateGeometryError : exn := Exception "Cross-section is too small".
Definition CentroidError : exn := Exception "centroid error".

(** [np.pi], the double nearest to the number pi. *)
Definition np_pi : Q := 884279719003555 # 281474976710656.

Section Slices.

(** [centroidAndArea(sli)] is computed by the shapely library from the
    (y, z) pairs of the slice: centroid and area of their convex hull.
    [None] stands for an exception raised by the library or by the
    parsing of its answer. *)
Variable centroidAndArea : list (Q * Q) -> option (Q * Q * Q).

Definition sliceSummary (fs : folderStats) (sli : list point) : result summary :=
  match sli with
  | [] => Raise IndexError
  | p0 :: _ =>
      let x := pt_x p0 in
      let xbehind := x - ncx fs in
      let time := pt_time p0 in
      if (List.length sli <? 10)%nat then Raise InsufficientSamplesError
      else
        match centroidAndArea (map (fun p => (pt_y p, pt_z p)) sli) with
        | None => Raise CentroidError
        | Some (centery, centerz, area) =>
            let maxheight := extent (map pt_z sli) in
            let maxwidth := extent (map pt_y sli) in
            if Qeq_bool maxheight 0 || Qeq_bool maxwidth 0
            then Raise DegenerateGeometryError
            else if Qeq_bool (niw fs) 0 then Raise ZeroDivisionError
            else
              let vertdisp := lowest (map pt_z sli) - intentzbot fs in
              let speed := col_mean (map pt_vx sli) in
              Ok (mkSummary x xbehind time
                    centery centerz area maxheight maxwidth
                    (centery / niw fs) (centerz / niw fs)
                    (area / (np_pi * ((niw fs / 2) * (niw fs / 2))))
                    (maxheight / niw fs) (maxwidth / niw fs)
                    vertdisp (vertdisp / niw fs) (maxheight / maxwidth)
                    speed (speed / bv fs))
        end
  end.

(** ** [summarizeSlices] *)

(** [data[data['x']==x]] *)
Definition slice_at (data : list point) (x : Q) : list point :=
  filter (fun p => Qeq_bool (pt_x p) x) data.

(** The body of [for x in xlist]: a slice of ten points or more is
    summarized inside [try], and its summary is appended in the [else]
    branch. *)
Definition summarize_slice (fs : folderStats) (s : list summary) (sli : list point)
  : list summary :=
  if (9 <? List.length sli)%nat then
    match sliceSummary fs sli with
    | Raise _ => s
    | Ok ss1 => s ++ [ss1]
    end
  else s.

(** The slices of one file: one for every distinct [x] behind the
    nozzle, in increasing order of [x]. *)
Definition slices_of (fs : folderStats) (data : list point) : list (list point) :=
  map (slice_at data)
      (filter (fun x => negb (Qle_bool x (behind fs))) (sort_unique (map pt_x data))).

(** The body of [for f in ipfiles]. *)
Definition summarize_file (fs : folderStats) (s : list summary) (data : list point)
  : list summary :=
  if (0 <? List.length data)%nat
  then fold_left (summarize_slice fs) (slices_of fs data) s
  else s.

(** [summarizeSlices(fs)] on the tables of the files of the interface
    points folder, already imported; [None]: the folder does not exist. *)
Definition summarizeSlices (fs : folderStats) (ipfolder : option (list (list point)))
  : result (list summary) :=
  match ipfolder with
  | None => Raise (Exception "No interface points")
  | Some ipfiles => Ok (fold_left (summarize_file fs) ipfiles [])
  end.

End Slices.

(** ** [steadyList] *)

(** The two modes: the variable that splits the summaries into groups. *)
Inductive mode : Type := Xbehind | Time.

(** A row of the slice summaries: the two independent variables and the
    column [col] that is watched. *)
Record ssrow : Type := mkRow { r_xbehind : Q; r_time : Q; r_col : Q }.

Definition by_mode (m : mode) (r : ssrow) : Q :=
  match m with Xbehind => r_xbehind r | Time => r_time r end.

(** [other]: the variable that is scanned. *)
Definition other (m : mode) : mode :=
  match m with Xbehind => Time | Time => Xbehind end.

Definition outlabel (m : mode) : list string :=
  match m with
  | Xbehind => ["x"; "t0"; "tf"]
  | Time => ["t"; "x0"; "xf"]
  end%string.

(** The table that [steadyList] returns: column names, the row of units
    when there is one, and the rows of numbers. *)
Record steady_table : Type := mkTable {
  columns : list string;
  unitrow : option (string * string * string);
  rows : list (Q * Q * Q)
}.

Section Steady.

Variable dother : Q.
Variable vdcrit : Q.
Variable m : mode.

(** [l2[col].max()-l2[col].min()] for the chunk centered at [xtother];
    [None] stands for [nan]. *)
Definition vdrange_at (l1 : list ssrow) (xtother : Q) : option Q :=
  let l2 :=
    filter (fun r => Qle_bool (xtother - dother / 2) (by_mode (other m) r)
                     && Qle_bool (by_mode (other m) r) (xtother + dother / 2)) l1 in
  match col_max (map r_col l2), col_min (map r_col l2) with
  | Some hi, Some lo => Some (hi - lo)
  | _, _ => None
  end.

(** [vdrange>vdcrit] and [vdrange<=vdcrit]; both are false on [nan]. *)
Definition above (vdrange : option Q) : bool :=
  match vdrange with
  | Some v => negb (Qle_bool v vdcrit)
  | None => false
  end.

Definition within (vdrange : option Q) : bool :=
  match vdrange with
  | Some v => Qle_bool v vdcrit
  | None => false
  end.

(** The two [while] loops.  [rest] is [list2[i+1:]], so that
    [i+1<len(list2)] says that [rest] is not empty; [xtother] is [None]
    as long as the variable is not bound. *)
Fixpoint scan (cond : option Q -> bool) (l1 : list ssrow)
    (vdrange : option Q) (xtother : option Q) (rest : list Q)
  : option Q * option Q * list Q :=
  match rest with
  | [] => (vdrange, xtother, [])
  | v :: rest' =>
      if cond vdrange
      then scan cond l1 (vdrange_at l1 v) (Some v) rest'
      else (vdrange, xtother, rest)
  end.

(** The row [[modevar, other0, otherf]] after the rounding. *)
Definition steady_row (modevar other0 otherf : Q) : Q * Q * Q :=
  match m with
  | Xbehind => (round3 modevar, other0, otherf)
  | Time => (modevar, round3 other0, round3 otherf)
  end.

(** The body of [for xtmode in list1]: the row to append, if any. *)
Definition steady_group (ss : list ssrow) (xtmode : Q) : result (option (Q * Q * Q)) :=
  let l1 := filter (fun r => Qeq_bool (by_mode m r) xtmode) ss in
  let list2 := sort_unique (map (by_mode (other m)) l1) in
  let '(vdrange, xtother, rest) := scan above l1 (Some 100) None list2 in
  match rest with
  | [] => Ok None
  | _ :: _ =>
      match xtother with
      | None => Raise NameError
      | Some other0 =>
          let '(_, xtother', rest') := scan within l1 vdrange xtother rest in
          let otherf :=
            match rest', xtother' with
            | _ :: _, Some v => v
            | _, _ => 1000
            end in
          Ok (Some (steady_row xtmode other0 otherf))
      end
  end.

Fixpoint steady_groups (ss : list ssrow) (list1 : list Q) : result (list (Q * Q * Q)) :=
  match list1 with
  | [] => Ok []
  | xtmode :: list1' =>
      r <- steady_group ss xtmode ;;
      rs <- steady_groups ss list1' ;;
      Ok (match r with Some row => row :: rs | None => rs end)
  end.

(** [steadyList(folder, dother, vdcrit, col, mode)] on the summaries
    that [pSS(folder)] returns: the rows with the column [col] picked,
    and the units of [xbehind] and [time] ([None] for a dictionary of
    units that is empty).  [pss = None] stands for a call of [pSS] that
    raises.  [pSS] is imported from a module that is not among the
    sources; what it returns is an input here. *)
Definition steadyList (pss : option (list ssrow * option (string * string)))
  : result steady_table :=
  match pss with
  | None => Raise (Exception "Problem with summaries")
  | Some (ss, ssunits) =>
      if (List.length ss <? 2)%nat then Ok (mkTable (outlabel m) None [])
      else
        match ssunits with
        | None => Raise NameError
        | Some (uxbehind, utime) =>
            flat <- steady_groups ss (unique (map (by_mode m) ss)) ;;
            Ok (mkTable (outlabel m)
                  (Some (match m with
                         | Xbehind => (uxbehind, utime, utime)
                         | Time => (utime, uxbehind, uxbehind)
                         end))
                  flat)
        end
  end.

End Steady.

(** [steadyTime] and [steadyPos] *)
Definition steadyTime (dt vdcrit : Q) := steadyList dt vdcrit Xbehind.
Definition steadyPos (dx vdcrit : Q) := steadyList dx vdcrit Time.

(** ** [closest] and [importPtsSlice] *)

(** [abs(q)] *)
Definition Qabs2 (q : Q) : Q := if Qle_bool 0 q then q else - q.

(** [(np.abs(lst - K)).argmin()] picks the first of the values that are
    nearest to [K]; [best] is the nearest value so far. *)
Fixpoint nearest_from (K best : Q) (rest : list Q) : Q :=
  match rest with
  | [] => best
  | v :: rest' =>
      if Qle_bool (Qabs2 (best - K)) (Qabs2 (v - K))
      then nearest_from K best rest'
      else nearest_from K v rest'
  end.

(** [closest(lst, K)]; [argmin] of an empty array raises [ValueError]. *)
Definition closest (lst : list Q) (K : Q) : result Q :=
  match lst with
  | [] => Raise ValueError
  | v :: rest => Ok (nearest_from K v rest)
  end.

(** [xpts(data)] *)
Definition xpts (data : list point) : list Q := sort_unique (map pt_x data).

Definition shift_x (f : Q -> Q) (p : point) : point :=
  mkPoint (f (pt_x p)) (pt_y p) (pt_z p) (pt_vx p) (pt_time p).

(** The division of the positions by a length that is 0: pandas divides
    floats without raising, and every position becomes [inf], [-inf] or
    [nan]. *)
Definition divides_by_0 (unit : option Q) : bool :=
  match unit with
  | Some d => Qeq_bool d 0
  | None => false
  end.

(** [importPtsSlice(folder, time, xbehind, xunits)] on the table [pts] of
    the interface points at that time, the legend's [nozzle_center_x_coord]
    [xc], and the length [unit] by which the positions are divided
    ([None]: [xunits] is mm, is not in the legend, or the table is not in
    mm).  After a division by 0 no point is returned: a nearest position
    that is infinite is farther than 0.2 from the position asked for and
    the answer is [[]], and a nearest position that is [nan] equals the
    position of no point, and the answer is a table without rows. *)
Definition importPtsSlice (pts : list point) (xc : Q) (unit : option Q) (xbehind : Q)
  : result (list point) :=
  match pts with
  | [] => Ok []
  | _ :: _ =>
      let pts := map (shift_x (fun x => x - xc)) pts in
      if divides_by_0 unit then Ok []
      else
        let pts :=
          match unit with
          | Some d => map (shift_x (fun x => x / d)) pts
          | None => pts
          end in
        xreal <- closest (xpts pts) xbehind ;;
        if Qle_bool (Qabs2 (xreal - xbehind)) (2 # 10) then Ok (slice_at pts xreal)
        else Ok []
  end.

End InterfaceMetrics.

(* ================================================================== *)
(** * pythonscripts/plot_metrics.py: the survival model *)
(* ================================================================== *)

Module PlotMetrics.
Import Py.
Open Scope R_scope.

(** ** Numbers *)

(** [x**y] on floats.  For a positive base it is the real power, and a
    zero base gives 0 for a positive exponent and 1 for the exponent 0.
    Where numpy answers [inf] or [nan] (zero base and negative exponent,
    negative base and fractional exponent) the real numbers have nothing
    to offer and the value of the model is of no significance. *)
Definition float_pow (x y : R) : R :=
  if Req_dec_T x 0 then (if Req_dec_T y 0 then 1 else 0) else Rpower x y.

(** [int(r)]: truncation toward zero. *)
Definition trunc (r : R) : Z :=
  if Rle_dec 0 r then Int_part r else (- Int_part (- r))%Z.

(** Rounding to the nearest integer, ties to even. *)
Definition round_half_even (r : R) : Z :=
  let f := Int_part r in
  let d := r - IZR f in
  if Rlt_dec d (1 / 2) then f
  else if Rlt_dec (1 / 2) d then (f + 1)%Z
  else if Z.even f then f else (f + 1)%Z.

(** [round(r, 5)] *)
Definition round5 (r : R) : R := IZR (round_half_even (r * 100000)) / 100000.

(** [l[-1]] on a list that is not empty. *)
Definition last_of (l : list R) : R := last l 0.

Definition Rsum (l : list R) : R := fold_right Rplus 0 l.

(** [col.mean()] *)
Definition Rmean (l : list R) : R := Rsum l / INR (List.length l).

(** ** The class [survival] *)

Record survival : Type := mkSurvival {
  rbar : R;
  zlist : list R;
  xlist : list R;
  totalI : R;
  Ilist : list R;
  tlist : list R;
  dtlist : list R;
  taulist : list R;
  vlist : list R;
  coef_a : R;
  coef_b : R;
  coef_c : R
}.

(** [survival.__init__(rbar, a, b, c)] *)
Definition init (rbar a b c : R) : survival :=
  mkSurvival rbar [] [] 1 [1] [0] [0] [0] [0] a b c.

(** The columns of a row that [addStep] reads. *)
Record row : Type := mkRow {
  row_z : R;
  row_x : R;
  row_magu : R;
  row_shearstressmag : R
}.

(** [survival.addStep(row)] *)
Definition addStep (self : survival) (r : row) : survival :=
  match zlist self with
  | [] =>
      mkSurvival (rbar self) (zlist self ++ [row_z r]) (xlist self ++ [row_x r])
        (totalI self) (Ilist self) (tlist self) (dtlist self) (taulist self) (vlist self)
        (coef_a self) (coef_b self) (coef_c self)
  | _ :: _ =>
      let v := row_magu r in
      let traveled :=
        sqrt ((last_of (zlist self) - row_z r) ^ 2 + (last_of (xlist self) - row_x r) ^ 2) in
      let dt := traveled / v in
      let tau := row_shearstressmag r in
      if Rlt_dec v (0.1 * last_of (vlist self)) then self
      else
        let Ii := exp (- coef_a self * float_pow tau (coef_b self) * float_pow dt (coef_c self)) in
        let Ii := Rmin 1 Ii in
        let total := totalI self * Ii in
        mkSurvival (rbar self) (zlist self ++ [row_z r]) (xlist self ++ [row_x r])
          total (Ilist self ++ [total]) (tlist self ++ [last_of (tlist self) + dt])
          (dtlist self ++ [dt]) (taulist self ++ [tau]) (vlist self ++ [v])
          (coef_a self) (coef_b self) (coef_c self)
  end.

(** [survival.addUnits(normval)] *)
Definition addUnits (self : survival) (normval : R) : survival :=
  mkSurvival (rbar self) (map (fun z => z / normval) (zlist self)) (xlist self)
    (totalI self) (Ilist self) (tlist self) (dtlist self) (taulist self) (vlist self)
    (coef_a self) (coef_b self) (coef_c self).

(** The tracks that the code can build: a fresh one, and what [addStep]
    makes of a track. *)
Inductive built : survival -> Prop :=
| built_init : forall rbar a b c, built (init rbar a b c)
| built_step : forall self r, built self -> built (addStep self r).

(** ** [survivalCalc] *)

(** A row of the nozzle points table. *)
Record npoint : Type := mkNpoint {
  np_x : R;
  np_y : R;
  np_z : R;
  np_magu : R;
  np_shearstressmag : R
}.

(** The entries of the legend that are read. *)
Record legend : Type := mkLegend {
  nozzle_center_x_coord : R;
  nozzle_center_y_coord : R;
  nozzle_inner_width : R;
  nozzle_angle : R;
  nozzle_bottom_coord : R;
  nozzle_length : R
}.

(** [np.tan(np.deg2rad(na))] *)
Definition tana (le : legend) : R := tan (nozzle_angle le * PI / 180).

(** The normalized radius of a point whose [z] is already relative to the
    bottom of the nozzle. *)
Definition rbar_exact (le : legend) (p : npoint) : R :=
  sqrt ((np_x p - nozzle_center_x_coord le) ^ 2 + (np_y p - nozzle_center_y_coord le) ^ 2)
  / (nozzle_inner_width le / 2 + Rabs (np_z p) * tana le).

(** [round(int(rbar/dr)*dr,5)], the bin of a normalized radius, as
    [survivalCalc] and [takePlane] compute it for a bin width [dr] that
    is not zero. *)
Definition rbar_bin (dr rbar : R) : R := round5 (IZR (trunc (rbar / dr)) * dr).

(** The distinct values in increasing order. *)
Fixpoint insert_unique (r : R) (l : list R) : list R :=
  match l with
  | [] => [r]
  | h :: t =>
      if Rlt_dec r h then r :: l
      else if Req_dec_T r h then l
      else h :: insert_unique r t
  end.

Definition sort_unique (l : list R) : list R :=
  fold_left (fun acc r => insert_unique r acc) l [].

(** The keys of [dict([[k, v] for k in l])], in the order of insertion. *)
Fixpoint dict_keys (l : list R) : list R :=
  match l with
  | [] => []
  | h :: t => h :: filter (fun r => if Req_dec_T r h then false else true) (dict_keys t)
  end.

(** [rz[key]] changed by [f]. *)
Fixpoint update (key : R) (f : survival -> survival) (rz : list (R * survival))
  : list (R * survival) :=
  match rz with
  | [] => []
  | (k, s) :: rz' =>
      if Req_dec_T k key then (k, f s) :: rz' else (k, s) :: update key f rz'
  end.

(** [np.arange(0, 1, dr)] rounded to five decimals, for a positive [dr]. *)
Definition default_rbarlist (dr : R) : list R :=
  map (fun k => round5 (INR k * dr)) (seq 0 (Z.to_nat (- Int_part (- (1 / dr))))).

(** The points that are kept, with their bin: relative [z], the top tenth
    of the nozzle cut off, the plane [y=0] and the front half. *)
Definition restricted (le : legend) (dr : R) (df : list npoint) : list (npoint * R) :=
  let df := map (fun p => mkNpoint (np_x p) (np_y p) (nozzle_bottom_coord le - np_z p)
                             (np_magu p) (np_shearstressmag p)) df in
  let df := filter (fun p => if Rlt_dec (- nozzle_length le * 0.9) (np_z p)
                             then true else false) df in
  let df := filter (fun p =>
              (if Rlt_dec (- 1 * (1 / 10)) (np_y p) then true else false)
              && (if Rlt_dec (np_y p) (1 / 10) then true else false)
              && (if Rlt_dec (np_x p) (nozzle_center_x_coord le) then true else false)) df in
  map (fun p => (p, rbar_bin dr (rbar_exact le p))) df.

(** [df1.mean()]: the row of the means of the columns. *)
Definition mean_row (df1 : list (npoint * R)) : row :=
  mkRow (Rmean (map (fun pr => np_z (fst pr)) df1))
        (Rmean (map (fun pr => np_x (fst pr)) df1))
        (Rmean (map (fun pr => np_magu (fst pr)) df1))
        (Rmean (map (fun pr => np_shearstressmag (fst pr)) df1)).

(** The body of [for rbar in rbarlist] in the plane [df0]. *)
Definition step_bin (df0 : list (npoint * R)) (rz : list (R * survival)) (rb : R)
  : list (R * survival) :=
  let df1 := filter (fun pr =>
               (if Req_dec_T (snd pr) rb then true else false)
               && (if Rlt_dec 0 (np_magu (fst pr)) then true else false)) df0 in
  match df1 with
  | [] => rz
  | _ :: _ => update rb (fun s => addStep s (mean_row df1)) rz
  end.

(** The body of [for z in zlist]. *)
Definition step_plane (df : list (npoint * R)) (rbarlist : list R)
    (rz : list (R * survival)) (z : R) : list (R * survival) :=
  let df0 := filter (fun pr => if Req_dec_T (np_z (fst pr)) z then true else false) df in
  fold_left (step_bin df0) rbarlist rz.

(** The tracks that are long enough: those of [remlist] are popped. *)
Definition covered (nplanes : nat) (s : survival) : bool :=
  if Rlt_dec (INR (List.length (zlist s))) (0.9 * INR nplanes) then false else true.

(** [survivalCalc(folder, time, a, b, c, zunits, dr)] on the table [df]
    that [importPtsNoz] returns and the legend of the folder.  [rbarlist]
    is the keyword argument of that name ([None]: not given), and
    [normval] the legend's value for [zunits] ([None]: [zunits] is mm or
    is not in the legend).  The empty answer of the first test is a list
    in the code and a dictionary otherwise; both are the empty
    collection here. *)
Definition survivalCalc (df : list npoint) (le : legend) (a b c dr : R)
    (rbarlist : option (list R)) (normval : option R) : list (R * survival) :=
  match df with
  | [] => []
  | _ :: _ =>
      let df := restricted le dr df in
      let rbarlist :=
        match rbarlist with
        | Some l => l
        | None => default_rbarlist dr
        end in
      let rz := map (fun rb => (rb, init rb a b c)) (dict_keys rbarlist) in
      let zl := sort_unique (map (fun pr => np_z (fst pr)) df) in
      let rz := fold_left (step_plane df rbarlist) zl rz in
      let rz := filter (fun kv => covered (List.length zl) (snd kv)) rz in
      match normval with
      | Some n => map (fun kv => (fst kv, addUnits (snd kv) n)) rz
      | None => rz
      end
  end.

(** ** [survivalRateRZ] and [survivalRate] *)

(** The sums of the loop of [survivalRateRZ]. *)
Definition ring_area (dr rb : R) : R := rb ^ 2 - (rb - dr) ^ 2.

Definition weightedsum (dr : R) (rz : list (R * survival)) : R :=
  fold_left (fun acc kv => acc + totalI (snd kv) * ring_area dr (fst kv)) rz 0.

Definition weight (dr : R) (rz : list (R * survival)) : R :=
  fold_left (fun acc kv => acc + ring_area dr (fst kv)) rz 0.

(** [survivalRateRZ(rz, dr)].  Without any bin the two sums are still the
    integers 0 they start as, and Python's division of 0 by 0 raises.
    With bins the sums are floats, and a zero sum of areas gives numpy's
    [inf] or [nan], where the quotient of the model has no significance. *)
Definition survivalRateRZ (rz : list (R * survival)) (dr : R) : result R :=
  match rz with
  | [] => Raise ZeroDivisionError
  | _ :: _ => Ok (weightedsum dr rz / weight dr rz)
  end.

(** [survivalRate(folder, time, a, b, c, dr)] *)
Definition survivalRate (df : list npoint) (le : legend) (a b c dr : R)
    (rbarlist : option (list R)) (normval : option R) : result R :=
  survivalRateRZ (survivalCalc df le a b c dr rbarlist normval) dr.

(** ** [metricVals] *)

(** A row of the slice summaries that [importSS] returns: the position
    behind the nozzle, the time, and the columns by their names. *)
Record ssline : Type := mkSsline {
  l_xbehind : Q;
  l_time : Q;
  l_cols : list (string * Q)
}.

(** [row.iloc[0][label]] *)
Fixpoint column (label : string) (cols : list (string * Q)) : option Q :=
  match cols with
  | [] => None
  | (k, v) :: cols' => if String.eqb k label then Some v else column label cols'
  end.

(** [{label:row.iloc[0][label] for label in labels}] inside [try]: a label
    that is no column raises, and [except] raises [NameError] for it.  The
    pairs come in the order of the labels. *)
Fixpoint rates_of (cols : list (string * Q)) (labels : list string)
  : result (list (string * Q)) :=
  match labels with
  | [] => Ok []
  | label :: labels' =>
      match column label cols with
      | None => Raise NameError
      | Some v => rs <- rates_of cols labels' ;; Ok ((label, v) :: rs)
      end
  end.

(** [metricVals(folder, time, xbehind, labels)] without units, on the
    table [ss] that [importSS(folder)] returns; [folder_exists] is
    [os.path.exists(folder)]. *)
Definition metricVals (folder_exists : bool) (ss : list ssline) (time xbehind : Q)
    (labels : list string) : result (list (string * Q)) :=
  if negb folder_exists then Raise ValueError
  else if (List.length ss <? 2)%nat then Raise ValueError
  else
    xreal <- InterfaceMetrics.closest
               (InterfaceMetrics.unique (map l_xbehind ss)) xbehind ;;
    if negb (Qle_bool (InterfaceMetrics.Qabs2 (xreal - xbehind)%Q) (2 # 10)%Q)
    then Raise ValueError
    else
      match filter (fun r => Qeq_bool (l_xbehind r) xreal && Qeq_bool (l_time r) time) ss with
      | [r] => rates_of (l_cols r) labels
      | _ => Raise ValueError
      end.

End PlotMetrics.

(* ================================================================== *)
(** * pythonscripts/plot_metrics.py: the class [survival] on floats *)
(* ================================================================== *)

(** The survival fraction of a track is a product of floats that come out
    of [np.exp], of a division and of powers, and these can be 0.0, [inf]
    or [nan].  This module follows [survival.__init__] and
    [survival.addStep] once more, on floats that can be infinite or
    [nan], with the operations on floats as a parameter. *)
Module PlotMetricsFloat.
Open Scope R_scope.

(** A float: a number, [inf], [-inf] or [nan]. *)
Inductive float : Type :=
| Num (x : R)
| PInf
| NInf
| NaN.

(** [x < y] on floats; a comparison with [nan] is false. *)
Definition flt (x y : float) : bool :=
  match x, y with
  | Num a, Num b => if Rlt_dec a b then true else false
  | Num _, PInf => true
  | NInf, Num _ => true
  | NInf, PInf => true
  | _, _ => false
  end.

(** [min(1, x)]: Python answers its second argument only when it is below
    the first one, so that [nan] and [inf] give 1. *)
Definition min_1 (x : float) : float := if flt x (Num 1) then x else Num 1.

(** The operations on floats that [addStep] uses: [-x], [x + y], [x - y],
    [x * y], [x / y], [x ** y], [np.sqrt(x)] and [np.exp(x)]. *)
Record arithmetic : Type := mkArithmetic {
  f_neg : float -> float;
  f_add : float -> float -> float;
  f_sub : float -> float -> float;
  f_mul : float -> float -> float;
  f_div : float -> float -> float;
  f_pow : float -> float -> float;
  f_sqrt : float -> float;
  f_exp : float -> float
}.

(** [l[-1]] on a list that is not empty. *)
Definition last_of (l : list float) : float := last l (Num 0).

Record survival : Type := mkSurvival {
  rbar : float;
  zlist : list float;
  xlist : list float;
  totalI : float;
  Ilist : list float;
  tlist : list float;
  dtlist : list float;
  taulist : list float;
  vlist : list float;
  coef_a : float;
  coef_b : float;
  coef_c : float
}.

(** [survival.__init__(rbar, a, b, c)] *)
Definition init (rbar a b c : float) : survival :=
  mkSurvival rbar [] [] (Num 1) [Num 1] [Num 0] [Num 0] [Num 0] [Num 0] a b c.

(** The columns of a row that [addStep] reads. *)
Record row : Type := mkRow {
  row_z : float;
  row_x : float;
  row_magu : float;
  row_shearstressmag : float
}.

Section AddStep.

Variable ar : arithmetic.

(** [survival.addStep(row)] *)
Definition addStep (self : survival) (r : row) : survival :=
  match zlist self with
  | [] =>
      mkSurvival (rbar self) (zlist self ++ [row_z r]) (xlist self ++ [row_x r])
        (totalI self) (Ilist self) (tlist self) (dtlist self) (taulist self) (vlist self)
        (coef_a self) (coef_b self) (coef_c self)
  | _ :: _ =>
      let v := row_magu r in
      let traveled :=
        f_sqrt ar
          (f_add ar (f_pow ar (f_sub ar (last_of (zlist self)) (row_z r)) (Num 2))
                    (f_pow ar (f_sub ar (last_of (xlist self)) (row_x r)) (Num 2))) in
      let dt := f_div ar traveled v in
      let tau := row_shearstressmag r in
      if flt v (f_mul ar (Num 0.1) (last_of (vlist self))) then self
      else
        let Ii :=
          f_exp ar
            (f_mul ar (f_mul ar (f_neg ar (coef_a self)) (f_pow ar tau (coef_b self)))
                      (f_pow ar dt (coef_c self))) in
        let Ii := min_1 Ii in
        let total := f_mul ar (totalI self) Ii in
        mkSurvival (rbar self) (zlist self ++ [row_z r]) (xlist self ++ [row_x r])
          total (Ilist self ++ [total])
          (tlist self ++ [f_add ar (last_of (tlist self)) dt])
          (dtlist self ++ [dt]) (taulist self ++ [tau]) (vlist self ++ [v])
          (coef_a self) (coef_b self) (coef_c self)
  end.

(** The tracks that the code can build: a fresh one, and what [addStep]
    makes of a track. *)
Inductive built : survival -> Prop :=
| built_init : forall rbar a b c, built (init rbar a b c)
| built_step : forall self r, built self -> built (addStep self r).

End AddStep.

End PlotMetricsFloat.

(* ================================================================== *)
(** * Notions that the statements use *)
(* ================================================================== *)

Module Spec.
Import Py.

(** ** The reconciler *)

(** A snapshot file of the VTK folder, as [vtkFiles] counts them. *)
Definition is_snapshot (f : FolderParser.file) : bool :=
  endswith (FolderParser.fname f) ".vtm" || endswith (FolderParser.fname f) ".vtk".

(** There is neither a series file nor a snapshot file. *)
Definition no_manifest (sf : FolderParser.simfolder) : bool :=
  match FolderParser.vtk sf with
  | None => true
  | Some d =>
      forallb (fun f => negb (contains ".series" (FolderParser.fname f))
                        && negb (is_snapshot f)) d
  end.

(** No name of the case folder reads as a number. *)
Definition no_numeric_names (F : Type) (float_of : string -> option F)
    (sf : FolderParser.simfolder) : bool :=
  forallb (fun i => match float_of i with None => true | Some _ => false end)
          (FolderParser.listing sf).

(** A snapshot file that [redoVTKSeriesNoLog] records: a [.vtm] file that
    gives a label and a time, or a [.vtk] file. *)
Definition valid_snapshot (now : Z) (f : FolderParser.file) : bool :=
  if endswith (FolderParser.fname f) ".vtm" then
    match FolderParser.readVTM now f with
    | Ok (flabel, time, _) => (0 <? len flabel)%nat && (0 <? len time)%nat
    | Raise _ => false
    end
  else endswith (FolderParser.fname f) ".vtk".

Definition valid_snapshots (sf : FolderParser.simfolder) : nat :=
  match FolderParser.vtk sf with
  | None => 0
  | Some d => List.length (filter (valid_snapshot (FolderParser.clock sf)) d)
  end.

(** A string without newline, a line with its newline at the end, and the
    lines that a text file can consist of: every line but the last ends in
    its newline, and the last one is not empty. *)
Fixpoint no_newline (s : string) : bool :=
  match s with
  | EmptyString => true
  | String c s' => negb (Ascii.eqb c newline) && no_newline s'
  end.

Definition full_line (l : string) : Prop :=
  exists body, l = (body ++ nl)%string /\ no_newline body = true.

Fixpoint lines_ok (ls : list string) : Prop :=
  match ls with
  | [] => True
  | l :: ls' =>
      match ls' with
      | [] => full_line l \/ (l <> EmptyString /\ no_newline l = true)
      | _ :: _ => full_line l /\ lines_ok ls'
      end
  end.

(** The order that [np.argsort] sees on the rows of the table of times and
    labels: the time strings, character by character. *)
Definition time_leb (a b : string * string) : Prop := String.leb (fst a) (fst b) = true.

(** The number that a time written in plain decimals stands for. *)
Definition time_value (s : string) : Q :=
  match FolderParser.decimal_float s with
  | Some q => q
  | None => 0
  end.

(** ** The steady-state detector *)

(** A number with at most three decimals. *)
Definition three_decimals (q : Q) : Prop := exists n : Z, (q == n # 1000)%Q.

(** [r] is [q] rounded to three decimals: a number with at most three
    decimals that is no farther than half a thousandth from [q]. *)
Definition rounded_to_3 (q r : Q) : Prop :=
  three_decimals r /\ (q - (1 # 2000) <= r)%Q /\ (r <= q + (1 # 2000))%Q.

(** The group of the scenario of the specification: the metric values
    0.10, 0.10, 0.11 and 0.50 at the scan positions 0, 1, 2 and 3, in the
    group [g] of the mode [m]. *)
Definition scenario_group (m : InterfaceMetrics.mode) (g : Q) : list InterfaceMetrics.ssrow :=
  map (fun pv : Q * Q =>
         match m with
         | InterfaceMetrics.Time => InterfaceMetrics.mkRow (fst pv) g (snd pv)
         | InterfaceMetrics.Xbehind => InterfaceMetrics.mkRow g (fst pv) (snd pv)
         end)
      [(0, 10 # 100); (1, 10 # 100); (2, 11 # 100); (3, 50 # 100)]%Q.

(** ** The survival model *)

(** A track that was fed samples one after the other, as the loops of
    [survivalCalc] feed the track of a bin. *)
Definition fed (rb a b c : R) (rows : list PlotMetrics.row) : PlotMetrics.survival :=
  fold_left PlotMetrics.addStep rows (PlotMetrics.init rb a b c).

(** The planes of a cloud, and the bins asked for, as [survivalCalc] takes
    them. *)
Definition planes (le : PlotMetrics.legend) (dr : R) (df : list PlotMetrics.npoint) : list R :=
  PlotMetrics.sort_unique
    (map (fun pr => PlotMetrics.np_z (fst pr)) (PlotMetrics.restricted le dr df)).

Definition bins_asked (dr : R) (rbarlist : option (list R)) : list R :=
  match rbarlist with
  | Some l => l
  | None => PlotMetrics.default_rbarlist dr
  end.

(** ** Series files *)

(** A string without blank, double quote and newline. *)
Fixpoint plain (s : string) : bool :=
  match s with
  | EmptyString => true
  | String c s' =>
      negb (Ascii.eqb c " ") && negb (Ascii.eqb c (Ascii.ascii_of_nat 34))
      && negb (Ascii.eqb c newline) && plain s'
  end.

(** [float()] on the strings of a list, from the first to the last. *)
Fixpoint py_floats (F : Type) (float_of : string -> option F) (l : list string)
  : result (list F) :=
  match l with
  | [] => Ok []
  | t :: l' =>
      x <- FolderParser.py_float float_of t ;;
      xs <- py_floats float_of l' ;;
      Ok (x :: xs)
  end.

(** A row of a table of times and labels whose two strings are plain. *)
Definition plain_row (r : string * string) : Prop :=
  plain (fst r) = true /\ plain (snd r) = true.

(** ** Legends *)

(** The table ends in a row whose first cell is empty. *)
Definition blank_last (t : list (list string)) : bool :=
  match last t [] with
  | EmptyString :: _ => true
  | _ => false
  end.

(** A row of a legend before and after [legendTableToDict]: the cells
    behind the first one stay, with an empty cell added to a row of two;
    the first cell stays when it is empty or the name of a section, and has
    its blanks replaced when it occurs once in the first column [headers]. *)
Definition renamed (headers : list string) (r r' : list string) : Prop :=
  exists h cells n,
    r = h :: cells
    /\ r' = n :: (if (List.length cells =? 1)%nat then cells ++ [EmptyString] else cells)
    /\ (h = EmptyString \/ In h FolderParser.section_words -> n = h)
    /\ (h <> EmptyString -> ~ In h FolderParser.section_words ->
        (FolderParser.count h headers <= 1)%nat -> n = FolderParser.underscores h).

(** ** Folder tools *)

(** The number that [caseFolders] sorts a folder by, where its name has
    one. *)
Definition folder_number (int_of : string -> option Z) (e : FolderParser.dirent) : Z :=
  match int_of (FolderParser.from_2 (FolderParser.d_name e)) with
  | Some k => k
  | None => 0%Z
  end.

(** A line of a dictionary after [modifyControlDict]: the line of the end
    time for a line that starts with the word, the line itself otherwise. *)
Definition with_endTime (tend line : string) : string :=
  if prefix "endTime" line then FolderParser.endTime_line tend else line.

(** ** Slices and groups *)

(** The position of a point relative to the center of the nozzle, in the
    units asked for, as [importPtsSlice] computes it. *)
Definition rel_x (xc : Q) (unit : option Q) (p : InterfaceMetrics.point) : Q :=
  match unit with
  | Some d => ((InterfaceMetrics.pt_x p - xc) / d)%Q
  | None => (InterfaceMetrics.pt_x p - xc)%Q
  end.

(** The rows of the group [g] of the mode [m], and the values of the
    scanned variable in that group, as [steadyList] takes them. *)
Definition group (m : InterfaceMetrics.mode) (ss : list InterfaceMetrics.ssrow) (g : Q)
  : list InterfaceMetrics.ssrow :=
  filter (fun r => Qeq_bool (InterfaceMetrics.by_mode m r) g) ss.

Definition scanned (m : InterfaceMetrics.mode) (ss : list InterfaceMetrics.ssrow) (g : Q)
  : list Q :=
  InterfaceMetrics.sort_unique
    (map (InterfaceMetrics.by_mode (InterfaceMetrics.other m)) (group m ss g)).

(** ** The survival fraction on floats *)

(** What the survival fraction needs of the operations on floats.  [exp]
    answers a number that is not negative, [inf] or [nan]: never a
    negative number and never [-inf].  The product of two numbers of
    [0, 1] is a number between 0 and the first factor: a product of
    doubles is the exact product rounded to a double, and 0 and the first
    factor are doubles. *)
Definition numpy_like (ar : PlotMetricsFloat.arithmetic) : Prop :=
  (forall z,
      match PlotMetricsFloat.f_exp ar z with
      | PlotMetricsFloat.Num y => (0 <= y)%R
      | PlotMetricsFloat.NInf => False
      | _ => True
      end)
  /\ (forall x y : R,
         (0 <= x <= 1)%R -> (0 <= y <= 1)%R ->
         exists p : R,
           PlotMetricsFloat.f_mul ar (PlotMetricsFloat.Num x) (PlotMetricsFloat.Num y)
           = PlotMetricsFloat.Num p
           /\ (0 <= p <= x)%R).

(** A float that is a number of [0, 1]. *)
Definition fraction (x : PlotMetricsFloat.float) : Prop :=
  exists t : R, x = PlotMetricsFloat.Num t /\ (0 <= t <= 1)%R.

(** Two floats that are numbers, the later one not above the earlier one. *)
Definition not_above (earlier later : PlotMetricsFloat.float) : Prop :=
  exists a b : R,
    earlier = PlotMetricsFloat.Num a /\ later = PlotMetricsFloat.Num b /\ (b <= a)%R.

End Spec.

(* ================================================================== *)
(** * Concrete folders, tables and tracks used below *)
(* ================================================================== *)

Module Scenarios.
Import Py.

(** ** Snapshot files *)

(** A [.vtm] file as OpenFOAM writes it, reduced to the lines that are
    read: the data set of the folder [case_<label>] and the time value. *)
Definition vtm_text (label time : string) : string :=
  ("<?xml version='1.0'?>" ++ nl
   ++ "<DataSet name='internal' file='case_" ++ label ++ "/internal.vtu' />" ++ nl
   ++ "<DataArray type='Float32' Name='TimeValue' NumberOfTuples='1' format='ascii'>" ++ nl
   ++ time ++ nl
   ++ "</DataArray>" ++ nl)%string.

(** The initial snapshot, saved with a time that is not 0. *)
Definition snapshot0 : FolderParser.file :=
  FolderParser.mkFile "case_0.vtm" 1 (vtm_text "0" "1e-05").

(** The same snapshot after the correction, written at time 5. *)
Definition snapshot0_corrected : FolderParser.file :=
  FolderParser.mkFile "case_0.vtm" 5 (vtm_text "0" "0").

(** ** Simulation folders *)

(** A run in progress without VTK folder: the time folders 0, 2 and 10 in
    the alphabetical order of a directory listing. *)
Definition run_folder : FolderParser.simfolder :=
  FolderParser.mkSim "nb30" ["0"; "10"; "2"; "constant"; "system"]%string None 0.

(** A case that has not been run. *)
Definition fresh_folder : FolderParser.simfolder :=
  FolderParser.mkSim "nb30" ["constant"; "system"]%string None 0.

(** Three snapshots and no series file yet; only two time folders. *)
Definition vtm_folder : FolderParser.simfolder :=
  FolderParser.mkSim "case" ["0"; "0.1"; "VTK"; "constant"; "system"]%string
    (Some [FolderParser.mkFile "case_2.vtm" 3 (vtm_text "2" "0.2");
           snapshot0;
           FolderParser.mkFile "case_1.vtm" 2 (vtm_text "1" "0.1")])
    5.

(** The same three snapshots, no series file, and no time folder. *)
Definition snapshots_only_folder : FolderParser.simfolder :=
  FolderParser.mkSim "case" ["VTK"; "constant"; "system"]%string
    (Some [FolderParser.mkFile "case_2.vtm" 3 (vtm_text "2" "0.2");
           snapshot0;
           FolderParser.mkFile "case_1.vtm" 2 (vtm_text "1" "0.1")])
    5.

(** Two snapshots that carry the same time. *)
Definition twin_folder : FolderParser.simfolder :=
  FolderParser.mkSim "case" ["VTK"; "constant"; "system"]%string
    (Some [FolderParser.mkFile "case_1.vtm" 1 (vtm_text "1" "0.1");
           FolderParser.mkFile "case_2.vtm" 2 (vtm_text "2" "0.1")])
    5.

(** A later snapshot: label 1 at time 0.1. *)
Definition snapshot1 : FolderParser.file :=
  FolderParser.mkFile "case_1.vtm" 2 (vtm_text "1" "0.1").

(** A legend with the kinematic viscosity of the ink and of the support,
    and a legend that gives the density three times outside any section. *)
Definition legend_rows : list (list string) :=
  [["ink"; EmptyString; EmptyString]; ["nu"; "1"; "m2/s"];
   ["sup"; EmptyString; EmptyString]; ["nu"; "2"; "m2/s"];
   ["bath width"; "16"]]%string.

(** A folder of simulations: two runs, the mesh folder, and a file. *)
Definition sweep : list FolderParser.dirent :=
  [FolderParser.mkDirent "nb30" false true false false false;
   FolderParser.mkDirent "mesh" false true false false false;
   FolderParser.mkDirent "nb4" true false false false false;
   FolderParser.mkDirent "notes.txt" false false false false false]%string.

(** A dictionary of controls that ends the run at time 1. *)
Definition controlDict : string :=
  ("application" ++ FolderParser.tab ++ "interFoam;" ++ nl
   ++ "endTime" ++ FolderParser.tab ++ "1;" ++ nl
   ++ "deltaT" ++ FolderParser.tab ++ "0.001;" ++ nl)%string.

(** ** Slices *)

(** Twice the area of the triangle that an edge spans with the origin, and
    the two sums of the centroid formula for that edge. *)
Definition edge_terms (p q : Q * Q) : Q * Q * Q :=
  let cross := (fst p * snd q - fst q * snd p)%Q in
  (cross, ((fst p + fst q) * cross)%Q, ((snd p + snd q) * cross)%Q).

Fixpoint edge_sums (first prev : Q * Q) (l : list (Q * Q)) : Q * Q * Q :=
  match l with
  | [] => edge_terms prev first
  | p :: l' =>
      let '(a, cx, cy) := edge_terms prev p in
      let '(a', cx', cy') := edge_sums first p l' in
      ((a + a')%Q, (cx + cx')%Q, (cy + cy')%Q)
  end.

(** Centroid and area of the polygon through the points in the order they
    come, by the polygon centroid formula; no answer for a polygon without
    area.  For points that go around a convex polygon this is what the
    geometry library answers for their hull. *)
Definition polygon_centroid_area (pts : list (Q * Q)) : option (Q * Q * Q) :=
  match pts with
  | [] => None
  | p :: l =>
      let '(a2, cx, cy) := edge_sums p p l in
      if Qeq_bool a2 0 then None
      else Some ((cx / (3 * a2))%Q, (cy / (3 * a2))%Q,
                 (if Qle_bool 0 a2 then a2 / 2 else - a2 / 2)%Q)
  end.

(** Ten interface points around an octagon, at x = 5 and time 1. *)
Definition octagon_slice : list InterfaceMetrics.point :=
  map (fun yz : Q * Q => InterfaceMetrics.mkPoint 5 (fst yz) (snd yz) 10 1)
      [(1, -3); (2, -2); (3, -1); (3, 1); (1, 3);
       (-1, 3); (-2, 2); (-3, 1); (-3, -1); (-1, -3)]%Q.

(** A nozzle of inner width 1 at the origin, bath speed 10. *)
Definition unit_nozzle : InterfaceMetrics.folderStats :=
  InterfaceMetrics.mkFolderStats 0 1 (1 # 10) 0 10.

(** ** Slice summaries *)

(** The scenario of the specification in the mode that groups by time:
    the group at time 1, and a second group at time 2. *)
Definition two_groups : list InterfaceMetrics.ssrow :=
  Spec.scenario_group InterfaceMetrics.Time 1
  ++ [InterfaceMetrics.mkRow 0 2 (30 # 100); InterfaceMetrics.mkRow 1 2 (30 # 100)].

(** One position, two times that are sixteenths of a second. *)
Definition sixteenths : list InterfaceMetrics.ssrow :=
  [InterfaceMetrics.mkRow 1 (1 # 16) 0; InterfaceMetrics.mkRow 1 (17 # 16) 0].

(** The position 1.2346, with slices at the same two times. *)
Definition fine_position : list InterfaceMetrics.ssrow :=
  [InterfaceMetrics.mkRow (12346 # 10000) (1 # 16) 0;
   InterfaceMetrics.mkRow (12346 # 10000) (17 # 16) 0].

(** A group that is steady throughout: the metric 0.30 at the positions
    0, 1 and 2 at time 2. *)
Definition steady_rows : list InterfaceMetrics.ssrow :=
  [InterfaceMetrics.mkRow 0 2 (30 # 100); InterfaceMetrics.mkRow 1 2 (30 # 100);
   InterfaceMetrics.mkRow 2 2 (30 # 100)].

(** A group that never settles: the metric 0, 1, 0 at the positions 0, 1
    and 2 at time 3. *)
Definition zigzag_rows : list InterfaceMetrics.ssrow :=
  [InterfaceMetrics.mkRow 0 3 0; InterfaceMetrics.mkRow 1 3 1; InterfaceMetrics.mkRow 2 3 0].

(** Two slice summaries of one simulation, at the positions 5 and 10
    at time 2.5. *)
Definition summaries : list PlotMetrics.ssline :=
  [PlotMetrics.mkSsline 5 (25 # 10) [("area", 3 # 2); ("speed", 10)]%string;
   PlotMetrics.mkSsline 10 (25 # 10) [("area", 5 # 4); ("speed", 9)]%string].

(** ** Survival tracks *)

(** A track at the axis with two samples, the second one accepted with
    the velocity 10; then a sample with the velocity 0.5. *)
Definition sample_1 : PlotMetrics.row := PlotMetrics.mkRow (-5) 0 10 1.
Definition sample_2 : PlotMetrics.row := PlotMetrics.mkRow (-4) 0 10 1.

Definition track_2 : PlotMetrics.survival :=
  PlotMetrics.addStep
    (PlotMetrics.addStep (PlotMetrics.init 0 (1 / 100) (1 / 2) (1 / 2)) sample_1)
    sample_2.

(** A straight nozzle of inner width 1 and length 10 with its bottom at
    the origin, and a cloud of one point at rest in the front half. *)
Definition straight_nozzle : PlotMetrics.legend :=
  PlotMetrics.mkLegend 0 0 1 0 0 10.

Definition point_at_rest : PlotMetrics.npoint :=
  PlotMetrics.mkNpoint (-1) 0 0 0 0.

(** A point at the bottom of that nozzle, 0.02 in front of the axis: its
    normalized radius is 0.04. *)
Definition point_near_axis : PlotMetrics.npoint :=
  PlotMetrics.mkNpoint (- (2 / 100)) 0 0 1 1.

(** ** Survival tracks on floats *)

(** The operations on numbers, exact, with the values that the doubles
    give at 0 and at the infinities: [x / 0] is [inf], [-inf] or [nan]
    with the sign of [x], a number times an infinity is an infinity or
    [nan], [exp(-inf)] is 0.  Powers cover the squares and the positive
    bases that the tracks below need. *)
Definition times_inf (positive : bool) (a : R) : PlotMetricsFloat.float :=
  if Req_dec_T a 0 then PlotMetricsFloat.NaN
  else if Rlt_dec 0 a
       then (if positive then PlotMetricsFloat.PInf else PlotMetricsFloat.NInf)
       else (if positive then PlotMetricsFloat.NInf else PlotMetricsFloat.PInf).

Definition ext_neg (x : PlotMetricsFloat.float) : PlotMetricsFloat.float :=
  match x with
  | PlotMetricsFloat.Num a => PlotMetricsFloat.Num (- a)
  | PlotMetricsFloat.PInf => PlotMetricsFloat.NInf
  | PlotMetricsFloat.NInf => PlotMetricsFloat.PInf
  | PlotMetricsFloat.NaN => PlotMetricsFloat.NaN
  end.

Definition ext_add (x y : PlotMetricsFloat.float) : PlotMetricsFloat.float :=
  match x, y with
  | PlotMetricsFloat.Num a, PlotMetricsFloat.Num b => PlotMetricsFloat.Num (a + b)
  | PlotMetricsFloat.NaN, _ => PlotMetricsFloat.NaN
  | _, PlotMetricsFloat.NaN => PlotMetricsFloat.NaN
  | PlotMetricsFloat.PInf, PlotMetricsFloat.NInf => PlotMetricsFloat.NaN
  | PlotMetricsFloat.NInf, PlotMetricsFloat.PInf => PlotMetricsFloat.NaN
  | PlotMetricsFloat.PInf, _ => PlotMetricsFloat.PInf
  | _, PlotMetricsFloat.PInf => PlotMetricsFloat.PInf
  | _, _ => PlotMetricsFloat.NInf
  end.

Definition ext_sub (x y : PlotMetricsFloat.float) : PlotMetricsFloat.float :=
  ext_add x (ext_neg y).

Definition ext_mul (x y : PlotMetricsFloat.float) : PlotMetricsFloat.float :=
  match x, y with
  | PlotMetricsFloat.Num a, PlotMetricsFloat.Num b => PlotMetricsFloat.Num (a * b)
  | PlotMetricsFloat.NaN, _ => PlotMetricsFloat.NaN
  | _, PlotMetricsFloat.NaN => PlotMetricsFloat.NaN
  | PlotMetricsFloat.PInf, PlotMetricsFloat.Num a => times_inf true a
  | PlotMetricsFloat.Num a, PlotMetricsFloat.PInf => times_inf true a
  | PlotMetricsFloat.NInf, PlotMetricsFloat.Num a => times_inf false a
  | PlotMetricsFloat.Num a, PlotMetricsFloat.NInf => times_inf false a
  | PlotMetricsFloat.PInf, PlotMetricsFloat.PInf => PlotMetricsFloat.PInf
  | PlotMetricsFloat.NInf, PlotMetricsFloat.NInf => PlotMetricsFloat.PInf
  | _, _ => PlotMetricsFloat.NInf
  end.

Definition ext_div (x y : PlotMetricsFloat.float) : PlotMetricsFloat.float :=
  match x, y with
  | PlotMetricsFloat.Num a, PlotMetricsFloat.Num b =>
      if Req_dec_T b 0 then times_inf true a else PlotMetricsFloat.Num (a / b)
  | PlotMetricsFloat.NaN, _ => PlotMetricsFloat.NaN
  | _, PlotMetricsFloat.NaN => PlotMetricsFloat.NaN
  | PlotMetricsFloat.Num _, _ => PlotMetricsFloat.Num 0
  | PlotMetricsFloat.PInf, PlotMetricsFloat.Num b =>
      if Rle_dec 0 b then PlotMetricsFloat.PInf else PlotMetricsFloat.NInf
  | PlotMetricsFloat.NInf, PlotMetricsFloat.Num b =>
      if Rle_dec 0 b then PlotMetricsFloat.NInf else PlotMetricsFloat.PInf
  | _, _ => PlotMetricsFloat.NaN
  end.

Definition ext_pow (x y : PlotMetricsFloat.float) : PlotMetricsFloat.float :=
  match y with
  | PlotMetricsFloat.Num b =>
      if Req_dec_T b 0 then PlotMetricsFloat.Num 1
      else
        match x with
        | PlotMetricsFloat.Num a =>
            if Req_dec_T b 2 then PlotMetricsFloat.Num (a * a)
            else if Rlt_dec 0 a then PlotMetricsFloat.Num (Rpower a b)
            else if Req_dec_T a 0
                 then (if Rlt_dec 0 b then PlotMetricsFloat.Num 0 else PlotMetricsFloat.PInf)
                 else PlotMetricsFloat.NaN
        | PlotMetricsFloat.PInf =>
            if Rlt_dec 0 b then PlotMetricsFloat.PInf else PlotMetricsFloat.Num 0
        | PlotMetricsFloat.NInf =>
            if Req_dec_T b 2 then PlotMetricsFloat.PInf else PlotMetricsFloat.NaN
        | PlotMetricsFloat.NaN => PlotMetricsFloat.NaN
        end
  | _ => PlotMetricsFloat.NaN
  end.

Definition ext_sqrt (x : PlotMetricsFloat.float) : PlotMetricsFloat.float :=
  match x with
  | PlotMetricsFloat.Num a =>
      if Rle_dec 0 a then PlotMetricsFloat.Num (sqrt a) else PlotMetricsFloat.NaN
  | PlotMetricsFloat.PInf => PlotMetricsFloat.PInf
  | _ => PlotMetricsFloat.NaN
  end.

Definition ext_exp (x : PlotMetricsFloat.float) : PlotMetricsFloat.float :=
  match x with
  | PlotMetricsFloat.Num a => PlotMetricsFloat.Num (exp a)
  | PlotMetricsFloat.PInf => PlotMetricsFloat.PInf
  | PlotMetricsFloat.NInf => PlotMetricsFloat.Num 0
  | PlotMetricsFloat.NaN => PlotMetricsFloat.NaN
  end.

Definition extended : PlotMetricsFloat.arithmetic :=
  PlotMetricsFloat.mkArithmetic ext_neg ext_add ext_sub ext_mul ext_div ext_pow
    ext_sqrt ext_exp.

(** Two samples at rest, 1 mm apart, under the stress 1: the velocity
    magnitude is 0 at both. *)
Definition still_1 : PlotMetricsFloat.row :=
  PlotMetricsFloat.mkRow (PlotMetricsFloat.Num (-5)) (PlotMetricsFloat.Num 0)
    (PlotMetricsFloat.Num 0) (PlotMetricsFloat.Num 1).

Definition still_2 : PlotMetricsFloat.row :=
  PlotMetricsFloat.mkRow (PlotMetricsFloat.Num (-4)) (PlotMetricsFloat.Num 0)
    (PlotMetricsFloat.Num 0) (PlotMetricsFloat.Num 1).

(** The track [survival(0)], with the coefficients 0.0001, 0.5 and 0.5
    that the class has by default, fed the two samples at rest. *)
Definition track_still : PlotMetricsFloat.survival :=
  PlotMetricsFloat.addStep extended
    (PlotMetricsFloat.addStep extended
       (PlotMetricsFloat.init (PlotMetricsFloat.Num 0) (PlotMetricsFloat.Num (1 / 10000))
          (PlotMetricsFloat.Num (1 / 2)) (PlotMetricsFloat.Num (1 / 2)))
       still_1)
    still_2.

End Scenarios.

(* ================================================================== *)
(** * What the loops keep *)
(* ================================================================== *)

Module Inv.

Section Tracks.
Import Py PlotMetrics.
Open Scope R_scope.

(** What holds of the times of a track. *)
Definition clock_ok (self : survival) : Prop :=
  tlist self <> []
  /\ Sorted Rle (tlist self)
  /\ Forall (fun dt => 0 <= dt) (dtlist self)
  /\ last_of (tlist self) = Rsum (dtlist self).

(** What the loops of [survivalCalc] keep of every bin: the track knows its
    bin, and it is a track that [addStep] built. *)
Definition bin_ok (kv : R * survival) : Prop :=
  rbar (snd kv) = fst kv /\ built (snd kv).

End Tracks.

Section Summaries.
Import Py InterfaceMetrics.
Open Scope Q_scope.

(** What holds of every summary of the files [ipfiles]. *)
Definition summary_ok (fs : folderStats) (ipfiles : list (list point)) (rv : summary)
  : Prop :=
  behind fs < s_x rv
  /\ exists data, In data ipfiles
       /\ (exists p, In p data /\ pt_x p = s_x rv)
       /\ (10 <= List.length (slice_at data (s_x rv)))%nat.

End Summaries.

Section Folders.
Import Py FolderParser.
Open Scope string_scope.

(** The order of the keys of [caseFolders], and a key that is the number
    of its folder. *)
Definition key_le (A : Type) (a b : Z * A) : Prop := (fst a <= fst b)%Z.

Definition keyed_ok (int_of : string -> option Z) (ke : Z * dirent) : Prop :=
  int_of (from_2 (d_name (snd ke))) = Some (fst ke).

(** A file of the folder after the loop: the file it was, unless it is a
    snapshot that had to be corrected; its name is kept in any case. *)
Definition kept (f f' : file) : Prop :=
  fname f' = fname f
  /\ (endswith (fname f) ".vtm" = false
      \/ (exists lbl t, readVTM_raw (text f) = Ok (lbl, t) /\ (lbl <> "0" \/ t = "0")) ->
      f' = f).

(** The pair of time and label that a snapshot of the folder gives. *)
Definition row_of (now : Z) (d : list file) (t lbl : string) : Prop :=
  exists f f', In f d /\ endswith (fname f) ".vtm" = true
               /\ readVTM now f = Ok (lbl, t, f')
               /\ lbl <> EmptyString /\ t <> EmptyString.

Definition rows_inv (now : Z) (done : list file) (st : redo_state) : Prop :=
  r_ending st = ".vtm"
  /\ exists rows : list (string * string),
       r_tlist st = map (fun r => PyStr (fst r)) rows
       /\ r_flist st = map (fun r => PyStr (snd r)) rows
       /\ forall t lbl, In (t, lbl) rows <-> row_of now done t lbl.

(** The two patterns at which [parseVTKSeries] splits a line. *)
Definition time_key : string := "time" ++ dq ++ " : ".
Definition row_end : string := " }".

(** No pattern matches at a position of [s] in the text [s ++ rest]. *)
Fixpoint quiet (s rest : string) : Prop :=
  match s with
  | EmptyString => True
  | String c s' =>
      prefix time_key (s ++ rest) = false
      /\ prefix row_end (s ++ rest) = false
      /\ quiet s' rest
  end.

(** The lines of the rows of a series file. *)
Fixpoint row_lines (cfbasename ending : string) (l : list (string * string))
  : list string :=
  match l with
  | [] => []
  | (time, folderlabel) :: l' =>
      match l' with
      | [] => [series_row cfbasename ending time folderlabel ++ " }" ++ nl]
      | _ :: _ =>
          (series_row cfbasename ending time folderlabel ++ " }," ++ nl)
            :: row_lines cfbasename ending l'
      end
  end.

End Folders.

(** The comparisons of characters that a test of a prefix leaves. *)
Ltac decide_chars :=
  repeat match goal with
         | |- context [ascii_dec ?a ?b] =>
             destruct (ascii_dec a b);
             [try congruence; try subst | try reflexivity]
         end;
  try reflexivity.

End Inv.

(* ================================================================== *)
(** * Theorems: the time-series reconciler *)
(* ================================================================== *)

Section ReconcilerFacts.
Import Py FolderParser.
Open Scope string_scope.

(** ** Strings and lines *)

Lemma append_nil_r : forall s : string, s ++ EmptyString = s.
Proof.
  induction s as [|c s IH]; simpl; [reflexivity | now rewrite IH].
Qed.

Lemma append_assoc : forall s1 s2 s3 : string, (s1 ++ s2) ++ s3 = s1 ++ (s2 ++ s3).
Proof.
  induction s1 as [|c s1 IH]; intros; simpl; [reflexivity | now rewrite IH].
Qed.

Lemma len_zero : forall s : string, (len s =? 0)%nat = true -> s = EmptyString.
Proof.
  destruct s; simpl; [reflexivity | discriminate].
Qed.

(** Reading the lines of a text loses nothing. *)
Lemma join_readlines_from : forall s cur, join (readlines_from cur s) = cur ++ s.
Proof.
  induction s as [|c s IH]; intros cur; simpl.
  - destruct (len cur =? 0)%nat eqn:E.
    + apply len_zero in E. now subst.
    + simpl. reflexivity.
  - destruct (Ascii.eqb c newline) eqn:E.
    + apply Ascii.eqb_eq in E. subst c. simpl. rewrite IH. simpl.
      unfold nl. rewrite append_assoc. reflexivity.
    + rewrite IH. rewrite append_assoc. reflexivity.
Qed.

Lemma join_readlines : forall s, join (readlines s) = s.
Proof.
  intros s. unfold readlines. now rewrite join_readlines_from.
Qed.

(** What [seek] adds to [st] is what it takes from the lines left. *)
Lemma seek_join : forall pat rest line line' rest' st,
  seek pat line rest = (line', rest', st) -> join rest = st ++ join rest'.
Proof.
  induction rest as [|l r IH]; intros line line' rest' st H; simpl in H.
  - destruct (contains pat line || (len line =? 0)%nat); inversion H; reflexivity.
  - destruct (contains pat line || (len line =? 0)%nat).
    + inversion H; subst. reflexivity.
    + destruct (seek pat l r) as [[l1 r1] s1] eqn:E.
      inversion H; subst. simpl. rewrite (IH _ _ _ _ E).
      now rewrite append_assoc.
Qed.

Lemma readline_join : forall rest line rest',
  readline rest = (line, rest') -> join rest = line ++ join rest'.
Proof.
  intros [|l r] line rest' H; inversion H; subst; reflexivity.
Qed.

Lemma remove_newlines_nonempty : forall line,
  remove_newlines line <> EmptyString -> (0 <? len line)%nat = true.
Proof.
  intros [|c s] H; simpl in *; [congruence | reflexivity].
Qed.

(** ** The correction of the initial snapshot *)

(** When the file reads as label 0 with another time, [readVTM] rewrites
    the file with [correctVTM] and answers time 0. *)
Lemma readVTM_corrects : forall now f t,
  readVTM_raw (text f) = Ok ("0", t) -> t <> "0" ->
  exists st, correctVTM_text (text f) = Ok st
             /\ readVTM now f = Ok ("0", "0", mkFile (fname f) now st).
Proof.
  intros now f t Hraw Ht.
  assert (Hc : exists st, correctVTM_text (text f) = Ok st).
  { revert Hraw. unfold readVTM_raw, correctVTM_text.
    destruct (readline (readlines (text f))) as [line0 rest0].
    destruct (seek "DataSet name=" line0 rest0) as [[line1 rest1] st1].
    destruct (if (0 <? len line1)%nat then label_of_line line1 else Ok EmptyString)
      as [lbl|e]; simpl; [|discriminate].
    destruct (seek "TimeValue" line1 rest1) as [[line2 rest2] st2].
    destruct (0 <? len line2)%nat.
    - destruct (readline rest2) as [line3 rest3].
      destruct (0 <? len line3)%nat; eexists; reflexivity.
    - eexists; reflexivity. }
  destruct Hc as [st Hst]. exists st. split; [exact Hst|].
  unfold readVTM. rewrite Hraw. simpl.
  destruct (String.eqb_spec t "0") as [E|E]; [contradiction|]. simpl.
  unfold correctVTM. rewrite Hst. reflexivity.
Qed.

(** Whatever the file holds, [readVTM] never answers label 0 with a time
    other than 0. *)
Lemma readVTM_zero_label : forall now f lbl t f',
  readVTM now f = Ok (lbl, t, f') -> lbl = "0" -> t = "0".
Proof.
  intros now f lbl t f' H Hl. unfold readVTM in H.
  destruct (readVTM_raw (text f)) as [[l0 t0]|e]; simpl in H; [|discriminate].
  destruct (String.eqb_spec l0 "0") as [E0|E0]; simpl in H.
  - destruct (String.eqb_spec t0 "0") as [E1|E1]; simpl in H.
    + inversion H; subst. reflexivity.
    + destruct (correctVTM now f); simpl in H; [|discriminate].
      inversion H; reflexivity.
  - inversion H; subst. contradiction.
Qed.

(** On a file that reads as label 0 and time 0 the text that [correctVTM]
    writes is the text it read. *)
Lemma correctVTM_text_fixed : forall content,
  readVTM_raw content = Ok ("0", "0") -> correctVTM_text content = Ok content.
Proof.
  intros content. unfold readVTM_raw, correctVTM_text.
  pose proof (join_readlines content) as Hall.
  destruct (readline (readlines content)) as [line0 rest0] eqn:E0.
  apply readline_join in E0. rewrite E0 in Hall.
  destruct (seek "DataSet name=" line0 rest0) as [[line1 rest1] st1] eqn:E1.
  apply seek_join in E1. rewrite E1 in Hall.
  destruct (if (0 <? len line1)%nat then label_of_line line1 else Ok EmptyString)
    as [lbl|e]; simpl; [|discriminate].
  destruct (seek "TimeValue" line1 rest1) as [[line2 rest2] st2] eqn:E2.
  apply seek_join in E2. rewrite E2 in Hall.
  destruct (0 <? len line2)%nat.
  - destruct (readline rest2) as [line3 rest3] eqn:E3.
    apply readline_join in E3. rewrite E3 in Hall.
    intros H. inversion H as [[Hl Ht]]. rewrite Ht. simpl.
    assert (Hn : (0 <? len line3)%nat = true).
    { apply remove_newlines_nonempty. rewrite Ht. discriminate. }
    rewrite Hn. f_equal. rewrite <- Hall.
    now rewrite !append_assoc.
  - intros H. inversion H.
Qed.

(** ** Texts and their lines *)

Lemma no_newline_app : forall s1 s2,
  Spec.no_newline s1 = true -> Spec.no_newline s2 = true ->
  Spec.no_newline (s1 ++ s2) = true.
Proof.
  induction s1 as [|c s1 IH]; intros s2 H1 H2; simpl in *; [exact H2|].
  apply andb_true_iff in H1. destruct H1 as [Hc H1].
  rewrite Hc. simpl. now apply IH.
Qed.

Lemma readlines_from_ok : forall s cur,
  Spec.no_newline cur = true -> Spec.lines_ok (readlines_from cur s).
Proof.
  induction s as [|c s IH]; intros cur Hcur; simpl.
  - destruct (len cur =? 0)%nat eqn:E; simpl; [exact I|].
    right. split; [|exact Hcur]. intros E'. subst cur. discriminate E.
  - destruct (Ascii.eqb c newline) eqn:E.
    + assert (Hf : Spec.full_line (cur ++ nl)) by (exists cur; auto).
      specialize (IH EmptyString eq_refl). simpl.
      destruct (readlines_from EmptyString s); [now left | now split].
    + apply IH. apply no_newline_app; [exact Hcur|]. simpl. now rewrite E.
Qed.

Lemma readlines_from_full : forall body cur s,
  Spec.no_newline body = true ->
  readlines_from cur ((body ++ nl) ++ s) = (cur ++ body ++ nl) :: readlines_from EmptyString s.
Proof.
  induction body as [|c body IH]; intros cur s H; simpl in *.
  - reflexivity.
  - apply andb_true_iff in H. destruct H as [Hc H].
    apply negb_true_iff in Hc. rewrite Hc. rewrite IH by exact H.
    now rewrite append_assoc.
Qed.

Lemma readlines_from_last : forall l cur,
  Spec.no_newline l = true -> l <> EmptyString ->
  readlines_from cur l = [cur ++ l].
Proof.
  induction l as [|c l IH]; intros cur H Hne; [congruence|]. simpl in *.
  apply andb_true_iff in H. destruct H as [Hc H].
  apply negb_true_iff in Hc. rewrite Hc.
  destruct l as [|c' l'].
  - simpl. destruct (cur ++ String c EmptyString) eqn:E.
    + destruct cur; discriminate E.
    + reflexivity.
  - rewrite IH; [|exact H|discriminate]. now rewrite append_assoc.
Qed.

(** The lines of a text, put together and read again, are the same lines. *)
Lemma readlines_join : forall ls, Spec.lines_ok ls -> readlines (join ls) = ls.
Proof.
  unfold readlines. induction ls as [|l ls IH]; intros H; [reflexivity|].
  simpl in H. destruct ls as [|l2 ls].
  - simpl. rewrite append_nil_r. destruct H as [[body [E Hb]]|[Hne Hn]].
    + subst l. pose proof (@readlines_from_full body EmptyString EmptyString Hb) as E.
      rewrite append_nil_r in E. exact E.
    + now rewrite readlines_from_last by assumption.
  - destruct H as [[body [E Hb]] Hok]. subst l.
    change (join ((body ++ nl) :: l2 :: ls)) with ((body ++ nl) ++ join (l2 :: ls)).
    rewrite readlines_from_full by exact Hb. simpl append. f_equal. now apply IH.
Qed.

Lemma lines_ok_tail : forall l ls, Spec.lines_ok (l :: ls) -> Spec.lines_ok ls.
Proof.
  intros l [|l2 ls] H; [exact I|]. now destruct H.
Qed.

Lemma lines_ok_cons : forall p ls,
  ls <> [] -> (Spec.lines_ok (p :: ls) <-> Spec.full_line p /\ Spec.lines_ok ls).
Proof.
  intros p [|l ls] H; [congruence|]. simpl. tauto.
Qed.

(** The line of the time may be replaced by a line that holds 0. *)
Lemma lines_ok_replace : forall pre tl post,
  Spec.lines_ok (pre ++ tl :: post) -> Spec.lines_ok (pre ++ ("0" ++ nl) :: post).
Proof.
  assert (Hz : Spec.full_line ("0" ++ nl)) by (exists "0"; auto).
  induction pre as [|p pre IH]; intros tl post H.
  - simpl app in *. destruct post as [|q post]; simpl; [now left|].
    split; [exact Hz|]. now destruct H.
  - rewrite <- app_comm_cons in *.
    apply lines_ok_cons in H; [|intros E; destruct pre; discriminate E].
    apply lines_ok_cons; [intros E; destruct pre; discriminate E|].
    destruct H as [Hp Hrest]. split; [exact Hp|]. now apply IH with (tl := tl).
Qed.

(** A search that finds its line takes a piece of the lines, and finds the
    same line whatever follows that piece. *)
Lemma seek_found : forall pat rest line line' rest' st,
  seek pat line rest = (line', rest', st) ->
  (0 <? len line')%nat = true ->
  exists taken,
    rest = (taken ++ rest')%list
    /\ forall more, seek pat line (taken ++ more)%list = (line', more, st).
Proof.
  induction rest as [|l r IH]; intros line line' rest' st H Hfound; simpl in H.
  - destruct (contains pat line || (len line =? 0)%nat) eqn:E.
    + inversion H; subst. exists []. split; [reflexivity|].
      intros more. simpl. destruct more; simpl; now rewrite E.
    + inversion H; subst. discriminate Hfound.
  - destruct (contains pat line || (len line =? 0)%nat) eqn:E.
    + inversion H; subst. exists []. split; [reflexivity|].
      intros more. simpl. destruct more; simpl; now rewrite E.
    + destruct (seek pat l r) as [[l1 r1] s1] eqn:Es.
      inversion H; subst.
      destruct (IH _ _ _ _ Es Hfound) as [taken [Hr Hmore]].
      exists (l :: taken). split; [simpl; now rewrite Hr|].
      intros more. simpl. rewrite E. now rewrite Hmore.
Qed.

(** A snapshot that reads as label 0 with a time other than 0 reads, once
    corrected, as label 0 with time 0. *)
Lemma corrected_reads_zero : forall content t,
  readVTM_raw content = Ok ("0", t) -> t <> "0" -> t <> EmptyString ->
  exists st, correctVTM_text content = Ok st /\ readVTM_raw st = Ok ("0", "0").
Proof.
  intros content t. unfold readVTM_raw at 1. unfold correctVTM_text.
  pose proof (readlines_from_ok content EmptyString eq_refl) as Hok.
  fold (readlines content) in Hok.
  destruct (readlines content) as [|line0 rest0] eqn:EL; simpl readline; cbv iota beta.
  - simpl. intros H. inversion H.
  - destruct (seek "DataSet name=" line0 rest0) as [[line1 rest1] st1] eqn:E1.
    destruct (seek "TimeValue" line1 rest1) as [[line2 rest2] st2] eqn:E2.
    destruct (0 <? len line1)%nat eqn:F1.
    2:{ simpl. destruct (0 <? len line2)%nat; [destruct (readline rest2)|];
        intros H; inversion H. }
    destruct (label_of_line line1) as [lbl|e] eqn:El; simpl; [|discriminate].
    destruct (0 <? len line2)%nat eqn:F2; [|intros H; inversion H; congruence].
    destruct rest2 as [|line3 rest3]; simpl readline; cbv iota beta.
    { simpl. intros H. inversion H. congruence. }
    intros H Ht0 Hte. inversion H as [[Hl Ht]]. subst lbl.
    assert (Hneq : (String.eqb (remove_newlines line3) "0") = false).
    { apply String.eqb_neq. congruence. }
    assert (Hn3 : (0 <? len line3)%nat = true).
    { apply remove_newlines_nonempty. congruence. }
    rewrite Hneq, Hn3. simpl andb. cbv iota.
    destruct (@seek_found _ _ _ _ _ _ E1 F1) as [taken1 [Hr1 Hm1]].
    destruct (@seek_found _ _ _ _ _ _ E2 F2) as [taken2 [Hr2 Hm2]].
    assert (Hlines : Spec.lines_ok ((line0 :: taken1 ++ taken2) ++ ("0" ++ nl) :: rest3)).
    { apply lines_ok_replace with (tl := line3).
      simpl app. rewrite <- app_assoc. rewrite <- Hr2, <- Hr1. exact Hok. }
    assert (Ja : forall a b, join (a ++ b)%list = join a ++ join b).
    { induction a as [|x a IHa]; intros b; simpl; [reflexivity|].
      now rewrite IHa, append_assoc. }
    assert (K1 : st1 = join taken1).
    { pose proof (Hm1 []) as Hx. rewrite app_nil_r in Hx.
      apply seek_join in Hx. simpl in Hx. now rewrite append_nil_r in Hx. }
    assert (K2 : st2 = join taken2).
    { pose proof (Hm2 []) as Hx. rewrite app_nil_r in Hx.
      apply seek_join in Hx. simpl in Hx. now rewrite append_nil_r in Hx. }
    exists (join ((line0 :: taken1 ++ taken2) ++ ("0" ++ nl) :: rest3)). split.
    + f_equal. subst st1 st2. rewrite <- app_comm_cons. simpl join.
      rewrite !Ja. simpl join. now rewrite !append_assoc.
    + unfold readVTM_raw. rewrite (@readlines_join _ Hlines).
      rewrite <- app_comm_cons. simpl readline. cbv iota beta.
      rewrite <- app_assoc. rewrite Hm1. rewrite F1, El. simpl bind.
      rewrite Hm2. rewrite F2. simpl. reflexivity.
Qed.

End ReconcilerFacts.

(** C7.  Reading a snapshot file whose label is 0 and whose embedded time
    is not 0 answers time 0 and rewrites the file with the corrected text,
    which, when the file did carry a time, reads as label 0 and time 0 and
    is written back unchanged by a further correction; whatever the file,
    label 0 never comes with another time than 0; and on a snapshot that
    reads as label 0 and time 0 the correction writes back the very text it
    read, and reading it answers (0, 0) and leaves the file as it is. *)
Theorem readVTM_correction_is_idempotent :
  forall (now : Z) (f : FolderParser.file),
    (forall t, FolderParser.readVTM_raw (FolderParser.text f) = Py.Ok ("0", t)%string ->
               t <> "0"%string ->
               exists st,
                 FolderParser.correctVTM_text (FolderParser.text f) = Py.Ok st
                 /\ FolderParser.readVTM now f
                    = Py.Ok ("0", "0", FolderParser.mkFile (FolderParser.fname f) now st)%string
                 /\ (t <> EmptyString ->
                     FolderParser.readVTM_raw st = Py.Ok ("0", "0")%string
                     /\ FolderParser.correctVTM_text st = Py.Ok st))
    /\ (forall lbl t f', FolderParser.readVTM now f = Py.Ok (lbl, t, f') ->
                         lbl = "0"%string -> t = "0"%string)
    /\ (FolderParser.readVTM_raw (FolderParser.text f) = Py.Ok ("0", "0")%string ->
        FolderParser.correctVTM_text (FolderParser.text f) = Py.Ok (FolderParser.text f)
        /\ FolderParser.correctVTM (FolderParser.mtime f) f = Py.Ok f
        /\ FolderParser.readVTM now f = Py.Ok ("0", "0", f)%string).
Proof.
  intros now f. split; [|split].
  - intros t H Ht.
    destruct (@readVTM_corrects now f t H Ht) as [st [Hst Hr]].
    exists st. split; [exact Hst|]. split; [exact Hr|].
    intros Hte. destruct (@corrected_reads_zero _ t H Ht Hte) as [st' [Hst' Hraw]].
    rewrite Hst in Hst'. inversion Hst'; subst st'.
    split; [exact Hraw|]. now apply correctVTM_text_fixed.
  - intros lbl t f' H. now apply readVTM_zero_label with (now := now) (f := f) (f' := f').
  - intros H. pose proof (correctVTM_text_fixed _ H) as Hc. split; [exact Hc|]. split.
    + unfold FolderParser.correctVTM. rewrite Hc. simpl. now destruct f.
    + unfold FolderParser.readVTM. rewrite H. reflexivity.
Qed.

(** The initial snapshot saved with time 1e-05 is read as (0, 0) and
    rewritten; the rewritten snapshot is read as (0, 0) and left alone. *)
Lemma readVTM_correction_is_idempotent_witness :
  FolderParser.readVTM 5 Scenarios.snapshot0
  = Py.Ok ("0", "0", Scenarios.snapshot0_corrected)%string
  /\ FolderParser.correctVTM_text (FolderParser.text Scenarios.snapshot0_corrected)
     = Py.Ok (FolderParser.text Scenarios.snapshot0_corrected)
  /\ FolderParser.readVTM 9 Scenarios.snapshot0_corrected
     = Py.Ok ("0", "0", Scenarios.snapshot0_corrected)%string.
Proof.
  split.
  - destruct (readVTM_correction_is_idempotent 5 Scenarios.snapshot0) as [H _].
    destruct (H "1e-05"%string) as [st [Hst [Hr _]]].
    + vm_compute. reflexivity.
    + discriminate.
    + rewrite Hr. vm_compute in Hst. inversion Hst. reflexivity.
  - destruct (readVTM_correction_is_idempotent 9 Scenarios.snapshot0_corrected)
      as [_ [_ H]].
    destruct H as [Hc [_ Hr]].
    + vm_compute. reflexivity.
    + split; assumption.
Defined.

Section TimesFacts.
Import Py FolderParser.
Open Scope string_scope.

Variable F : Type.
Variable float_of : string -> option F.
Variable int_of : string -> option Z.

(** Files that are no snapshots pass through the loop of
    [redoVTKSeriesNoLog] and leave its lists alone. *)
Lemma redo_loop_no_snapshots : forall now d st,
  forallb (fun f => negb (Spec.is_snapshot f)) d = true ->
  redo_loop int_of now st d
  = Ok (mkRedo (r_flist st) (r_tlist st) (r_ending st) (r_lastTime st) (r_files st ++ d)).
Proof.
  induction d as [|f d IH]; intros st H; simpl.
  - rewrite app_nil_r. now destruct st.
  - simpl in H. apply andb_true_iff in H. destruct H as [Hf Hd].
    unfold Spec.is_snapshot in Hf. apply negb_true_iff in Hf.
    apply orb_false_iff in Hf. destruct Hf as [Hvtm Hvtk].
    unfold redo_file. rewrite Hvtm, Hvtk. simpl.
    rewrite (IH _ Hd). simpl. now rewrite <- app_assoc.
Qed.

Lemma floats_of_no_numeric : forall ff,
  forallb (fun i => match float_of i with None => true | Some _ => false end) ff = true ->
  floats_of float_of ff = [].
Proof.
  induction ff as [|i ff IH]; simpl; intros H; [reflexivity|].
  apply andb_true_iff in H. destruct H as [Hi Hff].
  destruct (float_of i); [discriminate | now apply IH].
Qed.

Lemma no_manifest_find_series : forall d,
  forallb (fun f => negb (contains ".series" (fname f)) && negb (Spec.is_snapshot f)) d = true ->
  find_series d = None
  /\ forallb (fun f => negb (Spec.is_snapshot f)) d = true
  /\ filter (fun f => endswith (fname f) ".vtk" || endswith (fname f) ".vtm") d = [].
Proof.
  induction d as [|f d IH]; simpl; intros H; [auto|].
  apply andb_true_iff in H. destruct H as [Hf Hd].
  apply andb_true_iff in Hf. destruct Hf as [Hs Hn].
  destruct (IH Hd) as [H1 [H2 H3]].
  unfold find_series in *. simpl.
  apply negb_true_iff in Hs. rewrite Hs, Hn. simpl.
  unfold Spec.is_snapshot in Hn. apply negb_true_iff in Hn.
  rewrite orb_comm, Hn. auto.
Qed.

(** Without series file and snapshot files, [redoVTKSeriesNoLog] changes
    nothing. *)
Lemma redo_no_manifest : forall sf,
  Spec.no_manifest sf = true -> redoVTKSeriesNoLog int_of sf = Ok sf.
Proof.
  intros [base names [d|] now] H; simpl in *; [|reflexivity].
  unfold redoVTKSeriesNoLog. simpl.
  destruct (no_manifest_find_series _ H) as [Hs [Hn _]].
  rewrite (redo_loop_no_snapshots now _ _ Hn). simpl.
  unfold generateVTKSeries, generateVTKSeries_table. rewrite Hs. simpl. reflexivity.
Qed.

Lemma parse_no_manifest : forall sf,
  Spec.no_manifest sf = true -> parseVTKSeries float_of int_of sf = Ok ([], sf).
Proof.
  intros sf H. unfold parseVTKSeries, series.
  destruct sf as [base names [d|] now]; simpl in *; [|reflexivity].
  destruct (no_manifest_find_series _ H) as [Hs [Hn Hv]].
  rewrite Hs. rewrite (redo_no_manifest _ H). simpl. rewrite Hs. simpl.
  unfold vtkFiles. simpl. rewrite Hv. reflexivity.
Qed.

End TimesFacts.

(** C1 (as the code has it).  [times] answers the list of the numeric names
    of the case folder, in the order of the listing, when that list is
    strictly longer than the list read from the series file, and the list
    of the series file, in the order of the file, otherwise (also when both
    are as long); it fails only where reading the series file fails; and
    without series file, snapshot files and numeric names it answers the
    empty list and leaves the folder as it is.  No order of the times is
    established by the code. *)
Theorem times_returns_the_longer_list :
  forall (F : Type) (float_of : string -> option F) (int_of : string -> option Z)
         (sf : FolderParser.simfolder),
    (forall t2 sf',
        FolderParser.parseVTKSeries float_of int_of sf = Py.Ok (t2, sf') ->
        FolderParser.times float_of int_of sf
        = Py.Ok (if (List.length t2 <? List.length (FolderParser.timesFromFolder float_of sf))%nat
                 then FolderParser.timesFromFolder float_of sf
                 else t2, sf'))
    /\ (forall e,
        FolderParser.parseVTKSeries float_of int_of sf = Py.Raise e ->
        FolderParser.times float_of int_of sf = Py.Raise e)
    /\ (Spec.no_manifest sf = true ->
        Spec.no_numeric_names float_of sf = true ->
        FolderParser.times float_of int_of sf = Py.Ok ([], sf)).
Proof.
  intros F float_of int_of sf. split; [|split].
  - intros t2 sf' H. unfold FolderParser.times. rewrite H. simpl.
    destruct (List.length t2 <? List.length (FolderParser.timesFromFolder float_of sf))%nat;
      reflexivity.
  - intros e H. unfold FolderParser.times. rewrite H. reflexivity.
  - intros Hm Hn. unfold FolderParser.times.
    rewrite (parse_no_manifest float_of int_of sf Hm). simpl.
    unfold FolderParser.timesFromFolder.
    rewrite (floats_of_no_numeric float_of _ Hn). reflexivity.
Qed.

Section ManifestFacts.
Import Py FolderParser.
Open Scope string_scope.

(** ** The sorted table *)

Lemma insert_row_perm : forall r l, Permutation (r :: l) (insert_row r l).
Proof.
  induction l as [|h t IH]; simpl; [apply Permutation_refl|].
  destruct (String.leb (fst h) (fst r)).
  - eapply Permutation_trans; [apply perm_swap|]. now apply perm_skip.
  - apply Permutation_refl.
Qed.

Lemma insert_row_hd : forall a r l,
  HdRel Spec.time_leb a l -> Spec.time_leb a r -> HdRel Spec.time_leb a (insert_row r l).
Proof.
  intros a r [|h t] Hl Hr; simpl; [now constructor|].
  destruct (String.leb (fst h) (fst r)); constructor; [now inversion Hl | exact Hr].
Qed.

Lemma insert_row_sorted : forall r l, Sorted Spec.time_leb l -> Sorted Spec.time_leb (insert_row r l).
Proof.
  induction l as [|h t IH]; intros Hs; simpl.
  - repeat constructor.
  - inversion Hs as [|? ? Ht Hh]; subst.
    destruct (String.leb (fst h) (fst r)) eqn:E.
    + constructor; [now apply IH | now apply insert_row_hd].
    + constructor; [exact Hs|]. constructor. unfold Spec.time_leb.
      destruct (String.leb_total (fst r) (fst h)) as [H|H]; [exact H | congruence].
Qed.

Lemma argsort_from_perm : forall l acc,
  Permutation (l ++ acc) (fold_left (fun acc r => insert_row r acc) l acc).
Proof.
  induction l as [|r l IH]; intros acc; simpl; [apply Permutation_refl|].
  eapply Permutation_trans; [|apply IH].
  eapply Permutation_trans; [apply Permutation_middle|].
  apply Permutation_app_head. apply insert_row_perm.
Qed.

Lemma argsort_from_sorted : forall l acc,
  Sorted Spec.time_leb acc -> Sorted Spec.time_leb (fold_left (fun acc r => insert_row r acc) l acc).
Proof.
  induction l as [|r l IH]; intros acc H; simpl; [exact H|].
  apply IH. now apply insert_row_sorted.
Qed.

Lemma argsort_rows_perm : forall l, Permutation l (argsort_rows l).
Proof.
  intros l. unfold argsort_rows.
  pose proof (argsort_from_perm l []) as H. now rewrite app_nil_r in H.
Qed.

Lemma argsort_rows_sorted : forall l, Sorted Spec.time_leb (argsort_rows l).
Proof.
  intros l. unfold argsort_rows. apply argsort_from_sorted. constructor.
Qed.

(** The time column of the sorted table is in the order of the strings. *)
Lemma time_column_sorted : forall l,
  Sorted Spec.time_leb l -> Sorted (fun a b => String.leb a b = true) (map fst l).
Proof.
  induction 1 as [|a l Hs IH Hh]; simpl; constructor; [exact IH|].
  destruct Hh; simpl; constructor. assumption.
Qed.

Lemma leb_cases : forall a b : string,
  String.leb a b = true -> a = b \/ String.ltb a b = true.
Proof.
  intros a b. unfold String.leb, String.ltb.
  destruct (String.compare a b) eqn:E; intros H.
  - left. now apply String.compare_eq_iff.
  - now right.
  - discriminate.
Qed.

(** Where the order of the strings agrees with the order of the numbers,
    a column in the order of the strings is in the order of the numbers. *)
Lemma string_order_numeric : forall (value : string -> Q) (l : list string),
  (forall a b, In a l -> In b l -> String.ltb a b = true -> (value a < value b)%Q) ->
  Sorted (fun a b => String.leb a b = true) l ->
  Sorted Qle (map value l)
  /\ (NoDup l -> Sorted Qlt (map value l)).
Proof.
  intros value l Hv Hs.
  induction Hs as [|a l Hs IH Hh]; simpl.
  - split; constructor.
  - destruct IH as [IH1 IH2].
    { intros x y Hx Hy. apply Hv; now right. }
    split.
    + constructor; [exact IH1|]. destruct Hh as [|b l' Hab]; simpl; constructor.
      destruct (leb_cases _ _ Hab) as [E|E].
      * subst. apply Qle_refl.
      * apply Qlt_le_weak. apply Hv; [now left | right; now left | exact E].
    + intros Hnd. inversion Hnd as [|? ? Hni Hnd']; subst.
      constructor; [now apply IH2|]. destruct Hh as [|b l' Hab]; simpl; constructor.
      destruct (leb_cases _ _ Hab) as [E|E].
      * subst. exfalso. apply Hni. now left.
      * apply Hv; [now left | right; now left | exact E].
Qed.

(** ** What the loop over the VTK folder records *)

Variable int_of : string -> option Z.

Lemma redo_loop_lengths : forall now d st st',
  redo_loop int_of now st d = Ok st' ->
  List.length (r_tlist st')
  = (List.length (r_tlist st) + List.length (filter (Spec.valid_snapshot now) d))%nat
  /\ List.length (r_flist st')
     = (List.length (r_flist st) + List.length (filter (Spec.valid_snapshot now) d))%nat.
Proof.
  induction d as [|f d IH]; intros st st' H; simpl in H.
  - inversion H; subst. simpl. lia.
  - destruct (redo_file int_of now st f) as [st1|e] eqn:E; simpl in H; [|discriminate].
    apply IH in H. simpl.
    set (n := List.length (filter (Spec.valid_snapshot now) d)) in *.
    unfold redo_file in E.
    destruct (Spec.valid_snapshot now f) eqn:V; unfold Spec.valid_snapshot in V;
      destruct (endswith (fname f) ".vtm").
    + destruct (readVTM now f) as [[[flabel time] f']|e]; simpl in E; [|discriminate].
      rewrite V in E. inversion E; subst; simpl in H.
      rewrite !length_app in H. simpl in *. lia.
    + rewrite V in E.
      destruct (index (re_split_vtk (fname f)) 1) as [s|e]; simpl in E; [|discriminate].
      destruct (py_int int_of s) as [z|e]; simpl in E; [|discriminate].
      destruct (last (map Some (r_tlist st)) None) as [[s'|z'|q']|];
        simpl in E; try discriminate;
        inversion E; subst; simpl in H; rewrite !length_app in H; simpl in *; lia.
    + destruct (readVTM now f) as [[[flabel time] f']|e]; simpl in E; [|discriminate].
      rewrite V in E. inversion E; subst; simpl in H. simpl. lia.
    + rewrite V in E. inversion E; subst; simpl in H. simpl. lia.
Qed.

Lemma all_strs_length : forall l ss, all_strs l = Ok ss -> List.length ss = List.length l.
Proof.
  induction l as [|[s|z|q] l IH]; intros ss H; simpl in H; try discriminate.
  - inversion H. reflexivity.
  - destruct (all_strs l) as [ss'|e]; simpl in H; [|discriminate].
    inversion H; subst. simpl. f_equal. now apply IH.
Qed.

Lemma all_ints_length : forall l zs, all_ints l = Some zs -> List.length zs = List.length l.
Proof.
  induction l as [|[s|z|q] l IH]; intros zs H; simpl in H; try discriminate.
  - inversion H. reflexivity.
  - destruct (all_ints l) as [zs'|]; simpl in H; [|discriminate].
    inversion H; subst. simpl. f_equal. now apply IH.
Qed.

Lemma format_times_length : forall l ss, format_times l = Ok ss -> List.length ss = List.length l.
Proof.
  induction l as [|v l IH]; intros ss H; simpl in H.
  - inversion H. reflexivity.
  - destruct (format_time v) as [s|e]; simpl in H; [|discriminate].
    destruct (format_times l) as [ss'|e]; simpl in H; [|discriminate].
    inversion H; subst. simpl. f_equal. now apply IH.
Qed.

Lemma insert_Z_length : forall z l, List.length (insert_Z z l) = S (List.length l).
Proof.
  induction l as [|h t IH]; simpl; [reflexivity|].
  destruct (h <=? z)%Z; simpl; [now rewrite IH | reflexivity].
Qed.

Lemma sort_Z_length : forall l, List.length (sort_Z l) = List.length l.
Proof.
  intros l. unfold sort_Z.
  assert (H : forall l acc,
             List.length (fold_left (fun acc z => insert_Z z acc) l acc)
             = (List.length l + List.length acc)%nat).
  { induction l0 as [|z l0 IH]; intros acc; simpl; [reflexivity|].
    rewrite IH, insert_Z_length. lia. }
  rewrite H. simpl. lia.
Qed.

Lemma redo_lists_lengths : forall st tl fl,
  redo_lists st = Ok (tl, fl) ->
  List.length tl = List.length (r_tlist st) /\ List.length fl = List.length (r_flist st).
Proof.
  intros st tl fl H. unfold redo_lists in H.
  destruct (String.eqb (r_ending st) ".vtk").
  - destruct (all_ints (r_flist st)) as [zs|] eqn:Ez; [|discriminate].
    destruct (format_times (r_tlist st)) as [ts|e] eqn:Et; simpl in H; [|discriminate].
    inversion H; subst. split.
    + now apply format_times_length.
    + rewrite length_map, sort_Z_length. now apply all_ints_length.
  - destruct (all_strs (r_tlist st)) as [ts|e] eqn:Et; simpl in H; [|discriminate].
    destruct (all_strs (r_flist st)) as [fs|e] eqn:Ef; simpl in H; [|discriminate].
    inversion H; subst. split; now apply all_strs_length.
Qed.

Lemma generated_table : forall base d tl fl ending lastTime name table,
  generateVTKSeries_table base d tl fl ending lastTime = Written name table ->
  table = argsort_rows (combine tl fl) /\ List.length tl = List.length fl.
Proof.
  intros base d tl fl ending lastTime name table H.
  unfold generateVTKSeries_table in H.
  destruct (match find_series d with
            | Some f => (mtime f >? lastTime)%Z
            | None => false
            end); [discriminate|].
  destruct ((List.length tl =? 0)%nat || (List.length fl =? 0)%nat
            || negb (List.length tl =? List.length fl)%nat) eqn:E; [discriminate|].
  inversion H; subst. split; [reflexivity|].
  apply orb_false_iff in E. destruct E as [_ E].
  apply negb_false_iff in E. now apply Nat.eqb_eq.
Qed.

Lemma map_fst_combine : forall (A B : Type) (l1 : list A) (l2 : list B),
  List.length l1 = List.length l2 -> map fst (combine l1 l2) = l1.
Proof.
  induction l1 as [|a l1 IH]; intros [|b l2] H; simpl in *; try discriminate; [reflexivity|].
  f_equal. apply IH. lia.
Qed.

(** The table written holds one row for every snapshot recorded, and its
    time column holds the times handed over, in the order of the strings. *)
Lemma redo_generated_table : forall sf tl fl name table,
  redo_generated int_of sf = Ok (tl, fl, Written name table) ->
  List.length (map fst table) = Spec.valid_snapshots sf
  /\ Permutation tl (map fst table)
  /\ Sorted (fun a b => String.leb a b = true) (map fst table).
Proof.
  intros sf tl fl name table H. unfold redo_generated in H.
  unfold Spec.valid_snapshots.
  destruct (vtk sf) as [d|]; [|discriminate].
  destruct (redo_loop int_of (clock sf) (mkRedo [] [] ".vtm" 0 []) d) as [st|e] eqn:El;
    simpl in H; [|discriminate].
  destruct (redo_lists st) as [[tl' fl']|e] eqn:Er; simpl in H; [|discriminate].
  inversion H as [[H1 H2 Hg]]. subst tl' fl'.
  apply generated_table in Hg. destruct Hg as [Ht Hlen].
  apply redo_loop_lengths in El. apply redo_lists_lengths in Er. simpl in El.
  assert (Hp : Permutation tl (map fst table)).
  { rewrite <- (map_fst_combine tl fl Hlen) at 1. subst table.
    apply Permutation_map. apply argsort_rows_perm. }
  split; [|split].
  - rewrite <- (Permutation_length Hp). lia.
  - exact Hp.
  - subst table. apply time_column_sorted. apply argsort_rows_sorted.
Qed.

(** [redoVTKSeriesNoLog] writes that table, and nothing else, into the
    series file. *)
Lemma redo_writes_table : forall sf tl fl name table,
  redo_generated int_of sf = Ok (tl, fl, Written name table) ->
  exists cfbasename ending files,
    redoVTKSeriesNoLog int_of sf
    = Ok (mkSim (cfbase sf) (listing sf)
            (Some (exportFile (clock sf) name (series_text cfbasename ending table) files))
            (clock sf)).
Proof.
  intros sf tl fl name table H. unfold redo_generated in H. unfold redoVTKSeriesNoLog.
  destruct (vtk sf) as [d|]; [|discriminate].
  destruct (redo_loop int_of (clock sf) (mkRedo [] [] ".vtm" 0 []) d) as [st|e];
    simpl in *; [|discriminate].
  destruct (redo_lists st) as [[tl' fl']|e]; simpl in *; [|discriminate].
  inversion H as [[H1 H2 Hg]]. subst tl' fl'.
  unfold generateVTKSeries. rewrite Hg.
  eexists. eexists. eexists. reflexivity.
Qed.

End ManifestFacts.

(** C3 (as the code has it).  When [redoVTKSeriesNoLog] writes a series
    file, the time list written holds exactly one time for every valid
    snapshot file (so its length is the number of those files) and is a
    rearrangement of the times read or synthesized.  Where the comparison of
    the time strings that the sort uses agrees with the order of the numbers
    they stand for, the list is in non-decreasing order of time; it is
    strictly increasing when, moreover, no time string occurs twice.
    Snapshots with equal times are all kept. *)
Theorem regenerated_manifest_time_list :
  forall (int_of : string -> option Z) (value : string -> Q)
         (sf : FolderParser.simfolder) (tl fl : list string)
         (name : string) (table : list (string * string)),
    FolderParser.redo_generated int_of sf = Py.Ok (tl, fl, FolderParser.Written name table) ->
    (forall a b, In a tl -> In b tl -> String.ltb a b = true -> (value a < value b)%Q) ->
    List.length (map fst table) = Spec.valid_snapshots sf
    /\ Permutation tl (map fst table)
    /\ Sorted Qle (map value (map fst table))
    /\ (NoDup tl -> Sorted Qlt (map value (map fst table))).
Proof.
  intros int_of value sf tl fl name table H Hv.
  destruct (redo_generated_table int_of sf H) as [Hlen [Hp Hs]].
  assert (Hv' : forall a b, In a (map fst table) -> In b (map fst table) ->
                            String.ltb a b = true -> (value a < value b)%Q).
  { intros a b Ha Hb. apply Hv; eapply Permutation_in;
      try (apply Permutation_sym; exact Hp); assumption. }
  destruct (string_order_numeric value Hv' Hs) as [Hle Hlt].
  repeat split; try assumption.
  intros Hnd. apply Hlt. eapply Permutation_NoDup; eassumption.
Qed.

(** Counterexample to C3 as stated: two snapshots with the time 0.1 give a
    series file whose time list is 0.1, 0.1, which is not strictly
    increasing. *)
Lemma regenerated_manifest_keeps_equal_times :
  FolderParser.redo_generated FolderParser.decimal_int Scenarios.twin_folder
  = Py.Ok (["0.1"; "0.1"], ["1"; "2"],
           FolderParser.Written "case.vtm.series" [("0.1", "1"); ("0.1", "2")])%string
  /\ Spec.valid_snapshots Scenarios.twin_folder = 2%nat
  /\ ~ Sorted Qlt (map Spec.time_value ["0.1"; "0.1"]%string).
Proof.
  split; [vm_compute; reflexivity|]. split; [vm_compute; reflexivity|].
  intros H. inversion H as [|? ? _ Hh]; subst.
  inversion Hh as [|? ? Hlt]; subst. vm_compute in Hlt. discriminate.
Qed.

(** The theorem at the folder with three snapshots: the times 0.2, 0 and
    0.1 are written as 0, 0.1, 0.2. *)
Lemma regenerated_manifest_time_list_witness :
  exists table,
    FolderParser.redo_generated FolderParser.decimal_int Scenarios.vtm_folder
    = Py.Ok (["0.2"; "0"; "0.1"], ["2"; "0"; "1"],
             FolderParser.Written "case.vtm.series" table)%string
    /\ List.length (map fst table) = Spec.valid_snapshots Scenarios.vtm_folder
    /\ Sorted Qlt (map Spec.time_value (map fst table)).
Proof.
  exists [("0", "0"); ("0.1", "1"); ("0.2", "2")]%string.
  assert (H : FolderParser.redo_generated FolderParser.decimal_int Scenarios.vtm_folder
              = Py.Ok (["0.2"; "0"; "0.1"], ["2"; "0"; "1"],
                       FolderParser.Written "case.vtm.series"
                         [("0", "0"); ("0.1", "1"); ("0.2", "2")])%string)
    by (vm_compute; reflexivity).
  split; [exact H|].
  destruct (regenerated_manifest_time_list FolderParser.decimal_int Spec.time_value
              Scenarios.vtm_folder H) as [Hlen [_ [_ Hlt]]].
  - intros a b Ha Hb. simpl in Ha, Hb.
    destruct Ha as [<-|[<-|[<-|[]]]]; destruct Hb as [<-|[<-|[<-|[]]]];
      vm_compute; intros E; try discriminate E; reflexivity.
  - split; [exact Hlen|]. apply Hlt.
    repeat constructor; simpl; intros E;
      repeat (destruct E as [E|E]; [discriminate E|]); exact E.
Defined.

(** Counterexample to C1 as stated: the times of a folder whose listing is
    0, 10, 2 come back in that order, which is not ascending; and a folder
    without series file and without numeric names, but with snapshot files,
    does not give the empty list, because the series file is written on the
    way. *)
Lemma times_keeps_the_listing_order :
  (FolderParser.times FolderParser.decimal_float FolderParser.decimal_int Scenarios.run_folder
   = Py.Ok ([0; 10; 2]%Q, Scenarios.run_folder)
   /\ ~ Sorted Qle [0; 10; 2]%Q)
  /\ (FolderParser.find_series
        match FolderParser.vtk Scenarios.snapshots_only_folder with
        | Some d => d
        | None => []
        end = None
      /\ Spec.no_numeric_names FolderParser.decimal_float Scenarios.snapshots_only_folder = true
      /\ exists sf',
           FolderParser.times FolderParser.decimal_float FolderParser.decimal_int
             Scenarios.snapshots_only_folder
           = Py.Ok ([0; 1 # 10; 2 # 10]%Q, sf')).
Proof.
  split; [split|split; [|split]].
  - vm_compute. reflexivity.
  - intros H. inversion H as [|? ? Hs _]; subst.
    inversion Hs as [|? ? _ Hh]; subst.
    inversion Hh as [|? ? Hle]; subst. vm_compute in Hle. now apply Hle.
  - vm_compute. reflexivity.
  - vm_compute. reflexivity.
  - eexists. vm_compute. reflexivity.
Qed.

(** The theorem at three folders: more snapshots than time folders give the
    list of the series file, time folders without series file give the
    list of the folders, and a case that was not run gives the empty list. *)
Lemma times_returns_the_longer_list_witness :
  (exists sf',
      FolderParser.times FolderParser.decimal_float FolderParser.decimal_int
        Scenarios.vtm_folder
      = Py.Ok ([0; 1 # 10; 2 # 10]%Q, sf'))
  /\ FolderParser.times FolderParser.decimal_float FolderParser.decimal_int
       Scenarios.run_folder
     = Py.Ok ([0; 10; 2]%Q, Scenarios.run_folder)
  /\ FolderParser.times FolderParser.decimal_float FolderParser.decimal_int
       Scenarios.fresh_folder
     = Py.Ok ([], Scenarios.fresh_folder).
Proof.
  split; [|split].
  - destruct (times_returns_the_longer_list FolderParser.decimal_float
                FolderParser.decimal_int Scenarios.vtm_folder) as [H _].
    destruct (FolderParser.parseVTKSeries FolderParser.decimal_float
                FolderParser.decimal_int Scenarios.vtm_folder) as [[t2 sf']|e] eqn:E.
    + exists sf'. rewrite (H t2 sf' eq_refl).
      vm_compute in E. inversion E; subst. vm_compute. reflexivity.
    + vm_compute in E. discriminate E.
  - destruct (times_returns_the_longer_list FolderParser.decimal_float
                FolderParser.decimal_int Scenarios.run_folder) as [H _].
    rewrite (H [] Scenarios.run_folder); [reflexivity | vm_compute; reflexivity].
  - destruct (times_returns_the_longer_list FolderParser.decimal_float
                FolderParser.decimal_int Scenarios.fresh_folder) as [_ [_ H]].
    apply H; vm_compute; reflexivity.
Defined.

(* ================================================================== *)
(** * Theorems: the slice summary extractor *)
(* ================================================================== *)

Section ExtractorFacts.
Import Py InterfaceMetrics.
Open Scope Q_scope.

Variable centroidAndArea : list (Q * Q) -> option (Q * Q * Q).
Variable fs : folderStats.

(** The values of [np.sort(col.unique())] are values of the column. *)
Lemma insert_unique_in : forall q l x, In x (insert_unique q l) -> x = q \/ In x l.
Proof.
  induction l as [|h t IH]; intros x H; simpl in H.
  - destruct H as [H|[]]; auto.
  - destruct (q ?= h).
    + now right.
    + destruct H as [H|H]; auto.
    + destruct H as [H|H]; [right; now left|].
      destruct (IH _ H); [now left | right; now right].
Qed.

Lemma sort_unique_in : forall l x, In x (sort_unique l) -> In x l.
Proof.
  intros l x. unfold sort_unique.
  assert (H : forall l acc, In x (fold_left (fun acc q => insert_unique q acc) l acc) ->
                            In x l \/ In x acc).
  { induction l0 as [|q l0 IH]; intros acc H; simpl in H; [now right|].
    destruct (IH _ H) as [H1|H1]; [left; now right|].
    destruct (insert_unique_in _ _ _ H1); [left; now left | now right]. }
  intros Hx. destruct (H _ _ Hx) as [H1|[]]. exact H1.
Qed.






End ExtractorFacts.



(* ================================================================== *)
(** * Theorems: the steady-state detector *)
(* ================================================================== *)

Section SteadyFacts.
Import Py InterfaceMetrics.
Open Scope Q_scope.

Variable dother : Q.
Variable vdcrit : Q.
Variable m : mode.

(** ** The two loops *)

(** Once bound, [xtother] stays bound; it only ever holds a value of the
    list that is scanned, and what is left of the list is a part of it. *)
Lemma scan_xtother : forall cond l1 rest vd xo vd' xo' rest',
  scan dother m cond l1 vd xo rest = (vd', xo', rest') ->
  (xo <> None -> xo' <> None)
  /\ (forall v, xo' = Some v -> xo = Some v \/ In v rest)
  /\ (forall v, In v rest' -> In v rest).
Proof.
  induction rest as [|v rest IH]; intros vd xo vd' xo' rest' H; simpl in H.
  - inversion H; subst. repeat split; auto.
  - destruct (cond vd).
    + apply IH in H. destruct H as [H1 [H2 H3]]. repeat split.
      * intros _. apply H1. discriminate.
      * intros w Hw. destruct (H2 w Hw) as [E|E].
        -- inversion E; subst. right. now left.
        -- right. now right.
      * intros w Hw. right. now apply H3.
    + inversion H; subst. repeat split; auto.
Qed.

Lemma unique_in : forall l x, In x (unique l) -> In x l.
Proof.
  induction l as [|h t IH]; intros x H; simpl in H; [exact H|].
  destruct H as [H|H]; [now left|].
  apply filter_In in H. right. apply IH. now destruct H.
Qed.

(** Every row that a group contributes went through [steady_row], with a
    start that is a value of the scanned variable and an end that is such
    a value or 1000. *)
Lemma steady_group_row : forall ss x row,
  steady_group dother vdcrit m ss x = Ok (Some row) ->
  exists other0 otherf,
    row = steady_row m x other0 otherf
    /\ In other0 (map (by_mode (other m)) ss)
    /\ (otherf = 1000 \/ In otherf (map (by_mode (other m)) ss)).
Proof.
  intros ss x row H. unfold steady_group in H.
  set (l1 := filter (fun r => Qeq_bool (by_mode m r) x) ss) in *.
  assert (Hl1 : forall v, In v (sort_unique (map (by_mode (other m)) l1)) ->
                          In v (map (by_mode (other m)) ss)).
  { intros v Hv. apply sort_unique_in in Hv. apply in_map_iff in Hv.
    destruct Hv as [r [Er Hr]]. apply in_map_iff. exists r. split; [exact Er|].
    unfold l1 in Hr. now apply filter_In in Hr. }
  destruct (scan dother m (above vdcrit) l1 (Some 100) None _) as [[vd xo] rest] eqn:E1.
  apply scan_xtother in E1. destruct E1 as [_ [Hx1 Hr1]].
  destruct rest as [|v rest]; [discriminate|].
  destruct xo as [other0|]; [|discriminate].
  destruct (scan dother m (within vdcrit) l1 vd (Some other0) (v :: rest))
    as [[vd' xo'] rest'] eqn:E2.
  apply scan_xtother in E2. destruct E2 as [_ [Hx2 _]].
  assert (H0 : In other0 (map (by_mode (other m)) ss)).
  { apply Hl1. destruct (Hx1 other0 eq_refl) as [E|E]; [discriminate | exact E]. }
  inversion H. eexists. eexists. split; [reflexivity|]. split; [exact H0|].
  destruct rest' as [|w rest'']; [now left|].
  destruct xo' as [u|]; [|now left].
  right. destruct (Hx2 u eq_refl) as [E|E].
  - inversion E; subst. exact H0.
  - apply Hl1. now apply Hr1.
Qed.

Lemma steady_groups_rows : forall ss list1 flat row,
  steady_groups dother vdcrit m ss list1 = Ok flat ->
  In row flat ->
  exists x other0 otherf,
    In x list1
    /\ row = steady_row m x other0 otherf
    /\ In other0 (map (by_mode (other m)) ss)
    /\ (otherf = 1000 \/ In otherf (map (by_mode (other m)) ss)).
Proof.
  induction list1 as [|x list1 IH]; intros flat row H Hin; simpl in H.
  - inversion H; subst. destruct Hin.
  - destruct (steady_group dother vdcrit m ss x) as [r|e] eqn:Eg; simpl in H; [|discriminate].
    destruct (steady_groups dother vdcrit m ss list1) as [rs|e] eqn:Es; simpl in H;
      [|discriminate].
    assert (Hrs : In row rs ->
                  exists x0 other0 otherf,
                    In x0 (x :: list1)
                    /\ row = steady_row m x0 other0 otherf
                    /\ In other0 (map (by_mode (other m)) ss)
                    /\ (otherf = 1000 \/ In otherf (map (by_mode (other m)) ss))).
    { intros Hr. destruct (IH rs row eq_refl Hr) as [x0 [o [f [Hx0 Hrest]]]].
      exists x0, o, f. split; [now right | exact Hrest]. }
    inversion H; subst. destruct r as [r|]; [|now apply Hrs].
    destruct Hin as [Hin|Hin]; [|now apply Hrs].
    subst. destruct (steady_group_row _ _ Eg) as [o [f Hof]].
    exists x, o, f. split; [now left | exact Hof].
Qed.

(** With a tolerance below the starting value 100 of [vdrange], the first
    loop binds [xtother], and no group fails. *)
Lemma steady_group_returns : forall ss x,
  vdcrit < 100 -> exists r, steady_group dother vdcrit m ss x = Ok r.
Proof.
  intros ss x Hc. unfold steady_group.
  set (l1 := filter (fun r => Qeq_bool (by_mode m r) x) ss).
  destruct (sort_unique (map (by_mode (other m)) l1)) as [|v rest].
  - simpl. eexists. reflexivity.
  - assert (Ha : above vdcrit (Some 100) = true).
    { unfold above. apply negb_true_iff. destruct (Qle_bool 100 vdcrit) eqn:E; [|reflexivity].
      apply Qle_bool_iff in E. exfalso. apply (Qlt_not_le _ _ Hc E). }
    cbn [scan]. rewrite Ha.
    destruct (scan dother m (above vdcrit) l1 (vdrange_at dother m l1 v) (Some v) rest)
      as [[vd xo] rest1] eqn:E1.
    apply scan_xtother in E1. destruct E1 as [E1 _].
    destruct rest1 as [|w rest1]; [eexists; reflexivity|].
    destruct xo as [other0|]; [|exfalso; apply E1; [discriminate | reflexivity]].
    destruct (scan dother m (within vdcrit) l1 vd (Some other0) (w :: rest1))
      as [[vd' xo'] rest'].
    eexists. reflexivity.
Qed.

Lemma steady_groups_return : forall ss list1,
  vdcrit < 100 -> exists flat, steady_groups dother vdcrit m ss list1 = Ok flat.
Proof.
  intros ss list1 Hc. induction list1 as [|x list1 [rs IH]]; simpl.
  - eexists. reflexivity.
  - destruct (steady_group_returns ss x Hc) as [r Hr]. rewrite Hr, IH. simpl.
    eexists. reflexivity.
Qed.

End SteadyFacts.

Section RoundingFacts.
Import Py InterfaceMetrics.
Open Scope Q_scope.

Lemma round3_three_decimals : forall q, Spec.three_decimals (round3 q).
Proof.
  intros q. exists (FolderParser.round_half_even (q * 1000)).
  unfold round3. apply Qred_correct.
Qed.

(** The integer that [round] answers is no farther than a half from the
    number. *)
Lemma round_half_even_near : forall q,
  q - (1 # 2) <= inject_Z (FolderParser.round_half_even q)
  /\ inject_Z (FolderParser.round_half_even q) <= q + (1 # 2).
Proof.
  intros q. unfold FolderParser.round_half_even.
  pose proof (Qfloor_le q) as Hlo. pose proof (Qlt_floor q) as Hhi.
  rewrite inject_Z_plus in Hhi. change (inject_Z 1) with 1 in Hhi.
  assert (Hup : inject_Z (Qfloor q + 1) == inject_Z (Qfloor q) + 1).
  { rewrite inject_Z_plus. reflexivity. }
  destruct (q - inject_Z (Qfloor q) ?= 1 # 2) eqn:E.
  - apply Qeq_alt in E. destruct (Z.even (Qfloor q)).
    + split; Lqa.lra.
    + rewrite Hup. split; Lqa.lra.
  - apply Qlt_alt in E. split; Lqa.lra.
  - apply Qgt_alt in E. rewrite Hup. split; Lqa.lra.
Qed.

(** [round(q, 3)] is [q] rounded to three decimals. *)
Lemma round3_rounded : forall q, Spec.rounded_to_3 q (round3 q).
Proof.
  intros q. split; [apply round3_three_decimals|].
  assert (E : round3 q == inject_Z (FolderParser.round_half_even (q * 1000)) * (1 # 1000)).
  { unfold round3. rewrite Qred_correct. unfold Qeq, inject_Z. simpl. lia. }
  destruct (round_half_even_near (q * 1000)) as [Hlo Hhi].
  rewrite E. split; Lqa.lra.
Qed.

End RoundingFacts.

(** C8 (as the code has it).  In every row that the detector reports, the
    quantities that are positions are rounded to three decimals and the
    quantities that are times are reported as they are.  In the mode that
    groups by position the group value is [round(x, 3)] for a position [x]
    of the summaries, a number with at most three decimals no farther than
    half a thousandth from [x], and the start of the range is a time of the
    summaries and its end is such a time or 1000, as they are.  In the mode
    that groups by time the group value is a time of the summaries, as it
    is, and the start and the end of the range are [round(x0, 3)] and
    [round(xf, 3)] for a position [x0] of the summaries and for [xf] such a
    position or 1000. *)
Theorem steady_rows_round_positions_only :
  forall (dother vdcrit : Q) (m : InterfaceMetrics.mode)
         (ss : list InterfaceMetrics.ssrow) (ssunits : option (string * string))
         (tbl : InterfaceMetrics.steady_table) (g s e : Q),
    InterfaceMetrics.steadyList dother vdcrit m (Some (ss, ssunits)) = Py.Ok tbl ->
    In (g, s, e) (InterfaceMetrics.rows tbl) ->
    match m with
    | InterfaceMetrics.Xbehind =>
        (exists x : Q,
            In x (map InterfaceMetrics.r_xbehind ss)
            /\ g = InterfaceMetrics.round3 x /\ Spec.rounded_to_3 x g)
        /\ In s (map InterfaceMetrics.r_time ss)
        /\ (e = 1000 \/ In e (map InterfaceMetrics.r_time ss))
    | InterfaceMetrics.Time =>
        In g (map InterfaceMetrics.r_time ss)
        /\ (exists x0 : Q,
               In x0 (map InterfaceMetrics.r_xbehind ss)
               /\ s = InterfaceMetrics.round3 x0 /\ Spec.rounded_to_3 x0 s)
        /\ (exists xf : Q,
               (xf = 1000 \/ In xf (map InterfaceMetrics.r_xbehind ss))
               /\ e = InterfaceMetrics.round3 xf /\ Spec.rounded_to_3 xf e)
    end.
Proof.
  intros dother vdcrit m ss ssunits tbl g s e H Hin.
  unfold InterfaceMetrics.steadyList in H.
  destruct (List.length ss <? 2)%nat.
  - inversion H; subst. destruct Hin.
  - destruct ssunits as [[ux ut]|]; [|discriminate].
    destruct (InterfaceMetrics.steady_groups dother vdcrit m ss _) as [flat|err] eqn:E;
      simpl in H; [|discriminate].
    inversion H; subst. simpl in Hin.
    destruct (@steady_groups_rows dother vdcrit m ss _ flat (g, s, e) E Hin)
      as [x [o [f [Hx [Hrow [Ho Hf]]]]]].
    apply unique_in in Hx.
    destruct m; simpl in Hrow; inversion Hrow; subst.
    + split; [|split; assumption].
      exists x. split; [exact Hx|]. split; [reflexivity | apply round3_rounded].
    + split; [exact Hx|]. split.
      * exists o. split; [exact Ho|]. split; [reflexivity | apply round3_rounded].
      * exists f. split; [exact Hf|]. split; [reflexivity | apply round3_rounded].
Qed.

(** Counterexample to C8 as stated: at one position with slices at the
    times 1/16 and 17/16, the steady times reported start at 0.0625, which
    has four decimals. *)
Lemma steady_times_are_not_rounded :
  InterfaceMetrics.steadyTime 1 (1 # 100)
    (Some (Scenarios.sixteenths, Some ("mm", "s")%string))
  = Py.Ok (InterfaceMetrics.mkTable ["x"; "t0"; "tf"]%string
             (Some ("mm", "s", "s")%string) [(1, 1 # 16, 1000)]%Q)
  /\ ~ Spec.three_decimals (1 # 16).
Proof.
  split; [vm_compute; reflexivity|].
  intros [n H]. unfold Qeq in H. simpl in H. lia.
Qed.

(** The theorem at the position 1.2346 with slices at the times 1/16 and
    17/16, in the mode that groups by position: the row reported is
    (1.235, 0.0625, 1000); its group value is the position rounded, and
    its start is the time 1/16 as it is. *)
Lemma steady_rows_round_positions_only_witness :
  (exists x : Q,
      In x (map InterfaceMetrics.r_xbehind Scenarios.fine_position)
      /\ (247 # 200)%Q = InterfaceMetrics.round3 x
      /\ Spec.rounded_to_3 x (247 # 200))
  /\ In (1 # 16)%Q (map InterfaceMetrics.r_time Scenarios.fine_position)
  /\ (1000%Q = 1000%Q
      \/ In 1000%Q (map InterfaceMetrics.r_time Scenarios.fine_position)).
Proof.
  apply (@steady_rows_round_positions_only 1 (1 # 100) InterfaceMetrics.Xbehind
           Scenarios.fine_position (Some ("mm", "s")%string)
           (InterfaceMetrics.mkTable ["x"; "t0"; "tf"]%string
              (Some ("mm", "s", "s")%string) [(247 # 200, 1 # 16, 1000)]%Q)
           (247 # 200) (1 # 16) 1000).
  - vm_compute. reflexivity.
  - simpl. left. reflexivity.
Defined.

Section ScenarioFacts.
Import Py InterfaceMetrics.
Open Scope Q_scope.

Variable m : mode.
Variable g : Q.

Lemma filter_other_groups : forall B : list ssrow,
  (forall r, In r B -> Qeq_bool (by_mode m r) g = false) ->
  filter (fun r => Qeq_bool (by_mode m r) g) B = [].
Proof.
  induction B as [|r B IH]; intros H; simpl; [reflexivity|].
  rewrite (H r (or_introl eq_refl)). apply IH. intros r' Hr'. apply H. now right.
Qed.

Lemma Qeq_bool_same : forall q : Q, Qeq_bool q q = true.
Proof.
  intros q. apply Qeq_bool_iff. apply Qeq_refl.
Qed.

(** The group of the scenario, scanned with windows of width 1 and the
    tolerance 0.02: every window holds one observation only, so that the
    range is 0 from the first position on and never leaves the tolerance;
    the second loop runs to the end of the list and the end of the range
    is the value 1000 of the open range. *)
Lemma scenario_group_row : forall B : list ssrow,
  (forall r, In r B -> Qeq_bool (by_mode m r) g = false) ->
  steady_group 1 (2 # 100) m (Spec.scenario_group m g ++ B) g
  = Ok (Some (steady_row m g 0 1000)).
Proof.
  intros B HB. unfold steady_group.
  rewrite filter_app, (filter_other_groups B HB), app_nil_r.
  assert (Hf : filter (fun r => Qeq_bool (by_mode m r) g) (Spec.scenario_group m g)
               = Spec.scenario_group m g).
  { unfold Spec.scenario_group. destruct m; simpl; rewrite !Qeq_bool_same; reflexivity. }
  rewrite Hf. destruct m; reflexivity.
Qed.

End ScenarioFacts.

(** C2 (as the code has it).  For the group with the metric values 0.10,
    0.10, 0.11 and 0.50 at the scan positions 0, 1, 2 and 3, window width 1
    and tolerance 0.02, whatever the other groups are and in both modes,
    the detector reports for that group the range that starts at 0 and
    ends at 1000, the value that stands for a range that is still open at
    the last position. *)
Theorem steady_scenario_reports_open_range :
  forall (m : InterfaceMetrics.mode) (g : Q) (B : list InterfaceMetrics.ssrow)
         (units : string * string),
    (forall r, In r B -> Qeq_bool (InterfaceMetrics.by_mode m r) g = false) ->
    exists tbl rest,
      InterfaceMetrics.steadyList 1 (2 # 100) m
        (Some (Spec.scenario_group m g ++ B, Some units)) = Py.Ok tbl
      /\ InterfaceMetrics.rows tbl
         = (match m with
            | InterfaceMetrics.Xbehind => InterfaceMetrics.round3 g
            | InterfaceMetrics.Time => g
            end, 0, 1000) :: rest.
Proof.
  intros m g B [ux ut] HB. unfold InterfaceMetrics.steadyList.
  assert (Hlen : (List.length (Spec.scenario_group m g ++ B) <? 2)%nat = false).
  { rewrite length_app. unfold Spec.scenario_group. simpl. reflexivity. }
  rewrite Hlen.
  assert (Hu : exists list1,
             InterfaceMetrics.unique
               (map (InterfaceMetrics.by_mode m) (Spec.scenario_group m g ++ B))
             = g :: list1).
  { unfold Spec.scenario_group. destruct m; simpl; eexists; reflexivity. }
  destruct Hu as [list1 Hu]. rewrite Hu. cbn [InterfaceMetrics.steady_groups].
  rewrite (scenario_group_row m g B HB). cbn [Py.bind].
  destruct (@steady_groups_return 1 (2 # 100) m (Spec.scenario_group m g ++ B) list1)
    as [rs Hrs]; [reflexivity|].
  rewrite Hrs. cbn [Py.bind]. eexists. exists rs. split; [reflexivity|].
  cbn [InterfaceMetrics.rows]. destruct m; reflexivity.
Qed.

(** Counterexample to C2 as stated: with a second group at time 2, the
    detector reports the rows (1, 0, 1000) and (2, 0, 1000); no range ends
    at 2. *)
Lemma steady_scenario_does_not_end_at_2 :
  InterfaceMetrics.steadyPos 1 (2 # 100)
    (Some (Scenarios.two_groups, Some ("mm", "s")%string))
  = Py.Ok (InterfaceMetrics.mkTable ["t"; "x0"; "xf"]%string
             (Some ("s", "mm", "mm")%string) [(1, 0, 1000); (2, 0, 1000)]%Q)
  /\ (forall t x0 xf, In (t, x0, xf) [(1, 0, 1000); (2, 0, 1000)]%Q -> ~ (xf == 2)%Q).
Proof.
  split; [vm_compute; reflexivity|].
  intros t x0 xf [H|[H|[]]]; inversion H; subst; intros E; vm_compute in E; discriminate E.
Qed.

(** The theorem at the two groups of the scenario, grouped by time. *)
Lemma steady_scenario_reports_open_range_witness :
  exists tbl rest,
    InterfaceMetrics.steadyList 1 (2 # 100) InterfaceMetrics.Time
      (Some (Scenarios.two_groups, Some ("mm", "s")%string)) = Py.Ok tbl
    /\ InterfaceMetrics.rows tbl = (1, 0, 1000)%Q :: rest.
Proof.
  apply (@steady_scenario_reports_open_range InterfaceMetrics.Time 1
           [InterfaceMetrics.mkRow 0 2 (30 # 100); InterfaceMetrics.mkRow 1 2 (30 # 100)]
           ("mm", "s")%string).
  intros r [H|[H|[]]]; subst; reflexivity.
Defined.

(* ================================================================== *)
(** * Theorems: the survival model *)
(* ================================================================== *)

Section SurvivalFacts.
Import Py PlotMetrics.
Open Scope R_scope.

(** ** Tracks *)



(** When a sample is taken, the velocity on record is that of the sample. *)
Lemma addStep_takes : forall self r,
  zlist self <> [] ->
  ~ row_magu r < 0.1 * last_of (vlist self) ->
  vlist (addStep self r) = (vlist self ++ [row_magu r])%list
  /\ zlist (addStep self r) = (zlist self ++ [row_z r])%list.
Proof.
  intros self r Hz Hv. unfold addStep.
  destruct (zlist self) as [|z zs]; [congruence|].
  destruct (Rlt_dec (row_magu r) (0.1 * last_of (vlist self))); [contradiction|].
  split; reflexivity.
Qed.

End SurvivalFacts.



Section FloatFacts.
Import PlotMetricsFloat.
Open Scope R_scope.

(** The factor of a step is a number of [0, 1]. *)
Lemma min_1_fraction : forall ar z,
  Spec.numpy_like ar -> Spec.fraction (min_1 (f_exp ar z)).
Proof.
  intros ar z [Hexp _]. specialize (Hexp z). unfold min_1, Spec.fraction.
  destruct (f_exp ar z) as [y| | |]; simpl.
  - destruct (Rlt_dec y 1); [exists y | exists 1]; (split; [reflexivity | lra]).
  - exists 1. split; [reflexivity | lra].
  - destruct Hexp.
  - exists 1. split; [reflexivity | lra].
Qed.

(** A step leaves the survival fraction and its list as they are, or
    multiplies the survival fraction by the factor of the step and appends
    the product to the list. *)
Lemma addStep_totalI_cases : forall ar self r,
  (totalI (addStep ar self r) = totalI self /\ Ilist (addStep ar self r) = Ilist self)
  \/ (exists z,
         totalI (addStep ar self r) = f_mul ar (totalI self) (min_1 (f_exp ar z))
         /\ Ilist (addStep ar self r)
            = (Ilist self ++ [totalI (addStep ar self r)])%list).
Proof.
  intros ar self r. unfold addStep.
  destruct (zlist self) as [|z zs]; [left; split; reflexivity|].
  destruct (flt (row_magu r) (f_mul ar (Num 0.1) (last_of (vlist self))));
    [left; split; reflexivity|].
  right. eexists. split; reflexivity.
Qed.

Lemma addStep_fraction : forall ar self r t,
  Spec.numpy_like ar ->
  totalI self = Num t -> 0 <= t <= 1 ->
  exists t', totalI (addStep ar self r) = Num t' /\ 0 <= t' <= t.
Proof.
  intros ar self r t Hn Et Ht.
  destruct (addStep_totalI_cases ar self r) as [[E _]|[z [E _]]]; rewrite E.
  - exists t. split; [exact Et | lra].
  - destruct (@min_1_fraction ar z Hn) as [f [Ef Hf]]. rewrite Ef, Et.
    destruct Hn as [_ Hmul]. apply Hmul; assumption.
Qed.

Lemma built_fraction : forall ar self,
  Spec.numpy_like ar -> built ar self -> Spec.fraction (totalI self).
Proof.
  intros ar self Hn H. induction H as [rb a b c|self r H [t [Et Ht]]].
  - exists 1. split; [reflexivity | lra].
  - destruct (@addStep_fraction ar self r t Hn Et Ht) as [t' [Et' Ht']].
    exists t'. split; [exact Et' | lra].
Qed.

(** The exact operations are as the survival fraction needs them. *)
Lemma extended_numpy_like : Spec.numpy_like Scenarios.extended.
Proof.
  split.
  - intros [a| | |]; simpl; try exact I; try lra.
    left. apply exp_pos.
  - intros x y Hx Hy. exists (x * y). split; [reflexivity|]. nra.
Qed.

Lemma track_still_built : built Scenarios.extended Scenarios.track_still.
Proof.
  unfold Scenarios.track_still. repeat constructor.
Qed.

(** The second sample at rest: the distance 1 over the velocity 0 is a
    time step [inf], the exponent is [-inf], the factor is 0. *)
Lemma track_still_totalI : totalI Scenarios.track_still = Num 0.
Proof.
  assert (Hd : (-5 + - -4) * (-5 + - -4) + (0 + - 0) * (0 + - 0) = 1) by ring.
  assert (Hp : 0 < Rpower 1 (1 / 2)) by (unfold Rpower; apply exp_pos).
  unfold Scenarios.track_still, addStep. cbn.
  unfold last_of. cbn.
  unfold Scenarios.ext_sub, Scenarios.ext_pow. cbn.
  repeat (match goal with
         | |- context [Req_dec_T ?a ?b] => destruct (Req_dec_T a b); try (exfalso; lra)
         | |- context [Rlt_dec ?a ?b] => destruct (Rlt_dec a b); try (exfalso; lra)
         | |- context [Rle_dec ?a ?b] => destruct (Rle_dec a b); try (exfalso; lra)
         end; cbn; rewrite ?Hd, ?sqrt_1).
  unfold Scenarios.times_inf.
  repeat (match goal with
         | |- context [Req_dec_T ?a ?b] => destruct (Req_dec_T a b); try (exfalso; nra)
         | |- context [Rlt_dec ?a ?b] => destruct (Rlt_dec a b); try (exfalso; nra)
         | |- context [Rle_dec ?a ?b] => destruct (Rle_dec a b); try (exfalso; nra)
         end; cbn).
  unfold min_1, flt.
  destruct (Rlt_dec 0 1); [|exfalso; lra].
  f_equal. ring.
Qed.
End FloatFacts.

(** C9 (as the code has it).  A fresh track has the survival fraction 1.
    With operations on floats whose [exp] is never negative and whose
    products of numbers of [0, 1] stay between 0 and the first factor, the
    survival fraction of every track that the code can build is a number
    of the closed interval [0, 1], and after one more step it is a number
    between 0 and what it was: no step increases it.  It can be 0. *)
Theorem survival_fraction_in_unit_interval :
  (forall rbar a b c : PlotMetricsFloat.float,
      PlotMetricsFloat.totalI (PlotMetricsFloat.init rbar a b c) = PlotMetricsFloat.Num 1)
  /\ (forall (ar : PlotMetricsFloat.arithmetic) (self : PlotMetricsFloat.survival),
         Spec.numpy_like ar ->
         PlotMetricsFloat.built ar self ->
         exists t : R,
           PlotMetricsFloat.totalI self = PlotMetricsFloat.Num t
           /\ (0 <= t <= 1)%R
           /\ (forall r : PlotMetricsFloat.row,
                  exists t' : R,
                    PlotMetricsFloat.totalI (PlotMetricsFloat.addStep ar self r)
                    = PlotMetricsFloat.Num t'
                    /\ (0 <= t' <= t)%R)).
Proof.
  split; [reflexivity|].
  intros ar self Hn Hb. destruct (built_fraction Hn Hb) as [t [Et Ht]].
  exists t. split; [exact Et|]. split; [exact Ht|].
  intros r. now apply addStep_fraction.
Qed.

(** Counterexample to C9 as stated: the track [survival(0)] fed two
    samples at rest, 1 mm apart.  The first one gives the position; at the
    second one the velocity 0 is not below a tenth of the velocity 0 on
    record, the time step 1/0 is [inf], [exp(-inf)] is 0, and the survival
    fraction is 0, which is not in (0, 1]. *)
Lemma survival_fraction_reaches_0 :
  PlotMetricsFloat.totalI
    (PlotMetricsFloat.addStep Scenarios.extended
       (PlotMetricsFloat.addStep Scenarios.extended
          (PlotMetricsFloat.init (PlotMetricsFloat.Num 0)
             (PlotMetricsFloat.Num (1 / 10000)) (PlotMetricsFloat.Num (1 / 2))
             (PlotMetricsFloat.Num (1 / 2)))
          Scenarios.still_1)
       Scenarios.still_2)
  = PlotMetricsFloat.Num 0
  /\ ~ (0 < 0 <= 1)%R.
Proof.
  split; [exact track_still_totalI | lra].
Qed.

(** The theorem at the track of the two samples at rest, with the exact
    operations: its survival fraction is a number of [0, 1], and no further
    sample increases it. *)
Lemma survival_fraction_in_unit_interval_witness :
  exists t : R,
    PlotMetricsFloat.totalI Scenarios.track_still = PlotMetricsFloat.Num t
    /\ (0 <= t <= 1)%R
    /\ (forall r : PlotMetricsFloat.row,
           exists t' : R,
             PlotMetricsFloat.totalI
               (PlotMetricsFloat.addStep Scenarios.extended Scenarios.track_still r)
             = PlotMetricsFloat.Num t'
             /\ (0 <= t' <= t)%R).
Proof.
  destruct survival_fraction_in_unit_interval as [_ H].
  apply (H Scenarios.extended Scenarios.track_still).
  - exact extended_numpy_like.
  - exact track_still_built.
Defined.

Section BinFacts.
Import Py PlotMetrics.
Open Scope R_scope.

Lemma Int_part_unit : forall r : R, 0 <= r < 1 -> Int_part r = 0%Z.
Proof.
  intros r H. symmetry. apply Int_part_spec. simpl. lra.
Qed.

Lemma round5_0 : round5 0 = 0.
Proof.
  unfold round5, round_half_even.
  assert (E : Int_part (0 * 100000) = 0%Z) by (apply Int_part_unit; lra).
  rewrite E. simpl.
  destruct (Rlt_dec (0 * 100000 - 0) (1 / 2)); [simpl; lra | exfalso; lra].
Qed.

(** Below one bin width the truncation gives the bin 0. *)
Lemma rbar_bin_below_dr : forall dr rbar : R,
  0 < dr -> 0 <= rbar < dr -> rbar_bin dr rbar = 0.
Proof.
  intros dr rbar Hdr Hr. unfold rbar_bin, trunc.
  assert (Hq : 0 <= rbar / dr < 1).
  { split.
    - apply Rmult_le_pos; [lra|]. left. now apply Rinv_0_lt_compat.
    - apply (Rmult_lt_reg_r dr); [exact Hdr|].
      unfold Rdiv. rewrite Rmult_assoc, Rinv_l; lra. }
  destruct (Rle_dec 0 (rbar / dr)); [|exfalso; lra].
  rewrite (Int_part_unit Hq). simpl. rewrite Rmult_0_l. apply round5_0.
Qed.

Lemma point_near_axis_rbar :
  rbar_exact Scenarios.straight_nozzle Scenarios.point_near_axis = 4 / 100.
Proof.
  unfold rbar_exact, tana. simpl.
  replace (0 * PI / 180) with 0 by lra. rewrite tan_0, Rabs_R0.
  replace ((- (2 / 100) - 0) * ((- (2 / 100) - 0) * 1) + (0 - 0) * ((0 - 0) * 1))
    with ((2 / 100) * (2 / 100)) by lra.
  rewrite sqrt_square by lra. lra.
Qed.

End BinFacts.

(** C6 on the code: with the bin width 0.05, a point at the normalized
    radius 0.04 (0.02 from the axis of a straight nozzle of inner width 1)
    is put into the bin 0, although the bin boundary 0.05 is nearer to it
    (0.01 away) than 0 is (0.04 away): [int()] truncates where the comment
    of the line says that it rounds to the closest. *)
Theorem rbar_bin_truncates :
  PlotMetrics.rbar_exact Scenarios.straight_nozzle Scenarios.point_near_axis = (4 / 100)%R
  /\ PlotMetrics.rbar_bin (5 / 100)
       (PlotMetrics.rbar_exact Scenarios.straight_nozzle Scenarios.point_near_axis) = 0%R
  /\ (Rabs (4 / 100 - 1 * (5 / 100)) < Rabs (4 / 100 - 0 * (5 / 100)))%R.
Proof.
  split; [apply point_near_axis_rbar|]. split.
  - rewrite point_near_axis_rbar. apply rbar_bin_below_dr; lra.
  - rewrite Rabs_left by lra. rewrite Rabs_right by lra. lra.
Qed.

Section RateFacts.
Import Py PlotMetrics.
Open Scope R_scope.

Lemma filter_none : forall (A : Type) (f : A -> bool) (l : list A),
  (forall x, In x l -> f x = false) -> filter f l = [].
Proof.
  induction l as [|x l IH]; intros H; simpl; [reflexivity|].
  rewrite (H x (or_introl eq_refl)). apply IH. intros y Hy. apply H. now right.
Qed.

(** Points at rest are no sample for any bin. *)
Lemma step_bin_at_rest : forall df0 rz rb,
  (forall pr, In pr df0 -> ~ 0 < np_magu (fst pr)) ->
  step_bin df0 rz rb = rz.
Proof.
  intros df0 rz rb H. unfold step_bin. rewrite filter_none; [reflexivity|].
  intros pr Hpr. destruct (Rlt_dec 0 (np_magu (fst pr))) as [Hm|Hm].
  - exfalso. now apply (H pr).
  - apply andb_false_r.
Qed.

Lemma step_plane_at_rest : forall df rbarlist rz z,
  (forall pr, In pr df -> ~ 0 < np_magu (fst pr)) ->
  step_plane df rbarlist rz z = rz.
Proof.
  intros df rbarlist rz z H. unfold step_plane.
  set (df0 := filter _ df).
  assert (H0 : forall pr, In pr df0 -> ~ 0 < np_magu (fst pr)).
  { intros pr Hpr. apply H. unfold df0 in Hpr. now apply filter_In in Hpr. }
  clearbody df0. revert rz.
  induction rbarlist as [|rb l IH]; intros rz; simpl; [reflexivity|].
  rewrite (@step_bin_at_rest df0 rz rb H0). apply IH.
Qed.

Lemma planes_at_rest : forall df rbarlist zl rz,
  (forall pr, In pr df -> ~ 0 < np_magu (fst pr)) ->
  fold_left (step_plane df rbarlist) zl rz = rz.
Proof.
  intros df rbarlist zl rz H. revert rz.
  induction zl as [|z zl IH]; intros rz; simpl; [reflexivity|].
  rewrite (@step_plane_at_rest df rbarlist rz z H). apply IH.
Qed.

Lemma insert_unique_nonempty : forall r l, insert_unique r l <> [].
Proof.
  intros r [|h t]; simpl; [discriminate|].
  destruct (Rlt_dec r h); [discriminate|].
  destruct (Req_dec_T r h); discriminate.
Qed.

Lemma sort_unique_nonempty : forall l, l <> [] -> sort_unique l <> [].
Proof.
  intros l Hl. unfold sort_unique.
  assert (H : forall l acc, acc <> [] ->
                            fold_left (fun acc r => insert_unique r acc) l acc <> []).
  { induction l0 as [|r l0 IH]; intros acc Ha; simpl; [exact Ha|].
    apply IH. apply insert_unique_nonempty. }
  destruct l as [|r l]; [congruence|]. simpl. apply H. discriminate.
Qed.

(** With a plane to cover, a track without any position is too short. *)
Lemma fresh_tracks_not_covered : forall (n : nat) a b c keys,
  (0 < n)%nat ->
  filter (fun kv => covered n (snd kv)) (map (fun rb => (rb, init rb a b c)) keys) = [].
Proof.
  intros n a b c keys Hn. apply filter_none. intros kv Hkv.
  apply in_map_iff in Hkv. destruct Hkv as [rb [E _]]. subst kv. simpl.
  unfold covered. simpl.
  destruct (Rlt_dec 0 (0.9 * INR n)) as [H|H]; [reflexivity|].
  exfalso. apply H. apply lt_0_INR in Hn. lra.
Qed.

(** A cloud whose restricted points are all at rest, and not none, leaves
    no bin: every track is discarded by the test of the coverage. *)
Lemma survivalCalc_at_rest : forall df le a b c dr rbarlist normval,
  restricted le dr df <> [] ->
  (forall pr, In pr (restricted le dr df) -> ~ 0 < np_magu (fst pr)) ->
  survivalCalc df le a b c dr rbarlist normval = [].
Proof.
  intros df le a b c dr rbarlist normval Hne Hrest. unfold survivalCalc.
  destruct df as [|p df]; [reflexivity|].
  rewrite (@planes_at_rest _ _ _ _ Hrest).
  rewrite fresh_tracks_not_covered.
  - destruct normval; reflexivity.
  - assert (Hs : sort_unique (map (fun pr => np_z (fst pr)) (restricted le dr (p :: df))) <> []).
    { apply sort_unique_nonempty. destruct (restricted le dr (p :: df)); [congruence|].
      simpl. discriminate. }
    destruct (sort_unique _); [congruence | simpl; lia].
Qed.

(** The point at rest of the scenario passes the restriction to the
    central plane and the front half. *)
Lemma point_at_rest_restricted : forall dr,
  restricted Scenarios.straight_nozzle dr [Scenarios.point_at_rest] <> []
  /\ (forall pr, In pr (restricted Scenarios.straight_nozzle dr [Scenarios.point_at_rest]) ->
                 ~ 0 < np_magu (fst pr)).
Proof.
  intros dr. unfold restricted. simpl.
  repeat (match goal with
          | |- context [Rlt_dec ?x ?y] =>
              destruct (Rlt_dec x y); [|exfalso; lra]; simpl
          end).
  split; [discriminate|].
  intros pr [E|[]]. subst pr. simpl. lra.
Qed.

End RateFacts.

(** C10.  An empty point cloud makes [survivalCalc] answer the empty
    collection, and whenever [survivalCalc] answers the empty collection,
    be it for an empty cloud or because every bin was discarded,
    [survivalRate] answers no value: the division of the sum 0 by the total
    weight 0 raises [ZeroDivisionError]. *)
Theorem survivalRate_without_bins_raises :
  forall (df : list PlotMetrics.npoint) (le : PlotMetrics.legend) (a b c dr : R)
         (rbarlist : option (list R)) (normval : option R),
    PlotMetrics.survivalCalc [] le a b c dr rbarlist normval = []
    /\ PlotMetrics.survivalRateRZ [] dr = Py.Raise Py.ZeroDivisionError
    /\ (PlotMetrics.survivalCalc df le a b c dr rbarlist normval = [] ->
        PlotMetrics.survivalRate df le a b c dr rbarlist normval
        = Py.Raise Py.ZeroDivisionError).
Proof.
  intros df le a b c dr rbarlist normval. split; [reflexivity|]. split; [reflexivity|].
  intros H. unfold PlotMetrics.survivalRate. rewrite H. reflexivity.
Qed.

(** The theorem at the empty cloud, and at a cloud of one point at rest,
    whose bins are all discarded because no track covers the one plane. *)
Lemma survivalRate_without_bins_raises_witness :
  PlotMetrics.survivalRate [] Scenarios.straight_nozzle (1 / 1000) (1 / 2) (1 / 2) (5 / 100)
    None None = Py.Raise Py.ZeroDivisionError
  /\ PlotMetrics.survivalRate [Scenarios.point_at_rest] Scenarios.straight_nozzle
       (1 / 1000) (1 / 2) (1 / 2) (5 / 100) None None = Py.Raise Py.ZeroDivisionError.
Proof.
  split.
  - apply (survivalRate_without_bins_raises [] Scenarios.straight_nozzle
             (1 / 1000) (1 / 2) (1 / 2) (5 / 100) None None).
    reflexivity.
  - apply (survivalRate_without_bins_raises [Scenarios.point_at_rest]
             Scenarios.straight_nozzle (1 / 1000) (1 / 2) (1 / 2) (5 / 100) None None).
    destruct (point_at_rest_restricted (5 / 100)) as [Hne Hrest].
    now apply survivalCalc_at_rest.
Defined.

(* ================================================================== *)
(** * Further theorems: the survival tracks *)
(* ================================================================== *)

Section TrackFacts.
Import Py PlotMetrics.
Open Scope R_scope.

(** A list in the order [R] stays so when a value that the last element is
    related to is appended. *)
Lemma Sorted_snoc : forall (A : Type) (R : A -> A -> Prop) (d : A) (l : list A) (x : A),
  Sorted R l -> (l <> [] -> R (last l d) x) -> Sorted R (l ++ [x])%list.
Proof.
  intros A R d l x Hs. induction Hs as [|a l Hs IH Hh]; intros Hx; simpl.
  - repeat constructor.
  - constructor.
    + apply IH. intros Hne. destruct l as [|b l']; [congruence|].
      apply Hx. discriminate.
    + destruct Hh as [|b l' Hab]; simpl; constructor.
      * apply Hx. discriminate.
      * exact Hab.
Qed.

Lemma last_of_snoc : forall (l : list R) (x : R), last_of (l ++ [x])%list = x.
Proof.
  intros l x. unfold last_of. apply last_last.
Qed.

(** The three cases of [addStep]. *)
Lemma addStep_cases : forall self r,
  (zlist self = [] /\
   addStep self r
   = mkSurvival (rbar self) (zlist self ++ [row_z r]) (xlist self ++ [row_x r])
       (totalI self) (Ilist self) (tlist self) (dtlist self) (taulist self) (vlist self)
       (coef_a self) (coef_b self) (coef_c self))
  \/ (zlist self <> [] /\ row_magu r < 0.1 * last_of (vlist self) /\ addStep self r = self)
  \/ (zlist self <> [] /\ ~ row_magu r < 0.1 * last_of (vlist self) /\
      exists dt f,
        dt = sqrt ((last_of (zlist self) - row_z r) ^ 2 + (last_of (xlist self) - row_x r) ^ 2)
             / row_magu r
        /\ f = Rmin 1 (exp (- coef_a self * float_pow (row_shearstressmag r) (coef_b self)
                              * float_pow dt (coef_c self)))
        /\ addStep self r
           = mkSurvival (rbar self) (zlist self ++ [row_z r]) (xlist self ++ [row_x r])
               (totalI self * f) (Ilist self ++ [totalI self * f])
               (tlist self ++ [last_of (tlist self) + dt]) (dtlist self ++ [dt])
               (taulist self ++ [row_shearstressmag r]) (vlist self ++ [row_magu r])
               (coef_a self) (coef_b self) (coef_c self)).
Proof.
  intros self r. unfold addStep. destruct (zlist self) as [|z zs] eqn:E.
  - left. split; reflexivity.
  - right. destruct (Rlt_dec (row_magu r) (0.1 * last_of (vlist self))) as [H|H].
    + left. split; [discriminate|]. split; [exact H | reflexivity].
    + right. split; [discriminate|]. split; [exact H|].
      eexists. eexists. split; [reflexivity|]. split; reflexivity.
Qed.

(** The lists of a track stay aligned. *)
Lemma built_aligned : forall self,
  built self ->
  List.length (xlist self) = List.length (zlist self)
  /\ List.length (Ilist self) = Nat.max 1 (List.length (zlist self))
  /\ List.length (tlist self) = Nat.max 1 (List.length (zlist self))
  /\ List.length (dtlist self) = Nat.max 1 (List.length (zlist self))
  /\ List.length (taulist self) = Nat.max 1 (List.length (zlist self))
  /\ List.length (vlist self) = Nat.max 1 (List.length (zlist self)).
Proof.
  intros self H. induction H as [rb a b c|self r H IH].
  - simpl. repeat split; reflexivity.
  - destruct IH as [Hx [HI [Ht [Hd [Hu Hv]]]]].
    assert (Hlen : zlist self <> [] -> (0 < List.length (zlist self))%nat).
    { destruct (zlist self) as [|z0 zs]; [congruence|]. intros _. simpl. apply Nat.lt_0_succ. }
    destruct (addStep_cases self r) as [[Hz E]|[[Hz [_ E]]|[Hz [_ [dt [f [_ [_ E]]]]]]]];
      rewrite E; cbn [xlist zlist Ilist tlist dtlist taulist vlist].
    + rewrite !length_app. rewrite Hz in *. cbn [List.length] in *. repeat split; lia.
    + repeat split; assumption.
    + rewrite !length_app. cbn [List.length]. specialize (Hlen Hz). repeat split; lia.
Qed.

End TrackFacts.

Section FloatHistoryFacts.
Import PlotMetricsFloat.
Open Scope R_scope.

(** The list of the survival fractions ends in the current one, holds
    numbers of [0, 1] only, and never goes up. *)
Lemma built_Ilist : forall ar self,
  Spec.numpy_like ar ->
  built ar self ->
  last_of (Ilist self) = totalI self
  /\ Ilist self <> []
  /\ Forall Spec.fraction (Ilist self)
  /\ Sorted Spec.not_above (Ilist self).
Proof.
  intros ar self Hn H. induction H as [rb a b c|self r H IH].
  - simpl. unfold last_of. simpl. repeat split; try discriminate.
    + constructor; [|constructor]. exists 1. split; [reflexivity | lra].
    + repeat constructor.
  - destruct (built_fraction Hn H) as [t [Et Ht]].
    destruct (@addStep_fraction ar self r t Hn Et Ht) as [t' [Et' Ht']].
    destruct IH as [Hl [Hne [Hf Hs]]].
    destruct (addStep_totalI_cases ar self r) as [[E1 E2]|[z [_ E2]]]; rewrite E2.
    + rewrite E1. repeat split; assumption.
    + repeat split.
      * unfold last_of. apply last_last.
      * intros E'. destruct (Ilist self); discriminate E'.
      * apply Forall_app. split; [exact Hf|]. constructor; [|constructor].
        exists t'. split; [exact Et' | lra].
      * apply Sorted_snoc with (d := Num 0); [exact Hs|].
        intros _. fold (last_of (Ilist self)). rewrite Hl.
        exists t, t'. repeat split; [exact Et | exact Et' | lra].
Qed.

End FloatHistoryFacts.

Section FedFacts.
Import Py PlotMetrics Inv.
Open Scope R_scope.

Lemma fed_built : forall rows self, built self -> built (fold_left addStep rows self).
Proof.
  induction rows as [|r rows IH]; intros self H; simpl; [exact H|].
  apply IH. now constructor.
Qed.

Lemma addStep_coefs : forall self r,
  coef_a (addStep self r) = coef_a self
  /\ coef_b (addStep self r) = coef_b self
  /\ coef_c (addStep self r) = coef_c self
  /\ rbar (addStep self r) = rbar self.
Proof.
  intros self r.
  destruct (addStep_cases self r) as [[_ E]|[[_ [_ E]]|[_ [_ [dt [f [_ [_ E]]]]]]]];
    rewrite E; simpl; repeat split; reflexivity.
Qed.

(** Without stress a step leaves the survival fraction alone. *)
Lemma addStep_zero_stress : forall self r,
  row_shearstressmag r = 0 -> coef_b self <> 0 ->
  totalI (addStep self r) = totalI self.
Proof.
  intros self r Htau Hb.
  destruct (addStep_cases self r) as [[_ E]|[[_ [_ E]]|[_ [_ [dt [f [_ [Ef E]]]]]]]];
    rewrite E; simpl; try reflexivity.
  assert (Hp : float_pow (row_shearstressmag r) (coef_b self) = 0).
  { rewrite Htau. unfold float_pow.
    destruct (Req_dec_T 0 0) as [_|H0]; [|exfalso; now apply H0].
    destruct (Req_dec_T (coef_b self) 0); [contradiction | reflexivity]. }
  rewrite Hp in Ef.
  replace (- coef_a self * 0 * float_pow dt (coef_c self)) with 0 in Ef by ring.
  rewrite exp_0 in Ef. subst f. rewrite Rmin_left by lra. ring.
Qed.

Lemma fold_zero_stress : forall rows self,
  Forall (fun r => row_shearstressmag r = 0) rows -> coef_b self <> 0 ->
  totalI (fold_left addStep rows self) = totalI self.
Proof.
  induction rows as [|r rows IH]; intros self Hf Hb; simpl; [reflexivity|].
  inversion Hf as [|? ? Hr Hrows]; subst.
  rewrite IH.
  - now apply addStep_zero_stress.
  - exact Hrows.
  - destruct (addStep_coefs self r) as [_ [E _]]. now rewrite E.
Qed.

Lemma Rsum_snoc : forall l x, Rsum (l ++ [x])%list = Rsum l + x.
Proof.
  induction l as [|h t IH]; intros x; simpl; [lra|]. rewrite IH. lra.
Qed.

Lemma addStep_clock : forall self r,
  0 < row_magu r -> clock_ok self -> clock_ok (addStep self r).
Proof.
  intros self r Hv [Hne [Hs [Hd Hl]]].
  destruct (addStep_cases self r) as [[_ E]|[[_ [_ E]]|[_ [_ [dt [f [Edt [_ E]]]]]]]];
    rewrite E; unfold clock_ok; simpl; try (repeat split; assumption).
  assert (Hdt : 0 <= dt).
  { subst dt. apply Rmult_le_pos; [apply sqrt_pos|].
    left. now apply Rinv_0_lt_compat. }
  repeat split.
  - intros E'. destruct (tlist self); discriminate E'.
  - apply Sorted_snoc with (d := 0); [exact Hs|].
    intros _. fold (last_of (tlist self)). lra.
  - apply Forall_app. split; [exact Hd|]. constructor; [exact Hdt | constructor].
  - rewrite last_of_snoc, Rsum_snoc. lra.
Qed.

Lemma fold_clock : forall rows self,
  Forall (fun r => 0 < row_magu r) rows -> clock_ok self ->
  clock_ok (fold_left addStep rows self).
Proof.
  induction rows as [|r rows IH]; intros self Hf Hc; simpl; [exact Hc|].
  inversion Hf as [|? ? Hr Hrows]; subst.
  apply IH; [exact Hrows|]. now apply addStep_clock.
Qed.

Lemma init_clock : forall rb a b c, clock_ok (init rb a b c).
Proof.
  intros rb a b c. unfold clock_ok, last_of. simpl. repeat split.
  - discriminate.
  - repeat constructor.
  - constructor; [lra | constructor].
  - lra.
Qed.

End FedFacts.

(** X1.  The lists of a track stay aligned: there are as many x positions
    as z positions, and the lists of the survival fractions, the times, the
    time steps, the stresses and the velocities all have the length of the
    list of positions, or the length 1 as long as there is no position. *)
Theorem track_histories_stay_aligned :
  forall self : PlotMetrics.survival,
    PlotMetrics.built self ->
    List.length (PlotMetrics.xlist self) = List.length (PlotMetrics.zlist self)
    /\ List.length (PlotMetrics.Ilist self)
       = Nat.max 1 (List.length (PlotMetrics.zlist self))
    /\ List.length (PlotMetrics.tlist self)
       = Nat.max 1 (List.length (PlotMetrics.zlist self))
    /\ List.length (PlotMetrics.dtlist self)
       = Nat.max 1 (List.length (PlotMetrics.zlist self))
    /\ List.length (PlotMetrics.taulist self)
       = Nat.max 1 (List.length (PlotMetrics.zlist self))
    /\ List.length (PlotMetrics.vlist self)
       = Nat.max 1 (List.length (PlotMetrics.zlist self)).
Proof.
  intros self H. now apply built_aligned.
Qed.

Lemma track_histories_stay_aligned_witness :
  List.length (PlotMetrics.xlist Scenarios.track_2) = 2%nat
  /\ List.length (PlotMetrics.vlist Scenarios.track_2) = 2%nat.
Proof.
  assert (Hb : PlotMetrics.built Scenarios.track_2)
    by (unfold Scenarios.track_2; repeat constructor).
  destruct (track_histories_stay_aligned Hb) as [Hx [_ [_ [_ [_ Hv]]]]].
  assert (Hz : List.length (PlotMetrics.zlist Scenarios.track_2) = 2%nat).
  { unfold Scenarios.track_2.
    destruct (@addStep_takes
                (PlotMetrics.addStep (PlotMetrics.init 0 (1 / 100) (1 / 2) (1 / 2))
                   Scenarios.sample_1)
                Scenarios.sample_2) as [_ Hz].
    - simpl. discriminate.
    - simpl. unfold PlotMetrics.last_of. simpl. lra.
    - rewrite Hz. reflexivity. }
  rewrite Hx, Hv, Hz. split; reflexivity.
Defined.

(** X2.  On floats, with operations whose [exp] is never negative and
    whose products of numbers of [0, 1] stay between 0 and the first
    factor: the list of the survival fractions of a track ends in the
    current survival fraction, holds numbers of the closed interval [0, 1]
    only, and never goes up from one entry to the next. *)
Theorem track_survival_history :
  forall (ar : PlotMetricsFloat.arithmetic) (self : PlotMetricsFloat.survival),
    Spec.numpy_like ar ->
    PlotMetricsFloat.built ar self ->
    PlotMetricsFloat.last_of (PlotMetricsFloat.Ilist self) = PlotMetricsFloat.totalI self
    /\ Forall Spec.fraction (PlotMetricsFloat.Ilist self)
    /\ Sorted Spec.not_above (PlotMetricsFloat.Ilist self).
Proof.
  intros ar self Hn H. destruct (built_Ilist Hn H) as [H1 [_ [H2 H3]]].
  repeat split; assumption.
Qed.

(** The theorem at the track of the two samples at rest, whose list of
    survival fractions is 1, 0. *)
Lemma track_survival_history_witness :
  PlotMetricsFloat.last_of (PlotMetricsFloat.Ilist Scenarios.track_still)
  = PlotMetricsFloat.totalI Scenarios.track_still
  /\ Forall Spec.fraction (PlotMetricsFloat.Ilist Scenarios.track_still)
  /\ Sorted Spec.not_above (PlotMetricsFloat.Ilist Scenarios.track_still).
Proof.
  apply (@track_survival_history Scenarios.extended Scenarios.track_still).
  - exact extended_numpy_like.
  - exact track_still_built.
Defined.

(** X3.  Samples without shear stress leave the survival fraction of a
    fresh track at 1, whatever their positions and velocities, for every
    exponent [b] above 0. *)
Theorem zero_stress_keeps_survival_1 :
  forall (rb a b c : R) (rows : list PlotMetrics.row),
    (0 < b)%R ->
    Forall (fun r => PlotMetrics.row_shearstressmag r = 0%R) rows ->
    PlotMetrics.totalI (Spec.fed rb a b c rows) = 1%R.
Proof.
  intros rb a b c rows Hb Hf. unfold Spec.fed.
  rewrite fold_zero_stress; [reflexivity | exact Hf | simpl; lra].
Qed.

Lemma zero_stress_keeps_survival_1_witness :
  PlotMetrics.totalI
    (Spec.fed 0 (1 / 100) (1 / 2) (1 / 2)
       [PlotMetrics.mkRow (-5) 0 10 0; PlotMetrics.mkRow (-4) 0 10 0]) = 1%R.
Proof.
  apply zero_stress_keeps_survival_1; [lra|].
  repeat constructor.
Defined.

(** X4.  When every sample has a velocity above 0, the time steps of a
    track are not negative, its times never go down, and its last time is
    the sum of its time steps. *)
Theorem track_times_accumulate :
  forall (rb a b c : R) (rows : list PlotMetrics.row),
    Forall (fun r => 0 < PlotMetrics.row_magu r)%R rows ->
    Forall (fun dt => 0 <= dt)%R (PlotMetrics.dtlist (Spec.fed rb a b c rows))
    /\ Sorted Rle (PlotMetrics.tlist (Spec.fed rb a b c rows))
    /\ PlotMetrics.last_of (PlotMetrics.tlist (Spec.fed rb a b c rows))
       = PlotMetrics.Rsum (PlotMetrics.dtlist (Spec.fed rb a b c rows)).
Proof.
  intros rb a b c rows Hf. unfold Spec.fed.
  destruct (@fold_clock rows (PlotMetrics.init rb a b c) Hf (init_clock rb a b c))
    as [_ [Hs [Hd Hl]]].
  repeat split; assumption.
Qed.

Lemma track_times_accumulate_witness :
  Sorted Rle
    (PlotMetrics.tlist
       (Spec.fed 0 (1 / 100) (1 / 2) (1 / 2) [Scenarios.sample_1; Scenarios.sample_2])).
Proof.
  apply (@track_times_accumulate 0 (1 / 100) (1 / 2) (1 / 2)
           [Scenarios.sample_1; Scenarios.sample_2]).
  repeat constructor; simpl; lra.
Defined.

Section BinTrackFacts.
Import Py PlotMetrics Inv.
Open Scope R_scope.

Lemma update_keys : forall key f rz, map fst (update key f rz) = map fst rz.
Proof.
  intros key f rz. induction rz as [|[k s] rz IH]; simpl; [reflexivity|].
  destruct (Req_dec_T k key); simpl; [reflexivity|]. now rewrite IH.
Qed.

Lemma update_Forall : forall (P : R * survival -> Prop) key f rz,
  (forall k s, P (k, s) -> P (k, f s)) ->
  Forall P rz -> Forall P (update key f rz).
Proof.
  intros P key f rz Hf H. induction H as [|[k s] rz Hx Hrz IH]; simpl; [constructor|].
  destruct (Req_dec_T k key); constructor; auto.
Qed.

Lemma step_bin_keeps : forall df0 rz rb,
  map fst (step_bin df0 rz rb) = map fst rz
  /\ (Forall bin_ok rz -> Forall bin_ok (step_bin df0 rz rb)).
Proof.
  intros df0 rz rb. unfold step_bin.
  destruct (filter _ df0) as [|p df1]; [split; [reflexivity | auto]|].
  split; [apply update_keys|].
  intros H. apply update_Forall; [|exact H].
  intros k s [Hk Hb]. split; simpl in *.
  - destruct (addStep_coefs s (mean_row (p :: df1))) as [_ [_ [_ E]]].
    now rewrite E.
  - now constructor.
Qed.

Lemma step_plane_keeps : forall df rbarlist rz z,
  map fst (step_plane df rbarlist rz z) = map fst rz
  /\ (Forall bin_ok rz -> Forall bin_ok (step_plane df rbarlist rz z)).
Proof.
  intros df rbarlist rz z. unfold step_plane.
  set (df0 := filter _ df). clearbody df0. revert rz.
  induction rbarlist as [|rb l IH]; intros rz; simpl; [split; [reflexivity | auto]|].
  destruct (IH (step_bin df0 rz rb)) as [E1 F1].
  destruct (step_bin_keeps df0 rz rb) as [E2 F2].
  split; [now rewrite E1 | auto].
Qed.

Lemma planes_keep : forall df rbarlist zl rz,
  map fst (fold_left (step_plane df rbarlist) zl rz) = map fst rz
  /\ (Forall bin_ok rz -> Forall bin_ok (fold_left (step_plane df rbarlist) zl rz)).
Proof.
  intros df rbarlist zl. induction zl as [|z zl IH]; intros rz; simpl;
    [split; [reflexivity | auto]|].
  destruct (IH (step_plane df rbarlist rz z)) as [E1 F1].
  destruct (step_plane_keeps df rbarlist rz z) as [E2 F2].
  split; [now rewrite E1 | auto].
Qed.

Lemma dict_keys_In : forall l k, In k (dict_keys l) -> In k l.
Proof.
  induction l as [|h t IH]; intros k H; simpl in *; [exact H|].
  destruct H as [H|H]; [now left|].
  apply filter_In in H. right. apply IH. tauto.
Qed.

Lemma NoDup_filter : forall (A : Type) (f : A -> bool) (l : list A),
  NoDup l -> NoDup (filter f l).
Proof.
  intros A f l H. induction H as [|x l Hx Hl IH]; simpl; [constructor|].
  destruct (f x); [|exact IH].
  constructor; [|exact IH]. intros Hin. apply filter_In in Hin. tauto.
Qed.

Lemma dict_keys_NoDup : forall l, NoDup (dict_keys l).
Proof.
  induction l as [|h t IH]; simpl; constructor.
  - intros H. apply filter_In in H. destruct H as [_ H].
    destruct (Req_dec_T h h) as [_|Hn]; [discriminate | now apply Hn].
  - now apply NoDup_filter.
Qed.

Lemma map_fst_filter_NoDup : forall (A B : Type) (f : A * B -> bool) (l : list (A * B)),
  NoDup (map fst l) -> NoDup (map fst (filter f l)).
Proof.
  intros A B f l. induction l as [|x l IH]; simpl; intros H; [constructor|].
  inversion H as [|? ? Hx Hl]; subst.
  destruct (f x); simpl; [|now apply IH].
  constructor; [|now apply IH].
  intros Hin. apply Hx. apply in_map_iff in Hin. destruct Hin as [y [Ey Hy]].
  apply in_map_iff. exists y. apply filter_In in Hy. tauto.
Qed.

Lemma map_fst_filter_In : forall (A B : Type) (f : A * B -> bool) (l : list (A * B)) k,
  In k (map fst (filter f l)) -> In k (map fst l).
Proof.
  intros A B f l k H. apply in_map_iff in H. destruct H as [y [Ey Hy]].
  apply in_map_iff. exists y. apply filter_In in Hy. tauto.
Qed.

(** The bins before the conversion of the units. *)
Lemma survivalCalc_bins : forall (df : list (npoint * R)) rbarlist a b c zl,
  let rz := filter (fun kv => covered (List.length zl) (snd kv))
              (fold_left (step_plane df rbarlist) zl
                 (map (fun rb => (rb, init rb a b c)) (dict_keys rbarlist))) in
  NoDup (map fst rz)
  /\ Forall (fun kv =>
       In (fst kv) rbarlist
       /\ rbar (snd kv) = fst kv
       /\ 0.9 * INR (List.length zl) <= INR (List.length (zlist (snd kv)))) rz.
Proof.
  intros df rbarlist a b c zl.
  set (rz0 := map (fun rb => (rb, init rb a b c)) (dict_keys rbarlist)).
  assert (Hk0 : map fst rz0 = dict_keys rbarlist).
  { unfold rz0. rewrite map_map. simpl. apply map_id. }
  assert (Hok0 : Forall bin_ok rz0).
  { unfold rz0. apply Forall_forall. intros kv Hin.
    apply in_map_iff in Hin. destruct Hin as [rb [E _]]. subst kv.
    split; simpl; [reflexivity | constructor]. }
  destruct (planes_keep df rbarlist zl rz0) as [Hk Hok].
  specialize (Hok Hok0).
  set (rz1 := fold_left (step_plane df rbarlist) zl rz0) in *.
  simpl. split.
  - apply map_fst_filter_NoDup. rewrite Hk, Hk0. apply dict_keys_NoDup.
  - apply Forall_forall. intros kv Hin.
    assert (Hin' := Hin). apply filter_In in Hin'. destruct Hin' as [Hin1 Hcov].
    assert (Hkv : bin_ok kv) by (eapply Forall_forall in Hok; eauto).
    destruct Hkv as [Hr Hb].
    repeat split.
    + apply dict_keys_In. rewrite <- Hk0, <- Hk.
      apply in_map_iff. exists kv. split; [reflexivity | exact Hin1].
    + exact Hr.
    + unfold covered in Hcov.
      destruct (Rlt_dec (INR (List.length (zlist (snd kv)))) (0.9 * INR (List.length zl)));
        [discriminate | lra].
Qed.

Lemma survivalCalc_ok : forall df le a b c dr rbarlist normval,
  NoDup (map fst (survivalCalc df le a b c dr rbarlist normval))
  /\ Forall (fun kv =>
       In (fst kv) (Spec.bins_asked dr rbarlist)
       /\ rbar (snd kv) = fst kv
       /\ 0.9 * INR (List.length (Spec.planes le dr df))
          <= INR (List.length (zlist (snd kv))))
     (survivalCalc df le a b c dr rbarlist normval).
Proof.
  intros df le a b c dr rbarlist normval. unfold survivalCalc.
  destruct df as [|p df]; [split; constructor|].
  set (dfr := restricted le dr (p :: df)).
  fold (Spec.bins_asked dr rbarlist).
  change (sort_unique (map (fun pr => np_z (fst pr)) dfr))
    with (Spec.planes le dr (p :: df)).
  destruct (survivalCalc_bins dfr (Spec.bins_asked dr rbarlist) a b c
              (Spec.planes le dr (p :: df))) as [Hn Hf].
  cbv zeta in Hn, Hf.
  set (rz := filter _ _) in *. clearbody rz.
  destruct normval as [n|]; [|split; assumption].
  split.
  - rewrite map_map. simpl. exact Hn.
  - apply Forall_forall. intros kv Hin.
    apply in_map_iff in Hin. destruct Hin as [kv0 [E Hin]]. subst kv.
    eapply Forall_forall in Hf; [|exact Hin]. simpl.
    rewrite length_map. exact Hf.
Qed.

Lemma ring_area_factor : forall dr rb, ring_area dr rb = dr * (2 * rb - dr).
Proof.
  intros dr rb. unfold ring_area. ring.
Qed.

Lemma sums_from : forall dr rz w0 ws0,
  Forall (fun kv => 0 < ring_area dr (fst kv) /\ 0 < totalI (snd kv) <= 1) rz ->
  0 <= ws0 <= w0 -> (rz = [] -> 0 < ws0) ->
  let w := fold_left (fun acc kv => acc + ring_area dr (fst kv)) rz w0 in
  let ws := fold_left (fun acc kv => acc + totalI (snd kv) * ring_area dr (fst kv)) rz ws0 in
  0 < ws <= w.
Proof.
  intros dr rz. induction rz as [|[k s] rz IH]; intros w0 ws0 Hf H0 Hne; simpl.
  - specialize (Hne eq_refl). lra.
  - inversion Hf as [|? ? [Ha [Hi1 Hi2]] Hrz]; subst. simpl in *.
    assert (Hm : 0 < totalI s * ring_area dr k) by (apply Rmult_lt_0_compat; lra).
    assert (Hm2 : totalI s * ring_area dr k <= ring_area dr k) by nra.
    apply IH; [exact Hrz | lra | intros _; lra].
Qed.

End BinTrackFacts.

(** X5.  The bins that [survivalCalc] returns are distinct and are among
    the bins asked for; the track of a bin carries the bin as its [rbar]
    and holds positions for at least nine tenths of the planes of the
    cloud. *)
Theorem survivalCalc_returns_covering_tracks :
  forall (df : list PlotMetrics.npoint) (le : PlotMetrics.legend) (a b c dr : R)
         (rbarlist : option (list R)) (normval : option R),
    NoDup (map fst (PlotMetrics.survivalCalc df le a b c dr rbarlist normval))
    /\ Forall (fun kv =>
         In (fst kv) (Spec.bins_asked dr rbarlist)
         /\ PlotMetrics.rbar (snd kv) = fst kv
         /\ (0.9 * INR (List.length (Spec.planes le dr df))
             <= INR (List.length (PlotMetrics.zlist (snd kv))))%R)
       (PlotMetrics.survivalCalc df le a b c dr rbarlist normval).
Proof.
  intros. apply survivalCalc_ok.
Qed.

(** X6.  When the ring of every bin has a positive area, which for a
    positive bin width means that every bin lies above half the bin width,
    and every track has a survival fraction in (0, 1], [survivalRateRZ]
    returns a rate in (0, 1]. *)
Theorem survivalRateRZ_in_unit_interval :
  forall (rz : list (R * PlotMetrics.survival)) (dr : R),
    rz <> [] ->
    (0 < dr)%R ->
    Forall (fun kv => (dr / 2 < fst kv)%R
                      /\ (0 < PlotMetrics.totalI (snd kv) <= 1)%R) rz ->
    exists rate : R,
      PlotMetrics.survivalRateRZ rz dr = Py.Ok rate /\ (0 < rate <= 1)%R.
Proof.
  intros rz dr Hne Hdr Hf.
  destruct rz as [|kv rz]; [now contradiction Hne|].
  eexists. split; [reflexivity|].
  assert (Hf' : Forall (fun kv => (0 < PlotMetrics.ring_area dr (fst kv))%R
                        /\ (0 < PlotMetrics.totalI (snd kv) <= 1)%R) (kv :: rz)).
  { eapply Forall_impl; [|exact Hf]. intros x [H1 H2]. split; [|exact H2].
    rewrite ring_area_factor. apply Rmult_lt_0_compat; lra. }
  inversion Hf' as [|? ? [Ha [Hi1 Hi2]] Hrz]; subst.
  unfold PlotMetrics.weightedsum, PlotMetrics.weight. cbn [fold_left].
  assert (Hm : (0 < PlotMetrics.totalI (snd kv) * PlotMetrics.ring_area dr (fst kv))%R)
    by (apply Rmult_lt_0_compat; lra).
  assert (Hm2 : (PlotMetrics.totalI (snd kv) * PlotMetrics.ring_area dr (fst kv)
                 <= PlotMetrics.ring_area dr (fst kv))%R) by nra.
  destruct (@sums_from dr rz (0 + PlotMetrics.ring_area dr (fst kv))%R
              (0 + PlotMetrics.totalI (snd kv) * PlotMetrics.ring_area dr (fst kv))%R
              Hrz) as [H1 H2]; [lra | intros _; lra |].
  set (ws := fold_left (fun acc kv0 => acc + PlotMetrics.totalI (snd kv0) * _)%R rz _) in *.
  set (w := fold_left (fun acc kv0 => acc + PlotMetrics.ring_area dr (fst kv0))%R rz _) in *.
  assert (Hw : (0 < w)%R) by lra.
  split.
  - apply Rdiv_lt_0_compat; assumption.
  - apply Rmult_le_reg_r with (r := w); [exact Hw|].
    unfold Rdiv. rewrite Rmult_assoc, Rinv_l by lra. lra.
Qed.

Lemma survivalRateRZ_in_unit_interval_witness :
  exists rate : R,
    PlotMetrics.survivalRateRZ [(1 / 10, PlotMetrics.init (1 / 10) 1 1 1)]%R (1 / 10)
    = Py.Ok rate /\ (0 < rate <= 1)%R.
Proof.
  apply survivalRateRZ_in_unit_interval.
  - discriminate.
  - lra.
  - constructor; [|constructor]. simpl. lra.
Defined.

(** X7.  The bin 0 enters the sums of [survivalRateRZ] with the negative
    area [-dr^2]: the only track of the bin 0 makes the sum of the areas
    negative, and the rate that comes back is still the survival fraction
    of that track. *)
Theorem survivalRateRZ_bin_0_has_negative_area :
  forall (s : PlotMetrics.survival) (dr : R),
    dr <> 0%R ->
    PlotMetrics.weight dr [(0%R, s)] = (- dr ^ 2)%R
    /\ (PlotMetrics.weight dr [(0%R, s)] < 0)%R
    /\ PlotMetrics.survivalRateRZ [(0%R, s)] dr = Py.Ok (PlotMetrics.totalI s).
Proof.
  intros s dr Hdr.
  assert (Hw : PlotMetrics.weight dr [(0%R, s)] = (- dr ^ 2)%R).
  { unfold PlotMetrics.weight, PlotMetrics.ring_area. simpl. ring. }
  assert (Hsq : (0 < dr ^ 2)%R).
  { simpl. rewrite Rmult_1_r. apply Rsqr_pos_lt in Hdr. exact Hdr. }
  repeat split.
  - exact Hw.
  - rewrite Hw. lra.
  - unfold PlotMetrics.survivalRateRZ. rewrite Hw. f_equal.
    unfold PlotMetrics.weightedsum, PlotMetrics.ring_area. simpl.
    field. exact Hdr.
Qed.

Lemma survivalRateRZ_bin_0_has_negative_area_witness :
  (PlotMetrics.weight (5 / 100) [(0, PlotMetrics.init 0 1 1 1)] < 0)%R.
Proof.
  apply (@survivalRateRZ_bin_0_has_negative_area (PlotMetrics.init 0 1 1 1) (5 / 100)%R).
  lra.
Defined.

(** X8.  For a position that is not negative and a positive bin width, the
    bin is a multiple [k * dr] of the bin width rounded to five decimals,
    and it lies within a bin width below the position, up to the rounding:
    above [rbar - dr - 0.000005] and at most [rbar + 0.000005]. *)
Theorem rbar_bin_within_a_bin_width :
  forall dr rbar : R,
    (0 < dr)%R -> (0 <= rbar)%R ->
    (exists k : Z,
        (0 <= k)%Z /\ PlotMetrics.rbar_bin dr rbar = PlotMetrics.round5 (IZR k * dr))
    /\ (rbar - dr - 1 / 200000 < PlotMetrics.rbar_bin dr rbar <= rbar + 1 / 200000)%R.
Proof.
  intros dr rbar Hdr Hr.
  assert (Hq : (0 <= rbar / dr)%R).
  { apply Rmult_le_pos; [lra|]. left. now apply Rinv_0_lt_compat. }
  destruct (base_Int_part (rbar / dr)) as [H1 H2].
  assert (Hbin : PlotMetrics.rbar_bin dr rbar
                 = PlotMetrics.round5 (IZR (Int_part (rbar / dr)) * dr)).
  { unfold PlotMetrics.rbar_bin, PlotMetrics.trunc.
    destruct (Rle_dec 0 (rbar / dr)); [reflexivity | contradiction]. }
  assert (Hrd : (rbar / dr * dr = rbar)%R) by (field; lra).
  assert (Hlo : (IZR (Int_part (rbar / dr)) * dr <= rbar)%R).
  { rewrite <- Hrd at 2. apply Rmult_le_compat_r; lra. }
  assert (Hhi : (rbar < (IZR (Int_part (rbar / dr)) + 1) * dr)%R).
  { rewrite <- Hrd at 1. apply Rmult_lt_compat_r; lra. }
  assert (Hround : (Rabs (PlotMetrics.rbar_bin dr rbar - IZR (Int_part (rbar / dr)) * dr)
                    <= 1 / 200000)%R).
  { rewrite Hbin. set (x := (IZR (Int_part (rbar / dr)) * dr)%R).
    unfold PlotMetrics.round5, PlotMetrics.round_half_even.
    destruct (base_Int_part (x * 100000)) as [G1 G2].
    set (f := Int_part (x * 100000)) in *.
    apply Rabs_le.
    destruct (Rlt_dec (x * 100000 - IZR f) (1 / 2)) as [Ha|Ha].
    + split; lra.
    + assert (Hup : forall y : R, y = IZR (f + 1) ->
                (- (1 / 200000) <= y / 100000 - x <= 1 / 200000)%R).
      { intros y Ey. rewrite plus_IZR in Ey. split; lra. }
      destruct (Rlt_dec (1 / 2) (x * 100000 - IZR f)) as [Hb|Hb].
      * now apply Hup.
      * destruct (Z.even f); [split; lra | now apply Hup]. }
  split.
  - exists (Int_part (rbar / dr)). split; [|exact Hbin].
    apply Z.lt_succ_r. apply lt_IZR. rewrite succ_IZR. lra.
  - unfold Rabs in Hround. destruct (Rcase_abs _) in Hround; lra.
Qed.

Lemma rbar_bin_within_a_bin_width_witness :
  (exists k : Z,
      (0 <= k)%Z
      /\ PlotMetrics.rbar_bin (5 / 100) (4 / 100) = PlotMetrics.round5 (IZR k * (5 / 100)))
  /\ (4 / 100 - 5 / 100 - 1 / 200000 < PlotMetrics.rbar_bin (5 / 100) (4 / 100)
      <= 4 / 100 + 1 / 200000)%R.
Proof.
  apply rbar_bin_within_a_bin_width; lra.
Defined.

(* ================================================================== *)
(** * Theorems: positions, slices and groups *)
(* ================================================================== *)

Section PositionFacts.
Import Py InterfaceMetrics.
Open Scope Q_scope.

Lemma Qle_bool_false : forall a b : Q, Qle_bool a b = false -> b < a.
Proof.
  intros a b H. destruct (Qlt_le_dec b a) as [Hlt|Hle]; [exact Hlt|].
  apply Qle_bool_iff in Hle. congruence.
Qed.

Lemma Qabs2_comp : forall a b : Q, a == b -> Qabs2 a == Qabs2 b.
Proof.
  intros a b E. unfold Qabs2.
  destruct (Qle_bool 0 a) eqn:Ea; destruct (Qle_bool 0 b) eqn:Eb;
    try apply Qle_bool_iff in Ea; try apply Qle_bool_iff in Eb;
    try apply Qle_bool_false in Ea; try apply Qle_bool_false in Eb; Lqa.lra.
Qed.

Lemma Qeq_bool_comp_r : forall a x y : Q, x == y -> Qeq_bool a x = Qeq_bool a y.
Proof.
  intros a x y E.
  destruct (Qeq_bool a x) eqn:E1; destruct (Qeq_bool a y) eqn:E2; try reflexivity.
  - apply Qeq_bool_iff in E1. apply Qeq_bool_neq in E2. exfalso. apply E2. Lqa.lra.
  - apply Qeq_bool_iff in E2. apply Qeq_bool_neq in E1. exfalso. apply E1. Lqa.lra.
Qed.

(** ** [np.sort(col.unique())] *)

Lemma insert_unique_HdRel : forall q h t,
  h < q -> HdRel Qlt h t -> HdRel Qlt h (insert_unique q t).
Proof.
  intros q h t Hq Hh. destruct t as [|x t]; simpl; [now constructor|].
  destruct (q ?= x); [exact Hh | now constructor |].
  inversion Hh; subst. now constructor.
Qed.

Lemma insert_unique_sorted : forall q l,
  Sorted Qlt l -> Sorted Qlt (insert_unique q l).
Proof.
  intros q l H. induction H as [|h t Ht IH Hh]; simpl.
  - repeat constructor.
  - destruct (q ?= h) eqn:E.
    + now constructor.
    + constructor; [now constructor|]. constructor. now apply Qlt_alt.
    + constructor; [exact IH|]. apply insert_unique_HdRel; [|exact Hh].
      now apply Qgt_alt.
Qed.

Lemma sort_unique_sorted : forall l, Sorted Qlt (sort_unique l).
Proof.
  intros l. unfold sort_unique.
  assert (H : forall l acc, Sorted Qlt acc ->
                Sorted Qlt (fold_left (fun acc q => insert_unique q acc) l acc)).
  { induction l0 as [|q l0 IH]; intros acc Ha; simpl; [exact Ha|].
    apply IH. now apply insert_unique_sorted. }
  apply H. constructor.
Qed.

Lemma insert_unique_keeps : forall q l x, In x l -> In x (insert_unique q l).
Proof.
  induction l as [|h t IH]; intros x H; simpl; [destruct H|].
  destruct (q ?= h); [exact H | now right |].
  destruct H as [H|H]; [now left | right; now apply IH].
Qed.

Lemma insert_unique_has : forall q l, exists x, In x (insert_unique q l) /\ x == q.
Proof.
  induction l as [|h t [x [Hx Ex]]]; simpl.
  - exists q. split; [now left | reflexivity].
  - destruct (q ?= h) eqn:E.
    + exists h. split; [now left|]. symmetry. now apply Qeq_alt.
    + exists q. split; [now left | reflexivity].
    + exists x. split; [now right | exact Ex].
Qed.

Lemma sort_unique_has : forall l q,
  In q l -> exists x, In x (sort_unique l) /\ x == q.
Proof.
  intros l q. unfold sort_unique.
  assert (H : forall l acc,
            In q l \/ (exists x, In x acc /\ x == q) ->
            exists x, In x (fold_left (fun acc q => insert_unique q acc) l acc) /\ x == q).
  { induction l0 as [|h l0 IH]; intros acc H; simpl.
    - destruct H as [[]|H]. exact H.
    - apply IH. destruct H as [[H|H]|[x [Hx Ex]]].
      + subst h. right. apply insert_unique_has.
      + now left.
      + right. exists x. split; [now apply insert_unique_keeps | exact Ex]. }
  intros Hin. apply H. now left.
Qed.

Lemma sort_unique_not_nil : forall l, l <> [] -> sort_unique l <> [].
Proof.
  intros [|q l] H; [congruence|].
  destruct (@sort_unique_has (q :: l) q) as [x [Hx _]]; [now left|].
  intros E. rewrite E in Hx. exact Hx.
Qed.

(** ** [closest] *)

Lemma nearest_from_spec : forall K rest best,
  (nearest_from K best rest = best \/ In (nearest_from K best rest) rest)
  /\ Qabs2 (nearest_from K best rest - K) <= Qabs2 (best - K)
  /\ Forall (fun w => Qabs2 (nearest_from K best rest - K) <= Qabs2 (w - K)) rest.
Proof.
  intros K. induction rest as [|v rest IH]; intros best; simpl.
  - split; [now left|]. split; [apply Qle_refl | constructor].
  - destruct (Qle_bool (Qabs2 (best - K)) (Qabs2 (v - K))) eqn:E.
    + apply Qle_bool_iff in E. destruct (IH best) as [H1 [H2 H3]].
      split; [destruct H1; [now left | right; now right]|].
      split; [exact H2|]. constructor; [|exact H3].
      eapply Qle_trans; eassumption.
    + apply Qle_bool_false in E. destruct (IH v) as [H1 [H2 H3]].
      split; [right; destruct H1 as [H1|H1]; [left; now rewrite H1 | now right]|].
      split; [|constructor; [exact H2 | exact H3]].
      eapply Qle_trans; [exact H2|]. now apply Qlt_le_weak.
Qed.

Lemma closest_spec : forall lst K,
  (lst = [] /\ closest lst K = Raise ValueError)
  \/ (exists v, closest lst K = Ok v /\ In v lst
                /\ Forall (fun w => Qabs2 (v - K) <= Qabs2 (w - K)) lst).
Proof.
  intros [|v rest] K; [left; split; reflexivity|].
  right. exists (nearest_from K v rest). split; [reflexivity|].
  destruct (nearest_from_spec K rest v) as [H1 [H2 H3]].
  split; [destruct H1 as [H1|H1]; [left; now rewrite H1 | now right]|].
  constructor; assumption.
Qed.

(** ** The slice nearest to a position *)

Lemma slice_choice : forall (pts : list point) (xb : Q),
  pts <> [] ->
  exists xreal,
    closest (xpts pts) xb = Ok xreal
    /\ In xreal (map pt_x pts)
    /\ forall p, In p pts -> Qabs2 (xreal - xb) <= Qabs2 (pt_x p - xb).
Proof.
  intros pts xb Hne.
  destruct (closest_spec (xpts pts) xb) as [[E _]|[v [Ev [Hin Hmin]]]].
  - exfalso. apply (@sort_unique_not_nil (map pt_x pts)); [|exact E].
    destruct pts; [congruence | discriminate].
  - exists v. split; [exact Ev|]. split; [now apply sort_unique_in|].
    intros p Hp.
    destruct (@sort_unique_has (map pt_x pts) (pt_x p)) as [x [Hx Ex]];
      [now apply in_map|].
    eapply Forall_forall in Hmin; [|exact Hx].
    assert (Ea : Qabs2 (x - xb) == Qabs2 (pt_x p - xb)) by (apply Qabs2_comp; Lqa.lra).
    Lqa.lra.
Qed.

Lemma shifted_points : forall pts xc unit,
  (match unit with
   | Some d => map (shift_x (fun x => x / d)) (map (shift_x (fun x => x - xc)) pts)
   | None => map (shift_x (fun x => x - xc)) pts
   end)
  = map (fun p0 => mkPoint (Spec.rel_x xc unit p0) (pt_y p0) (pt_z p0) (pt_vx p0)
                     (pt_time p0)) pts.
Proof.
  intros pts xc [d|]; [rewrite map_map|]; apply map_ext; intros p; reflexivity.
Qed.

Lemma importPtsSlice_spec : forall pts xc unit xbehind,
  exists l,
    importPtsSlice pts xc unit xbehind = Ok l
    /\ (forall p, In p l ->
          exists p0, In p0 pts
            /\ p = mkPoint (Spec.rel_x xc unit p0) (pt_y p0) (pt_z p0) (pt_vx p0)
                     (pt_time p0))
    /\ (forall p, In p l -> Qabs2 (pt_x p - xbehind) <= 2 # 10)
    /\ (forall p q, In p l -> In q l -> pt_x p == pt_x q)
    /\ (forall p p0, In p l -> In p0 pts ->
          Qabs2 (pt_x p - xbehind) <= Qabs2 (Spec.rel_x xc unit p0 - xbehind))
    /\ (forall p p0, In p l -> In p0 pts ->
          Spec.rel_x xc unit p0 == pt_x p ->
          In (mkPoint (Spec.rel_x xc unit p0) (pt_y p0) (pt_z p0) (pt_vx p0) (pt_time p0))
             l)
    /\ (divides_by_0 unit = false ->
        forall p0, In p0 pts ->
          Qabs2 (Spec.rel_x xc unit p0 - xbehind) < 2 # 10 -> l <> [])
    /\ (divides_by_0 unit = true -> l = []).
Proof.
  intros pts xc unit xbehind. unfold importPtsSlice.
  assert (Hnil : exists l : list point,
             Ok [] = Ok l
             /\ (forall p, In p l ->
                   exists p0, In p0 pts
                     /\ p = mkPoint (Spec.rel_x xc unit p0) (pt_y p0) (pt_z p0)
                              (pt_vx p0) (pt_time p0))
             /\ (forall p, In p l -> Qabs2 (pt_x p - xbehind) <= 2 # 10)
             /\ (forall p q, In p l -> In q l -> pt_x p == pt_x q)
             /\ (forall p p0, In p l -> In p0 pts ->
                   Qabs2 (pt_x p - xbehind) <= Qabs2 (Spec.rel_x xc unit p0 - xbehind))
             /\ (forall p p0, In p l -> In p0 pts ->
                   Spec.rel_x xc unit p0 == pt_x p ->
                   In (mkPoint (Spec.rel_x xc unit p0) (pt_y p0) (pt_z p0) (pt_vx p0)
                         (pt_time p0)) l)
             /\ l = []).
  { exists []. split; [reflexivity|].
    split; [intros ? []|]. split; [intros ? []|]. split; [intros ? ? []|].
    split; [intros ? ? []|]. split; [intros ? ? []|]. reflexivity. }
  destruct pts as [|p1 pts].
  { destruct Hnil as [l [E [H1 [H2 [H3 [H4 [H5 H6]]]]]]]. exists l.
    repeat (split; [assumption|]). split; [|intros _; exact H6].
    intros _ p0 []. }
  destruct (divides_by_0 unit) eqn:Ez.
  { destruct Hnil as [l [E [H1 [H2 [H3 [H4 [H5 H6]]]]]]]. exists l.
    repeat (split; [assumption|]). split; [discriminate | intros _; exact H6]. }
  rewrite (shifted_points (p1 :: pts) xc unit).
  set (rel := fun p0 => mkPoint (Spec.rel_x xc unit p0) (pt_y p0) (pt_z p0) (pt_vx p0)
                          (pt_time p0)).
  set (pts' := map rel (p1 :: pts)).
  destruct (@slice_choice pts' xbehind) as [xreal [Ec [Hin Hmin]]]; [discriminate|].
  rewrite Ec. cbn [bind].
  assert (Hsl : forall p, In p (slice_at pts' xreal) -> In p pts' /\ pt_x p == xreal).
  { intros p Hp. unfold slice_at in Hp. apply filter_In in Hp.
    destruct Hp as [Hp Hx]. split; [exact Hp | now apply Qeq_bool_iff]. }
  assert (Hnear : forall p0, In p0 (p1 :: pts) ->
             Qabs2 (xreal - xbehind) <= Qabs2 (Spec.rel_x xc unit p0 - xbehind)).
  { intros p0 H0.
    assert (Hp : In (rel p0) pts') by (unfold pts'; now apply in_map).
    specialize (Hmin _ Hp). simpl in Hmin. exact Hmin. }
  destruct (Qle_bool (Qabs2 (xreal - xbehind)) (2 # 10)) eqn:Etol.
  - apply Qle_bool_iff in Etol.
    exists (slice_at pts' xreal). split; [reflexivity|].
    split; [|split; [|split; [|split; [|split; [|split]]]]].
    + intros p Hp. destruct (Hsl p Hp) as [Hp' _]. unfold pts' in Hp'.
      apply in_map_iff in Hp'. destruct Hp' as [p0 [E0 H0]].
      exists p0. split; [exact H0 | now rewrite <- E0].
    + intros p Hp. destruct (Hsl p Hp) as [_ Ex].
      assert (Ea : Qabs2 (pt_x p - xbehind) == Qabs2 (xreal - xbehind))
        by (apply Qabs2_comp; Lqa.lra).
      Lqa.lra.
    + intros p q Hp Hq. destruct (Hsl p Hp) as [_ Ep]. destruct (Hsl q Hq) as [_ Eq].
      Lqa.lra.
    + intros p p0 Hp H0. destruct (Hsl p Hp) as [_ Ex].
      assert (Ea : Qabs2 (pt_x p - xbehind) == Qabs2 (xreal - xbehind))
        by (apply Qabs2_comp; Lqa.lra).
      specialize (Hnear p0 H0). Lqa.lra.
    + intros p p0 Hp H0 Ex. destruct (Hsl p Hp) as [_ Ep].
      unfold slice_at. apply filter_In. split.
      * unfold pts'. apply (in_map rel). exact H0.
      * apply Qeq_bool_iff. simpl. Lqa.lra.
    + intros _ p0 H0 Hlt.
      apply in_map_iff in Hin. destruct Hin as [p [Ep Hp]].
      assert (Hps : In p (slice_at pts' xreal)).
      { unfold slice_at. apply filter_In. split; [exact Hp|].
        apply Qeq_bool_iff. rewrite Ep. reflexivity. }
      intros E. rewrite E in Hps. destruct Hps.
    + discriminate.
  - apply Qle_bool_false in Etol.
    exists []. split; [reflexivity|].
    split; [intros ? []|]. split; [intros ? []|]. split; [intros ? ? []|].
    split; [intros ? ? []|]. split; [intros ? ? []|].
    split; [|discriminate].
    intros _ p0 H0 Hlt. exfalso. specialize (Hnear p0 H0). Lqa.lra.
Qed.

(** ** Extents *)

Lemma fold_min_le_max : forall t lo hi,
  lo <= hi -> fold_left Qmin2 t lo <= fold_left Qmax2 t hi.
Proof.
  induction t as [|x t IH]; intros lo hi H; simpl; [exact H|].
  apply IH. unfold Qmin2, Qmax2.
  destruct (Qle_bool lo x) eqn:E1; destruct (Qle_bool hi x) eqn:E2;
    try apply Qle_bool_iff in E1; try apply Qle_bool_iff in E2;
    try apply Qle_bool_false in E1; try apply Qle_bool_false in E2; Lqa.lra.
Qed.

Lemma extent_nonneg : forall l, 0 <= extent l.
Proof.
  intros [|h t]; unfold extent; simpl; [Lqa.lra|].
  assert (H := @fold_min_le_max t h h (Qle_refl h)). Lqa.lra.
Qed.

End PositionFacts.

(** X9.  [xpts] lists the x positions of a table in strictly increasing
    order: every entry is the position of a point of the table, and every
    point of the table has its position in the list. *)
Theorem xpts_sorted_positions :
  forall data : list InterfaceMetrics.point,
    Sorted Qlt (InterfaceMetrics.xpts data)
    /\ (forall x, In x (InterfaceMetrics.xpts data) ->
          exists p, In p data /\ InterfaceMetrics.pt_x p = x)
    /\ (forall p, In p data ->
          exists x, In x (InterfaceMetrics.xpts data) /\ x == InterfaceMetrics.pt_x p).
Proof.
  intros data. unfold InterfaceMetrics.xpts. split; [|split].
  - apply sort_unique_sorted.
  - intros x Hx. apply sort_unique_in in Hx. apply in_map_iff in Hx.
    destruct Hx as [p [E Hp]]. now exists p.
  - intros p Hp. apply sort_unique_has. now apply in_map.
Qed.

(** X10.  [closest] raises [ValueError] on the empty list, and on any other
    list it returns an entry of the list that is at least as near to [K] as
    every entry of the list. *)
Theorem closest_returns_a_nearest_entry :
  forall (lst : list Q) (K : Q),
    (lst = [] /\ InterfaceMetrics.closest lst K = Py.Raise Py.ValueError)
    \/ (exists v,
          InterfaceMetrics.closest lst K = Py.Ok v
          /\ In v lst
          /\ Forall (fun w => InterfaceMetrics.Qabs2 (v - K)
                              <= InterfaceMetrics.Qabs2 (w - K)) lst).
Proof.
  intros lst K. apply closest_spec.
Qed.

(** X11.  [importPtsSlice] never fails on a table of points.  The points it
    returns are points of the table at their relative positions; they all
    have the same position, within 0.2 of the position asked for and at
    least as near to it as every point of the table; and every point of
    the table at that position is returned.  When the positions are not
    divided by 0 and some point of the table is nearer than 0.2 to the
    position asked for, the answer is not empty; when the positions are
    divided by 0, the answer is empty. *)
Theorem importPtsSlice_takes_the_nearest_slice :
  forall (pts : list InterfaceMetrics.point) (xc : Q) (unit : option Q) (xbehind : Q),
    exists l,
      InterfaceMetrics.importPtsSlice pts xc unit xbehind = Py.Ok l
      /\ (forall p, In p l ->
            exists p0, In p0 pts
              /\ p = InterfaceMetrics.mkPoint (Spec.rel_x xc unit p0)
                       (InterfaceMetrics.pt_y p0) (InterfaceMetrics.pt_z p0)
                       (InterfaceMetrics.pt_vx p0) (InterfaceMetrics.pt_time p0))
      /\ (forall p, In p l ->
            InterfaceMetrics.Qabs2 (InterfaceMetrics.pt_x p - xbehind) <= 2 # 10)
      /\ (forall p q, In p l -> In q l ->
            InterfaceMetrics.pt_x p == InterfaceMetrics.pt_x q)
      /\ (forall p p0, In p l -> In p0 pts ->
            InterfaceMetrics.Qabs2 (InterfaceMetrics.pt_x p - xbehind)
            <= InterfaceMetrics.Qabs2 (Spec.rel_x xc unit p0 - xbehind))
      /\ (forall p p0, In p l -> In p0 pts ->
            Spec.rel_x xc unit p0 == InterfaceMetrics.pt_x p ->
            In (InterfaceMetrics.mkPoint (Spec.rel_x xc unit p0)
                  (InterfaceMetrics.pt_y p0) (InterfaceMetrics.pt_z p0)
                  (InterfaceMetrics.pt_vx p0) (InterfaceMetrics.pt_time p0)) l)
      /\ (InterfaceMetrics.divides_by_0 unit = false ->
          forall p0, In p0 pts ->
            InterfaceMetrics.Qabs2 (Spec.rel_x xc unit p0 - xbehind) < 2 # 10 ->
            l <> [])
      /\ (InterfaceMetrics.divides_by_0 unit = true -> l = []).
Proof.
  intros. apply importPtsSlice_spec.
Qed.

Section SummaryFacts.
Import Py InterfaceMetrics Inv.
Open Scope Q_scope.

Variable centroidAndArea : list (Q * Q) -> option (Q * Q * Q).
Variable fs : folderStats.

(** What a summary that comes back says of its slice. *)
Lemma sliceSummary_ok : forall sli rv,
  sliceSummary centroidAndArea fs sli = Ok rv ->
  (10 <= List.length sli)%nat
  /\ ~ niw fs == 0
  /\ (exists p0 rest, sli = p0 :: rest
        /\ s_x rv = pt_x p0 /\ s_time rv = pt_time p0
        /\ s_xbehind rv = pt_x p0 - ncx fs)
  /\ s_maxheight rv = extent (map pt_z sli)
  /\ s_maxwidth rv = extent (map pt_y sli)
  /\ 0 < s_maxheight rv
  /\ 0 < s_maxwidth rv
  /\ 0 < s_aspectratio rv.
Proof.
  intros sli rv H. unfold sliceSummary in H.
  destruct sli as [|p0 rest]; [discriminate H|].
  destruct (Nat.ltb_spec (List.length (p0 :: rest)) 10) as [Hlt|Hge]; [discriminate H|].
  destruct (centroidAndArea _) as [[[cy cz] ar]|]; [|discriminate H].
  destruct (Qeq_bool (extent (map pt_z (p0 :: rest))) 0) eqn:Ez; [discriminate H|].
  destruct (Qeq_bool (extent (map pt_y (p0 :: rest))) 0) eqn:Ey; [discriminate H|].
  cbn [orb] in H.
  destruct (Qeq_bool (niw fs) 0) eqn:En; [discriminate H|].
  apply Qeq_bool_neq in Ez. apply Qeq_bool_neq in Ey. apply Qeq_bool_neq in En.
  assert (Hz := extent_nonneg (map pt_z (p0 :: rest))).
  assert (Hy := extent_nonneg (map pt_y (p0 :: rest))).
  assert (Hz' : 0 < extent (map pt_z (p0 :: rest))).
  { destruct (Qlt_le_dec 0 (extent (map pt_z (p0 :: rest)))) as [G|G]; [exact G|].
    exfalso. apply Ez. apply Qle_antisym; assumption. }
  assert (Hy' : 0 < extent (map pt_y (p0 :: rest))).
  { destruct (Qlt_le_dec 0 (extent (map pt_y (p0 :: rest)))) as [G|G]; [exact G|].
    exfalso. apply Ey. apply Qle_antisym; assumption. }
  inversion H; subst rv; cbn [s_x s_time s_xbehind s_maxheight s_maxwidth s_aspectratio].
  split; [exact Hge|]. split; [exact En|].
  split; [exists p0, rest; repeat split; reflexivity|].
  split; [reflexivity|]. split; [reflexivity|].
  split; [exact Hz'|]. split; [exact Hy'|].
  apply Qlt_shift_div_l; [exact Hy'|]. rewrite Qmult_0_l. exact Hz'.
Qed.

Lemma slice_at_comp : forall data x y, x == y -> slice_at data x = slice_at data y.
Proof.
  intros data x y E. unfold slice_at. apply filter_ext.
  intros p. now apply Qeq_bool_comp_r.
Qed.

Lemma summarize_file_ok : forall ipfiles data s,
  In data ipfiles ->
  Forall (summary_ok fs ipfiles) s ->
  Forall (summary_ok fs ipfiles) (summarize_file centroidAndArea fs s data).
Proof.
  intros ipfiles data s Hd Hs. unfold summarize_file.
  destruct (0 <? List.length data)%nat; [|exact Hs].
  assert (Hsl : forall sli, In sli (slices_of fs data) ->
                  exists x, sli = slice_at data x /\ behind fs < x).
  { intros sli Hin. unfold slices_of in Hin. apply in_map_iff in Hin.
    destruct Hin as [x [E Hx]]. apply filter_In in Hx. destruct Hx as [_ Hx].
    exists x. split; [now symmetry|].
    apply negb_true_iff in Hx. now apply Qle_bool_false. }
  revert s Hs. induction (slices_of fs data) as [|sli l IH]; intros s Hs; simpl;
    [exact Hs|].
  apply IH; [intros sl Hin; apply Hsl; now right|].
  unfold summarize_slice.
  destruct (9 <? List.length sli)%nat; [|exact Hs].
  destruct (sliceSummary centroidAndArea fs sli) as [rv|e] eqn:E; [|exact Hs].
  apply Forall_app. split; [exact Hs|]. constructor; [|constructor].
  destruct (Hsl sli (or_introl eq_refl)) as [x [Ex Hx]].
  destruct (sliceSummary_ok _ E) as [Hlen [_ [[p0 [rest [Ep [Hsx _]]]] _]]].
  assert (Hp0 : In p0 (slice_at data x)) by (rewrite <- Ex, Ep; now left).
  unfold slice_at in Hp0. apply filter_In in Hp0. destruct Hp0 as [Hin0 Hq0].
  apply Qeq_bool_iff in Hq0.
  split; [rewrite Hsx; Lqa.lra|].
  exists data. split; [exact Hd|]. split; [exists p0; split; [exact Hin0 | now symmetry]|].
  rewrite Hsx. rewrite (@slice_at_comp data (pt_x p0) x Hq0). now rewrite <- Ex.
Qed.

Lemma summarize_files_ok : forall ipfiles files s,
  (forall data, In data files -> In data ipfiles) ->
  Forall (summary_ok fs ipfiles) s ->
  Forall (summary_ok fs ipfiles) (fold_left (summarize_file centroidAndArea fs) files s).
Proof.
  intros ipfiles files. induction files as [|data files IH]; intros s Hf Hs; simpl;
    [exact Hs|].
  apply IH; [intros d Hd; apply Hf; now right|].
  apply summarize_file_ok; [apply Hf; now left | exact Hs].
Qed.

End SummaryFacts.

(** X12.  A summary that [sliceSummary] returns comes from a slice of ten
    points or more and a nozzle width that is not 0; it carries the
    position and the time of the first point of the slice, the position
    behind the nozzle center, and a height, a width and an aspect ratio
    that are above 0. *)
Theorem sliceSummary_success_is_well_formed :
  forall (centroidAndArea : list (Q * Q) -> option (Q * Q * Q))
         (fs : InterfaceMetrics.folderStats) (sli : list InterfaceMetrics.point)
         (rv : InterfaceMetrics.summary),
    InterfaceMetrics.sliceSummary centroidAndArea fs sli = Py.Ok rv ->
    (10 <= List.length sli)%nat
    /\ ~ InterfaceMetrics.niw fs == 0
    /\ (exists p0 rest, sli = p0 :: rest
          /\ InterfaceMetrics.s_x rv = InterfaceMetrics.pt_x p0
          /\ InterfaceMetrics.s_time rv = InterfaceMetrics.pt_time p0
          /\ InterfaceMetrics.s_xbehind rv
             = InterfaceMetrics.pt_x p0 - InterfaceMetrics.ncx fs)
    /\ InterfaceMetrics.s_maxheight rv
       = InterfaceMetrics.extent (map InterfaceMetrics.pt_z sli)
    /\ InterfaceMetrics.s_maxwidth rv
       = InterfaceMetrics.extent (map InterfaceMetrics.pt_y sli)
    /\ 0 < InterfaceMetrics.s_maxheight rv
    /\ 0 < InterfaceMetrics.s_maxwidth rv
    /\ 0 < InterfaceMetrics.s_aspectratio rv.
Proof.
  intros c fs sli rv H. now apply sliceSummary_ok with (centroidAndArea := c).
Qed.

Lemma sliceSummary_success_is_well_formed_witness :
  exists rv,
    InterfaceMetrics.sliceSummary Scenarios.polygon_centroid_area Scenarios.unit_nozzle
      Scenarios.octagon_slice = Py.Ok rv
    /\ 0 < InterfaceMetrics.s_aspectratio rv.
Proof.
  destruct (InterfaceMetrics.sliceSummary Scenarios.polygon_centroid_area
              Scenarios.unit_nozzle Scenarios.octagon_slice) as [rv|e] eqn:E.
  - exists rv. split; [reflexivity|].
    apply (sliceSummary_success_is_well_formed
             Scenarios.polygon_centroid_area Scenarios.unit_nozzle
             Scenarios.octagon_slice E).
  - vm_compute in E. discriminate E.
Defined.

(** X13.  Every summary that [summarizeSlices] returns lies behind the
    nozzle, beyond [behind], at the position of a point of one of the
    files, and that file has ten points or more at that position. *)
Theorem summarizeSlices_keeps_slices_behind_the_nozzle :
  forall (centroidAndArea : list (Q * Q) -> option (Q * Q * Q))
         (fs : InterfaceMetrics.folderStats)
         (ipfiles : list (list InterfaceMetrics.point))
         (s : list InterfaceMetrics.summary),
    InterfaceMetrics.summarizeSlices centroidAndArea fs (Some ipfiles) = Py.Ok s ->
    Forall (fun rv =>
              InterfaceMetrics.behind fs < InterfaceMetrics.s_x rv
              /\ exists data, In data ipfiles
                   /\ (exists p, In p data
                         /\ InterfaceMetrics.pt_x p = InterfaceMetrics.s_x rv)
                   /\ (10 <= List.length
                               (InterfaceMetrics.slice_at data (InterfaceMetrics.s_x rv)))%nat)
           s.
Proof.
  intros c fs ipfiles s H. unfold InterfaceMetrics.summarizeSlices in H.
  inversion H; subst s.
  apply (@summarize_files_ok c fs ipfiles ipfiles []); [auto | constructor].
Qed.

Lemma summarizeSlices_keeps_slices_behind_the_nozzle_witness :
  Forall (fun rv => InterfaceMetrics.behind Scenarios.unit_nozzle < InterfaceMetrics.s_x rv)
    (fold_left (InterfaceMetrics.summarize_file Scenarios.polygon_centroid_area
                  Scenarios.unit_nozzle) [Scenarios.octagon_slice] []).
Proof.
  eapply Forall_impl;
    [|apply (@summarizeSlices_keeps_slices_behind_the_nozzle
               Scenarios.polygon_centroid_area Scenarios.unit_nozzle
               [Scenarios.octagon_slice] _ eq_refl)].
  intros rv [H _]. exact H.
Defined.

Section GroupFacts.
Import Py InterfaceMetrics.
Open Scope Q_scope.

Variable dother : Q.
Variable vdcrit : Q.
Variable m : mode.

Lemma above_100 : vdcrit < 100 -> above vdcrit (Some 100) = true.
Proof.
  intros Hc. unfold above. apply negb_true_iff.
  destruct (Qle_bool 100 vdcrit) eqn:E; [|reflexivity].
  apply Qle_bool_iff in E. exfalso. apply (Qlt_not_le _ _ Hc E).
Qed.

Lemma within_not_above : forall vd, within vdcrit vd = true -> above vdcrit vd = false.
Proof.
  intros [v|] H; simpl in *; [now rewrite H | discriminate].
Qed.

(** The second loop runs to the end of a list whose chunks are all within
    the tolerance. *)
Lemma scan_within_all : forall l1 rest vd xo,
  within vdcrit vd = true ->
  (forall v, In v rest -> within vdcrit (vdrange_at dother m l1 v) = true) ->
  exists vd' xo', scan dother m (within vdcrit) l1 vd xo rest = (vd', xo', []).
Proof.
  induction rest as [|v rest IH]; intros vd xo Hvd Hall; simpl.
  - eexists. eexists. reflexivity.
  - rewrite Hvd. apply IH.
    + apply Hall. now left.
    + intros w Hw. apply Hall. now right.
Qed.

(** The first loop runs to the end of a list whose chunks, but for the
    last one, are all above the tolerance. *)
Lemma scan_above_all : forall l1 l vlast vd xo,
  above vdcrit vd = true ->
  (forall v, In v l -> above vdcrit (vdrange_at dother m l1 v) = true) ->
  scan dother m (above vdcrit) l1 vd xo (l ++ [vlast])%list
  = (vdrange_at dother m l1 vlast, Some vlast, []).
Proof.
  induction l as [|v l IH]; intros vlast vd xo Hvd Hall; simpl.
  - rewrite Hvd. reflexivity.
  - rewrite Hvd. apply IH.
    + apply Hall. now left.
    + intros w Hw. apply Hall. now right.
Qed.

Lemma steady_group_scanned : forall ss g,
  steady_group dother vdcrit m ss g
  = (let '(vdrange, xtother, rest) :=
       scan dother m (above vdcrit) (Spec.group m ss g) (Some 100) None
            (Spec.scanned m ss g) in
     match rest with
     | [] => Ok None
     | _ :: _ =>
         match xtother with
         | None => Raise NameError
         | Some other0 =>
             let '(_, xtother', rest') :=
               scan dother m (within vdcrit) (Spec.group m ss g) vdrange xtother rest in
             let otherf :=
               match rest', xtother' with
               | _ :: _, Some v => v
               | _, _ => 1000
               end in
             Ok (Some (steady_row m g other0 otherf))
         end
     end).
Proof.
  reflexivity.
Qed.

Lemma steady_group_all_within : forall ss g v0 v1 rest,
  vdcrit < 100 ->
  Spec.scanned m ss g = v0 :: v1 :: rest ->
  (forall v, In v (v0 :: v1 :: rest) ->
     within vdcrit (vdrange_at dother m (Spec.group m ss g) v) = true) ->
  steady_group dother vdcrit m ss g = Ok (Some (steady_row m g v0 1000)).
Proof.
  intros ss g v0 v1 rest Hc Hs Hall. rewrite steady_group_scanned, Hs.
  cbn [scan]. rewrite (above_100 Hc).
  assert (H0 : within vdcrit (vdrange_at dother m (Spec.group m ss g) v0) = true)
    by (apply Hall; now left).
  rewrite (within_not_above _ H0).
  destruct (@scan_within_all (Spec.group m ss g) (v1 :: rest)
              (vdrange_at dother m (Spec.group m ss g) v0) (Some v0) H0)
    as [vd' [xo' E]]; [intros v Hv; apply Hall; now right|].
  rewrite E. reflexivity.
Qed.

Lemma steady_group_all_above : forall ss g l vlast,
  vdcrit < 100 ->
  Spec.scanned m ss g = (l ++ [vlast])%list ->
  (forall v, In v l ->
     above vdcrit (vdrange_at dother m (Spec.group m ss g) v) = true) ->
  steady_group dother vdcrit m ss g = Ok None.
Proof.
  intros ss g l vlast Hc Hs Hall. rewrite steady_group_scanned, Hs.
  rewrite (@scan_above_all (Spec.group m ss g) l vlast (Some 100) None (above_100 Hc) Hall).
  reflexivity.
Qed.

(** With a tolerance of 100 or more the first loop is not entered, and the
    first group reads [xtother] before it is bound. *)
Lemma steady_group_unbound : forall ss g,
  100 <= vdcrit -> Spec.scanned m ss g <> [] ->
  steady_group dother vdcrit m ss g = Raise NameError.
Proof.
  intros ss g Hc Hne. rewrite steady_group_scanned.
  destruct (Spec.scanned m ss g) as [|v rest]; [congruence|].
  cbn [scan].
  assert (Ha : above vdcrit (Some 100) = false).
  { unfold above. apply negb_false_iff. now apply Qle_bool_iff. }
  rewrite Ha. reflexivity.
Qed.

Lemma first_group_scanned : forall (r : ssrow) ss,
  Spec.scanned m (r :: ss) (by_mode m r) <> [].
Proof.
  intros r ss. unfold Spec.scanned. apply sort_unique_not_nil.
  unfold Spec.group. cbn [filter].
  assert (E : Qeq_bool (by_mode m r) (by_mode m r) = true)
    by (apply Qeq_bool_iff; reflexivity).
  rewrite E. discriminate.
Qed.

Lemma steady_groups_length : forall ss list1 flat,
  steady_groups dother vdcrit m ss list1 = Ok flat ->
  (List.length flat <= List.length list1)%nat.
Proof.
  induction list1 as [|x list1 IH]; intros flat H; simpl in H.
  - inversion H. simpl. lia.
  - destruct (steady_group dother vdcrit m ss x) as [r|e]; simpl in H; [|discriminate].
    destruct (steady_groups dother vdcrit m ss list1) as [rs|e]; simpl in H;
      [|discriminate].
    specialize (IH rs eq_refl). inversion H; subst.
    destruct r; simpl; lia.
Qed.

Lemma steadyList_tolerance : forall ss (u : string * string),
  (2 <= List.length ss)%nat ->
  (100 <= vdcrit ->
   steadyList dother vdcrit m (Some (ss, Some u)) = Raise NameError)
  /\ (vdcrit < 100 ->
      exists flat,
        steadyList dother vdcrit m (Some (ss, Some u))
        = Ok (mkTable (outlabel m)
                (Some (match m with
                       | Xbehind => (fst u, snd u, snd u)
                       | Time => (snd u, fst u, fst u)
                       end))
                flat)
        /\ (List.length flat <= List.length (unique (map (by_mode m) ss)))%nat).
Proof.
  intros ss [ux ut] Hlen. unfold steadyList.
  destruct (Nat.ltb_spec (List.length ss) 2) as [Hlt|_]; [lia|].
  split.
  - intros Hc. destruct ss as [|r ss]; [simpl in Hlen; lia|].
    cbn [map unique steady_groups].
    rewrite (@steady_group_unbound (r :: ss) (by_mode m r) Hc (first_group_scanned r ss)).
    reflexivity.
  - intros Hc.
    destruct (@steady_groups_return dother vdcrit m ss (unique (map (by_mode m) ss)) Hc)
      as [flat Hf].
    exists flat. rewrite Hf. split; [reflexivity|].
    now apply steady_groups_length with (ss := ss).
Qed.

End GroupFacts.

(** X14.  On two or more summary rows with units, [steadyList] raises
    [NameError] when the tolerance is 100 or more, since the first loop is
    then not entered and the scanned value is read before it is bound.
    With a tolerance below 100 it returns a table with the column names and
    the units of the mode and at most one row for every group. *)
Theorem steadyList_fails_from_tolerance_100 :
  forall (dother vdcrit : Q) (m : InterfaceMetrics.mode)
         (ss : list InterfaceMetrics.ssrow) (u : string * string),
    (2 <= List.length ss)%nat ->
    (100 <= vdcrit ->
     InterfaceMetrics.steadyList dother vdcrit m (Some (ss, Some u))
     = Py.Raise Py.NameError)
    /\ (vdcrit < 100 ->
        exists flat,
          InterfaceMetrics.steadyList dother vdcrit m (Some (ss, Some u))
          = Py.Ok (InterfaceMetrics.mkTable (InterfaceMetrics.outlabel m)
                     (Some (match m with
                            | InterfaceMetrics.Xbehind => (fst u, snd u, snd u)
                            | InterfaceMetrics.Time => (snd u, fst u, fst u)
                            end))
                     flat)
          /\ (List.length flat
              <= List.length (InterfaceMetrics.unique
                                (map (InterfaceMetrics.by_mode m) ss)))%nat).
Proof.
  intros. now apply steadyList_tolerance.
Qed.

Lemma steadyList_fails_from_tolerance_100_witness :
  InterfaceMetrics.steadyList 1 100 InterfaceMetrics.Time
    (Some (Scenarios.two_groups, Some ("mm", "s")%string))
  = Py.Raise Py.NameError.
Proof.
  apply (@steadyList_fails_from_tolerance_100 1 100 InterfaceMetrics.Time
           Scenarios.two_groups ("mm", "s")%string).
  - simpl. lia.
  - discriminate.
Defined.

(** X15.  A group with two or more scanned values whose chunks are all
    within the tolerance is reported as steady from its first scanned value
    to the end mark 1000. *)
Theorem steady_group_steady_throughout :
  forall (dother vdcrit : Q) (m : InterfaceMetrics.mode)
         (ss : list InterfaceMetrics.ssrow) (g v0 v1 : Q) (rest : list Q),
    vdcrit < 100 ->
    Spec.scanned m ss g = v0 :: v1 :: rest ->
    (forall v, In v (v0 :: v1 :: rest) ->
       InterfaceMetrics.within vdcrit
         (InterfaceMetrics.vdrange_at dother m (Spec.group m ss g) v) = true) ->
    InterfaceMetrics.steady_group dother vdcrit m ss g
    = Py.Ok (Some (InterfaceMetrics.steady_row m g v0 1000)).
Proof.
  intros. eapply steady_group_all_within; eassumption.
Qed.

Lemma steady_group_steady_throughout_witness :
  InterfaceMetrics.steady_group 1 (1 # 100) InterfaceMetrics.Time Scenarios.steady_rows 2
  = Py.Ok (Some (InterfaceMetrics.steady_row InterfaceMetrics.Time 2 0 1000)).
Proof.
  apply (@steady_group_steady_throughout 1 (1 # 100) InterfaceMetrics.Time
           Scenarios.steady_rows 2 0 1 [2]).
  - reflexivity.
  - reflexivity.
  - intros v [H|[H|[H|[]]]]; subst v; reflexivity.
Defined.

(** X16.  A group gets no row when the chunks of all its scanned values
    but the last one are above the tolerance, whatever the chunk of the
    last value is; so a group with one scanned value gets no row. *)
Theorem steady_group_never_steady :
  forall (dother vdcrit : Q) (m : InterfaceMetrics.mode)
         (ss : list InterfaceMetrics.ssrow) (g : Q) (l : list Q) (vlast : Q),
    vdcrit < 100 ->
    Spec.scanned m ss g = (l ++ [vlast])%list ->
    (forall v, In v l ->
       InterfaceMetrics.above vdcrit
         (InterfaceMetrics.vdrange_at dother m (Spec.group m ss g) v) = true) ->
    InterfaceMetrics.steady_group dother vdcrit m ss g = Py.Ok None.
Proof.
  intros. eapply steady_group_all_above; eassumption.
Qed.

Lemma steady_group_never_steady_witness :
  InterfaceMetrics.steady_group 2 (1 # 100) InterfaceMetrics.Time Scenarios.zigzag_rows 3
  = Py.Ok None.
Proof.
  apply (@steady_group_never_steady 2 (1 # 100) InterfaceMetrics.Time
           Scenarios.zigzag_rows 3 [0; 1] 2).
  - reflexivity.
  - reflexivity.
  - intros v [H|[H|[]]]; subst v; reflexivity.
Defined.

(* ================================================================== *)
(** * Theorems: folder tools *)
(* ================================================================== *)

Section FolderFacts.
Import Py FolderParser Inv.
Open Scope string_scope.

Variable int_of : string -> option Z.

(** ** [caseFolders] *)

Lemma insert_keyed_perm : forall (A : Type) (x : Z * A) l,
  Permutation (insert_keyed x l) (x :: l).
Proof.
  intros A x. induction l as [|h t IH]; simpl; [apply Permutation_refl|].
  destruct (fst h <=? fst x)%Z; [|apply Permutation_refl].
  eapply Permutation_trans; [apply perm_skip; exact IH | apply perm_swap].
Qed.

Lemma insert_keyed_hd : forall (A : Type) (x h : Z * A) t,
  key_le h x -> HdRel (@key_le A) h t -> HdRel (@key_le A) h (insert_keyed x t).
Proof.
  intros A x h t Hx Hh. destruct t as [|y t]; simpl; [now constructor|].
  destruct (fst y <=? fst x)%Z; constructor; [now inversion Hh | exact Hx].
Qed.

Lemma insert_keyed_sorted : forall (A : Type) (x : Z * A) l,
  Sorted (@key_le A) l -> Sorted (@key_le A) (insert_keyed x l).
Proof.
  intros A x l H. induction H as [|h t Ht IH Hh]; simpl.
  - repeat constructor.
  - destruct (Z.leb_spec (fst h) (fst x)) as [Hle|Hgt].
    + constructor; [exact IH|]. now apply insert_keyed_hd.
    + constructor; [now constructor|]. constructor. unfold key_le. lia.
Qed.

Lemma sort_keyed_from : forall (A : Type) (l acc : list (Z * A)),
  Sorted (@key_le A) acc ->
  Permutation (fold_left (fun acc x => insert_keyed x acc) l acc) (l ++ acc)%list
  /\ Sorted (@key_le A) (fold_left (fun acc x => insert_keyed x acc) l acc).
Proof.
  intros A. induction l as [|x l IH]; intros acc Ha; simpl.
  - split; [apply Permutation_refl | exact Ha].
  - destruct (IH (insert_keyed x acc) (insert_keyed_sorted x Ha)) as [Hp Hs].
    split; [|exact Hs].
    eapply Permutation_trans; [exact Hp|].
    eapply Permutation_trans;
      [apply Permutation_app_head; apply insert_keyed_perm|].
    apply Permutation_sym. apply Permutation_middle.
Qed.

Lemma sort_keyed_ok : forall (A : Type) (l : list (Z * A)),
  Permutation (sort_keyed l) l /\ Sorted (@key_le A) (sort_keyed l).
Proof.
  intros A l. unfold sort_keyed.
  destruct (@sort_keyed_from A l [] (Sorted_nil _)) as [Hp Hs].
  rewrite app_nil_r in Hp. split; assumption.
Qed.

Lemma sort_keys_ok : forall l keyed,
  sort_keys int_of l = Ok keyed -> map snd keyed = l /\ Forall (keyed_ok int_of) keyed.
Proof.
  induction l as [|e l IH]; intros keyed H; simpl in H.
  - inversion H. split; [reflexivity | constructor].
  - unfold py_int in H.
    destruct (int_of (from_2 (d_name e))) as [k|] eqn:Ek; simpl in H; [|discriminate].
    destruct (sort_keys int_of l) as [ks|x]; simpl in H; [|discriminate].
    inversion H; subst. destruct (IH ks eq_refl) as [Hm Hf].
    split; [simpl; now rewrite Hm|]. constructor; [exact Ek | exact Hf].
Qed.

Lemma sort_keys_returns : forall l,
  (forall e, In e l -> int_of (from_2 (d_name e)) <> None) ->
  exists keyed, sort_keys int_of l = Ok keyed.
Proof.
  induction l as [|e l IH]; intros H; simpl; [eexists; reflexivity|].
  unfold py_int.
  destruct (int_of (from_2 (d_name e))) as [k|] eqn:Ek;
    [|exfalso; apply (H e); [now left | exact Ek]].
  destruct IH as [ks Hks]; [intros x Hx; apply H; now right|].
  rewrite Hks. simpl. eexists. reflexivity.
Qed.

Lemma sort_keys_raises : forall l e,
  In e l -> int_of (from_2 (d_name e)) = None ->
  sort_keys int_of l = Raise ValueError.
Proof.
  induction l as [|x l IH]; intros e Hin He; [destruct Hin|]. simpl. unfold py_int.
  destruct Hin as [Hin|Hin].
  - subst x. rewrite He. reflexivity.
  - destruct (int_of (from_2 (d_name x))); [|reflexivity]. simpl.
    rewrite (IH e Hin He). reflexivity.
Qed.

Lemma caseFolders_spec : forall entries,
  ((exists e, In e entries /\ isSimFolder e = true
              /\ int_of (from_2 (d_name e)) = None) ->
   caseFolders int_of entries = Raise ValueError)
  /\ ((forall e, In e entries -> isSimFolder e = true ->
                 int_of (from_2 (d_name e)) <> None) ->
      exists l,
        caseFolders int_of entries = Ok l
        /\ Permutation l (filter isSimFolder entries)
        /\ Sorted (fun a b => (Spec.folder_number int_of a
                               <= Spec.folder_number int_of b)%Z) l).
Proof.
  intros entries. unfold caseFolders. split.
  - intros [e [Hin [Hs He]]].
    rewrite (@sort_keys_raises (filter isSimFolder entries) e); [reflexivity | | exact He].
    apply filter_In. now split.
  - intros H.
    destruct (@sort_keys_returns (filter isSimFolder entries)) as [keyed Hk].
    { intros e He. apply filter_In in He. destruct He. now apply H. }
    rewrite Hk. simpl. eexists. split; [reflexivity|].
    destruct (sort_keys_ok _ Hk) as [Hm Hf].
    destruct (sort_keyed_ok keyed) as [Hp Hs].
    split; [rewrite <- Hm; now apply Permutation_map|].
    assert (Hf' : Forall (keyed_ok int_of) (sort_keyed keyed)).
    { eapply Permutation_Forall; [apply Permutation_sym; exact Hp | exact Hf]. }
    clear Hp. induction Hs as [|h t Ht IH Hh]; simpl; [constructor|].
    inversion Hf' as [|? ? Hh0 Ht0]; subst.
    constructor; [now apply IH|].
    destruct t as [|y t]; simpl; constructor.
    inversion Hh; subst. inversion Ht0 as [|? ? Hy0 _]; subst.
    unfold Spec.folder_number. unfold keyed_ok in Hh0, Hy0. rewrite Hh0, Hy0.
    assumption.
Qed.

End FolderFacts.

Section ClockFacts.
Import Py FolderParser.
Open Scope Q_scope.

Lemma list_max_spec : forall l x,
  In (list_max x l) (x :: l) /\ Forall (fun y => y <= list_max x l) (x :: l).
Proof.
  unfold list_max. induction l as [|y l IH]; intros x; simpl.
  - split; [now left|]. constructor; [apply Qle_refl | constructor].
  - destruct (Qle_bool y x) eqn:E.
    + apply Qle_bool_iff in E. destruct (IH x) as [Hin Hall].
      split; [destruct Hin; [now left | right; now right]|].
      inversion Hall as [|? ? Hx Hl]; subst.
      constructor; [exact Hx|]. constructor; [|exact Hl].
      eapply Qle_trans; eassumption.
    + apply Qle_bool_false in E. destruct (IH y) as [Hin Hall].
      split; [right; exact Hin|].
      inversion Hall as [|? ? Hy Hl]; subst.
      constructor; [|constructor; assumption].
      eapply Qle_trans; [apply Qlt_le_weak; exact E | exact Hy].
Qed.

End ClockFacts.

Section ControlFacts.
Import Py FolderParser.
Open Scope string_scope.

Lemma endTime_line_prefix : forall tend, prefix "endTime" (endTime_line tend) = true.
Proof.
  intros tend. reflexivity.
Qed.

Lemma endTime_line_full : forall tend,
  Spec.no_newline tend = true -> Spec.full_line (endTime_line tend).
Proof.
  intros tend H. exists ("endTime" ++ tab ++ tend ++ ";"). split.
  - unfold endTime_line. now rewrite !append_assoc.
  - apply (@no_newline_app "endTime"); [reflexivity|].
    apply (@no_newline_app tab); [reflexivity|].
    apply no_newline_app; [exact H | reflexivity].
Qed.

(** The loop stops with the value 1 exactly at a line of the end time, and
    otherwise gives every line that starts with the word the new value. *)
Lemma rewrite_endTime_spec : forall tend lines,
  (In (endTime_line tend) lines ->
   exists written, rewrite_endTime tend lines = (1%Z, written))
  /\ (~ In (endTime_line tend) lines ->
      rewrite_endTime tend lines = (0%Z, map (Spec.with_endTime tend) lines)).
Proof.
  intros tend. induction lines as [|line rest [IH1 IH2]].
  - simpl. split; [intros [] | reflexivity].
  - cbn [rewrite_endTime map]. unfold Spec.with_endTime at 1.
    destruct (prefix "endTime" line) eqn:Ep.
    + destruct (String.eqb_spec (endTime_line tend) line) as [E|E].
      * split; [intros _; eexists; reflexivity|].
        intros H. exfalso. apply H. now left.
      * split.
        -- intros [H|H]; [now symmetry in H|].
           destruct (IH1 H) as [w Hw]. rewrite Hw. eexists. reflexivity.
        -- intros H. rewrite IH2 by (intros G; apply H; now right). reflexivity.
    + split.
      * intros [H|H].
        -- subst line. rewrite endTime_line_prefix in Ep. discriminate.
        -- destruct (IH1 H) as [w Hw]. rewrite Hw. eexists. reflexivity.
      * intros H. rewrite IH2 by (intros G; apply H; now right). reflexivity.
Qed.

Lemma modifyControlDict_spec : forall tend content,
  (In (endTime_line tend) (readlines content) ->
   modifyControlDict tend (Some content) = (1%Z, Some content))
  /\ (~ In (endTime_line tend) (readlines content) ->
      modifyControlDict tend (Some content)
      = (0%Z, Some (join (map (Spec.with_endTime tend) (readlines content))))).
Proof.
  intros tend content. unfold modifyControlDict.
  destruct (rewrite_endTime_spec tend (readlines content)) as [H1 H2]. split.
  - intros H. destruct (H1 H) as [w Hw]. rewrite Hw. reflexivity.
  - intros H. rewrite (H2 H). reflexivity.
Qed.

Lemma map_unchanged : forall tend lines,
  (forall line, In line lines -> prefix "endTime" line = false) ->
  map (Spec.with_endTime tend) lines = lines.
Proof.
  intros tend. induction lines as [|l ls IH]; intros H; simpl; [reflexivity|].
  unfold Spec.with_endTime at 1. rewrite (H l (or_introl eq_refl)).
  rewrite IH; [reflexivity|]. intros x Hx. apply H. now right.
Qed.

Lemma lines_ok_with_endTime : forall tend lines,
  Spec.no_newline tend = true -> Spec.lines_ok lines ->
  Spec.lines_ok (map (Spec.with_endTime tend) lines).
Proof.
  intros tend lines Ht. induction lines as [|l ls IH]; intros H; [exact I|].
  assert (Hl : forall l, Spec.full_line l -> Spec.full_line (Spec.with_endTime tend l)).
  { intros x Hx. unfold Spec.with_endTime.
    destruct (prefix "endTime" x); [now apply endTime_line_full | exact Hx]. }
  destruct ls as [|l2 ls].
  - simpl. unfold Spec.with_endTime. destruct (prefix "endTime" l).
    + left. now apply endTime_line_full.
    + exact H.
  - destruct H as [Hf Hok]. specialize (IH Hok).
    change (Spec.lines_ok (Spec.with_endTime tend l
                           :: map (Spec.with_endTime tend) (l2 :: ls))).
    apply lines_ok_cons; [discriminate|]. split; [now apply Hl | exact IH].
Qed.

Lemma modifyControlDict_again : forall tend content,
  Spec.no_newline tend = true ->
  (exists line, In line (readlines content) /\ prefix "endTime" line = true) ->
  modifyControlDict tend (snd (modifyControlDict tend (Some content)))
  = (1%Z, snd (modifyControlDict tend (Some content))).
Proof.
  intros tend content Ht [line [Hin Hp]].
  destruct (modifyControlDict_spec tend content) as [H1 H2].
  destruct (in_dec string_dec (endTime_line tend) (readlines content)) as [Hy|Hn].
  - rewrite (H1 Hy). simpl. apply (H1 Hy).
  - rewrite (H2 Hn). simpl snd.
    destruct (modifyControlDict_spec tend
                (join (map (Spec.with_endTime tend) (readlines content)))) as [G1 _].
    apply G1. rewrite readlines_join.
    + apply in_map_iff. exists line. split; [|exact Hin].
      unfold Spec.with_endTime. now rewrite Hp.
    + apply lines_ok_with_endTime; [exact Ht|].
      apply (readlines_from_ok content EmptyString eq_refl).
Qed.

End ControlFacts.

(** X17.  [caseFolders] raises [ValueError] when the name of a simulation
    folder has no integer behind its first two characters.  Otherwise it
    returns the simulation folders of the listing, each of them once, in
    the order of those integers; [mesh] and the entries without case
    files are left out. *)
Theorem caseFolders_sorts_by_folder_number :
  forall (int_of : string -> option Z) (entries : list FolderParser.dirent),
    ((exists e, In e entries /\ FolderParser.isSimFolder e = true
                /\ int_of (FolderParser.from_2 (FolderParser.d_name e)) = None) ->
     FolderParser.caseFolders int_of entries = Py.Raise Py.ValueError)
    /\ ((forall e, In e entries -> FolderParser.isSimFolder e = true ->
                   int_of (FolderParser.from_2 (FolderParser.d_name e)) <> None) ->
        exists l,
          FolderParser.caseFolders int_of entries = Py.Ok l
          /\ Permutation l (filter FolderParser.isSimFolder entries)
          /\ Sorted (fun a b => (Spec.folder_number int_of a
                                 <= Spec.folder_number int_of b)%Z) l).
Proof.
  intros. apply caseFolders_spec.
Qed.

Lemma caseFolders_sorts_by_folder_number_witness :
  exists l,
    FolderParser.caseFolders FolderParser.decimal_int Scenarios.sweep = Py.Ok l
    /\ Permutation l (filter FolderParser.isSimFolder Scenarios.sweep)
    /\ Sorted (fun a b => (Spec.folder_number FolderParser.decimal_int a
                           <= Spec.folder_number FolderParser.decimal_int b)%Z) l.
Proof.
  apply (caseFolders_sorts_by_folder_number FolderParser.decimal_int Scenarios.sweep).
  intros e [H|[H|[H|[H|[]]]]] Hs; subst e; try discriminate Hs; vm_compute; discriminate.
Defined.

(** X18.  When [times] finds any time, [currentTime] answers the largest
    of them as the simulated time: a time of the list that no time of the
    list exceeds.  Only without any time it falls back on the simulation
    time of the legend.  A failure of [times] is passed on. *)
Theorem currentTime_is_the_latest_time :
  forall (float_of : string -> option Q) (int_of : string -> option Z)
         (t : FolderParser.legend_dict) (sf : FolderParser.simfolder),
    (forall t2 sf',
        FolderParser.times float_of int_of sf = Py.Ok (t2, sf') -> t2 <> [] ->
        exists mx,
          FolderParser.currentTime float_of int_of t sf
          = Py.Ok (FolderParser.IsFloat mx,
                   FolderParser.try_float float_of
                     (FolderParser.IsStr (FolderParser.end_time (FolderParser.currentRate t))),
                   sf')
          /\ In mx t2 /\ Forall (fun x => x <= mx)%Q t2)
    /\ (forall sf',
        FolderParser.times float_of int_of sf = Py.Ok ([], sf') ->
        FolderParser.currentTime float_of int_of t sf
        = Py.Ok (FolderParser.try_float float_of
                   (FolderParser.IsStr
                      (FolderParser.simulation_time (FolderParser.currentRate t))),
                 FolderParser.try_float float_of
                   (FolderParser.IsStr (FolderParser.end_time (FolderParser.currentRate t))),
                 sf'))
    /\ (forall e,
        FolderParser.times float_of int_of sf = Py.Raise e ->
        FolderParser.currentTime float_of int_of t sf = Py.Raise e).
Proof.
  intros float_of int_of t sf. unfold FolderParser.currentTime. split; [|split].
  - intros t2 sf' H Hne. rewrite H. cbn [Py.bind].
    destruct t2 as [|x l]; [congruence|].
    exists (FolderParser.list_max x l). split; [reflexivity|].
    apply list_max_spec.
  - intros sf' H. rewrite H. reflexivity.
  - intros e H. rewrite H. reflexivity.
Qed.

Lemma currentTime_is_the_latest_time_witness :
  exists mx,
    FolderParser.currentTime FolderParser.decimal_float FolderParser.decimal_int []
      Scenarios.run_folder
    = Py.Ok (FolderParser.IsFloat mx,
             FolderParser.try_float FolderParser.decimal_float
               (FolderParser.IsStr (FolderParser.end_time (FolderParser.currentRate []))),
             Scenarios.run_folder)
    /\ In mx [0; 10; 2]%Q /\ Forall (fun x => x <= mx)%Q [0; 10; 2]%Q.
Proof.
  destruct (currentTime_is_the_latest_time FolderParser.decimal_float
              FolderParser.decimal_int [] Scenarios.run_folder) as [H _].
  apply (H [0; 10; 2]%Q Scenarios.run_folder); [vm_compute; reflexivity | discriminate].
Defined.

(** X19.  [modifyControlDict] answers 1 and leaves the dictionary as it is
    when one of its lines is already the line of the end time asked for.
    Otherwise it answers 0 and rewrites the dictionary with every line that
    starts with [endTime] replaced by that line and every other line kept;
    so a dictionary without such a line is reported as changed, with the
    text it had. *)
Theorem modifyControlDict_sets_the_end_time :
  forall (tend content : string),
    (In (FolderParser.endTime_line tend) (Py.readlines content) ->
     FolderParser.modifyControlDict tend (Some content) = (1%Z, Some content))
    /\ (~ In (FolderParser.endTime_line tend) (Py.readlines content) ->
        FolderParser.modifyControlDict tend (Some content)
        = (0%Z, Some (Py.join (map (Spec.with_endTime tend) (Py.readlines content)))))
    /\ ((forall line, In line (Py.readlines content) -> prefix "endTime" line = false) ->
        FolderParser.modifyControlDict tend (Some content) = (0%Z, Some content)).
Proof.
  intros tend content.
  destruct (modifyControlDict_spec tend content) as [H1 H2].
  split; [exact H1|]. split; [exact H2|].
  intros H. rewrite H2.
  - rewrite (map_unchanged tend _ H). now rewrite join_readlines.
  - intros Hin. apply H in Hin. rewrite endTime_line_prefix in Hin. discriminate.
Qed.

(** X20.  Once [modifyControlDict] has run on a dictionary that has a line
    starting with [endTime], a second run with the same end time answers 1
    and leaves the dictionary as the first run left it. *)
Theorem modifyControlDict_second_run_changes_nothing :
  forall (tend content : string),
    Spec.no_newline tend = true ->
    (exists line, In line (Py.readlines content) /\ prefix "endTime" line = true) ->
    FolderParser.modifyControlDict tend
      (snd (FolderParser.modifyControlDict tend (Some content)))
    = (1%Z, snd (FolderParser.modifyControlDict tend (Some content))).
Proof.
  intros. now apply modifyControlDict_again.
Qed.

Lemma modifyControlDict_second_run_changes_nothing_witness :
  FolderParser.modifyControlDict "2.5"
    (snd (FolderParser.modifyControlDict "2.5" (Some Scenarios.controlDict)))
  = (1%Z, snd (FolderParser.modifyControlDict "2.5" (Some Scenarios.controlDict))).
Proof.
  apply modifyControlDict_second_run_changes_nothing.
  - reflexivity.
  - exists ("endTime" ++ FolderParser.tab ++ "1;" ++ Py.nl)%string.
    split; [vm_compute; auto | reflexivity].
Defined.

(* ================================================================== *)
(** * Theorems: what the reconciler leaves alone *)
(* ================================================================== *)

Section FrameFacts.
Import Py FolderParser.
Open Scope string_scope.

Lemma lines_ok_nonempty : forall ls,
  Spec.lines_ok ls -> Forall (fun l => l <> EmptyString) ls.
Proof.
  assert (Hf : forall l, Spec.full_line l -> l <> EmptyString).
  { intros l [body [E _]]. subst l. destruct body; discriminate. }
  induction ls as [|l ls IH]; intros H; [constructor|].
  destruct ls as [|l2 ls].
  - constructor; [|constructor]. destruct H as [H|[H _]]; [now apply Hf | exact H].
  - destruct H as [H Hok]. constructor; [now apply Hf | now apply IH].
Qed.

(** [seek] leaves lines that are not empty, and comes back with the empty
    line only at the end of the file. *)
Lemma seek_keeps : forall pat rest line line' rest' st,
  seek pat line rest = (line', rest', st) ->
  Forall (fun l => l <> EmptyString) rest ->
  (line = EmptyString -> rest = []) ->
  Forall (fun l => l <> EmptyString) rest' /\ (line' = EmptyString -> rest' = []).
Proof.
  induction rest as [|l r IH]; intros line line' rest' st H Hne H0; simpl in H.
  - destruct (contains pat line || (len line =? 0)%nat); inversion H; subst;
      split; auto.
  - destruct (contains pat line || (len line =? 0)%nat).
    + inversion H; subst. split; [exact Hne | exact H0].
    + destruct (seek pat l r) as [[l1 r1] s1] eqn:E. inversion H; subst.
      inversion Hne as [|? ? Hl Hr]; subst.
      apply (IH _ _ _ _ E Hr). intros El. contradiction.
Qed.

Lemma len_pos_false : forall s, (0 <? len s)%nat = false -> s = EmptyString.
Proof.
  intros [|c s] H; [reflexivity | discriminate H].
Qed.

(** A snapshot that needs no correction is written back as it was read. *)
Lemma correctVTM_text_frame : forall content lbl t,
  readVTM_raw content = Ok (lbl, t) -> (lbl <> "0" \/ t = "0") ->
  correctVTM_text content = Ok content.
Proof.
  intros content lbl t. unfold readVTM_raw, correctVTM_text.
  pose proof (join_readlines content) as Hall.
  pose proof (@lines_ok_nonempty _ (readlines_from_ok content EmptyString eq_refl)) as Hne.
  fold (readlines content) in Hne.
  assert (Hs : Forall (fun l => l <> EmptyString) (snd (readline (readlines content)))
               /\ (fst (readline (readlines content)) = EmptyString ->
                   snd (readline (readlines content)) = [])).
  { destruct (readlines content) as [|l r]; simpl; [split; auto|].
    inversion Hne; subst. split; [assumption | intros E; contradiction]. }
  destruct (readline (readlines content)) as [line0 rest0] eqn:E0.
  destruct Hs as [Hne0 H0]. simpl in Hne0, H0.
  apply readline_join in E0. rewrite E0 in Hall.
  destruct (seek "DataSet name=" line0 rest0) as [[line1 rest1] st1] eqn:E1.
  destruct (@seek_keeps _ _ _ _ _ _ E1 Hne0 H0) as [Hne1 H1].
  apply seek_join in E1. rewrite E1 in Hall.
  destruct (if (0 <? len line1)%nat then label_of_line line1 else Ok EmptyString)
    as [lbl'|e]; simpl; [|discriminate].
  destruct (seek "TimeValue" line1 rest1) as [[line2 rest2] st2] eqn:E2.
  destruct (@seek_keeps _ _ _ _ _ _ E2 Hne1 H1) as [Hne2 H2].
  apply seek_join in E2. rewrite E2 in Hall.
  destruct (0 <? len line2)%nat eqn:F2.
  - assert (H3 : fst (readline rest2) = EmptyString -> snd (readline rest2) = []).
    { destruct rest2 as [|l r]; simpl; [reflexivity|].
      inversion Hne2; subst. intros E; contradiction. }
    destruct (readline rest2) as [line3 rest3] eqn:E3. simpl in H3.
    apply readline_join in E3. rewrite E3 in Hall.
    intros H Hc. inversion H as [[Hl Ht]].
    assert (Hcond : String.eqb lbl "0" && negb (String.eqb t "0") = false).
    { destruct Hc as [Hc|Hc].
      - apply String.eqb_neq in Hc. now rewrite Hc.
      - subst t. rewrite String.eqb_refl. simpl. apply andb_false_r. }
    rewrite Ht, Hcond.
    destruct (0 <? len line3)%nat eqn:F3.
    + f_equal. rewrite <- Hall. now rewrite !append_assoc.
    + apply len_pos_false in F3. rewrite (H3 F3) in Hall. rewrite F3 in Hall |- *.
      simpl in Hall. f_equal. rewrite <- Hall. now rewrite !append_assoc.
  - intros H Hc. apply len_pos_false in F2. rewrite (H2 F2) in Hall.
    simpl in Hall. rewrite append_nil_r in Hall. f_equal. rewrite <- Hall.
    now rewrite !append_assoc.
Qed.

Lemma readVTM_name : forall now f lbl t f',
  readVTM now f = Ok (lbl, t, f') -> fname f' = fname f.
Proof.
  intros now f lbl t f' H. unfold readVTM in H.
  destruct (readVTM_raw (text f)) as [[l0 t0]|e]; simpl in H; [|discriminate].
  destruct (String.eqb l0 "0" && negb (String.eqb t0 "0")).
  - unfold correctVTM in H.
    destruct (correctVTM_text (text f)) as [st|e]; simpl in H; [|discriminate].
    inversion H; subst. reflexivity.
  - inversion H; subst. reflexivity.
Qed.

Lemma readVTM_frame : forall now f lbl t,
  readVTM_raw (text f) = Ok (lbl, t) -> (lbl <> "0" \/ t = "0") ->
  readVTM now f = Ok (lbl, t, f).
Proof.
  intros now f lbl t H Hc. unfold readVTM. rewrite H. simpl.
  assert (Hcond : String.eqb lbl "0" && negb (String.eqb t "0") = false).
  { destruct Hc as [Hc|Hc].
    - apply String.eqb_neq in Hc. now rewrite Hc.
    - subst t. rewrite String.eqb_refl. simpl. apply andb_false_r. }
  now rewrite Hcond.
Qed.

End FrameFacts.

(** X21.  A snapshot whose label is not 0, or whose time is already 0,
    needs no correction: [correctVTM] writes back the very text of the file,
    so that only its modification time changes, and [readVTM] answers the
    label and the time as they are read and does not touch the file. *)
Theorem correctVTM_leaves_other_snapshots_alone :
  forall (now : Z) (f : FolderParser.file) (lbl t : string),
    FolderParser.readVTM_raw (FolderParser.text f) = Py.Ok (lbl, t) ->
    (lbl <> "0"%string \/ t = "0"%string) ->
    FolderParser.correctVTM now f
    = Py.Ok (FolderParser.mkFile (FolderParser.fname f) now (FolderParser.text f))
    /\ FolderParser.readVTM now f = Py.Ok (lbl, t, f).
Proof.
  intros now f lbl t H Hc. split.
  - unfold FolderParser.correctVTM.
    rewrite (correctVTM_text_frame _ H Hc). reflexivity.
  - now apply readVTM_frame.
Qed.

Lemma correctVTM_leaves_other_snapshots_alone_witness :
  FolderParser.correctVTM 7 Scenarios.snapshot1
  = Py.Ok (FolderParser.mkFile "case_1.vtm" 7 (Scenarios.vtm_text "1" "0.1"))
  /\ FolderParser.readVTM 7 Scenarios.snapshot1
     = Py.Ok ("1", "0.1", Scenarios.snapshot1)%string.
Proof.
  apply (@correctVTM_leaves_other_snapshots_alone 7 Scenarios.snapshot1 "1" "0.1").
  - vm_compute. reflexivity.
  - left. discriminate.
Defined.

Section FilesFacts.
Import Py FolderParser Inv.
Open Scope string_scope.

Variable int_of : string -> option Z.

Lemma prefix_app : forall p b, prefix p (p ++ b) = true.
Proof.
  induction p as [|c p IH]; intros b; simpl; [now destruct b|].
  destruct (ascii_dec c c) as [_|Hn]; [apply IH | now contradiction Hn].
Qed.

Lemma contains_suffix : forall p a, contains p (a ++ p) = true.
Proof.
  intros p. induction a as [|c a IH].
  - simpl append. pose proof (prefix_app p EmptyString) as H.
    rewrite append_nil_r in H. destruct p; simpl; [reflexivity|].
    simpl in H. now rewrite H.
  - simpl. rewrite IH. apply orb_true_r.
Qed.

Lemma readVTM_kept : forall now f lbl t f',
  readVTM now f = Ok (lbl, t, f') -> endswith (fname f) ".vtm" = true -> kept f f'.
Proof.
  intros now f lbl t f' H Hv. split; [now apply readVTM_name in H|].
  intros [Hn|[l0 [t0 [Hr Hc]]]]; [congruence|].
  rewrite (readVTM_frame now f Hr Hc) in H. now inversion H.
Qed.

Lemma redo_file_files : forall now st f st',
  redo_file int_of now st f = Ok st' ->
  exists f', r_files st' = (r_files st ++ [f'])%list /\ kept f f'.
Proof.
  intros now st f st' H. unfold redo_file in H.
  destruct (endswith (fname f) ".vtm") eqn:Ev.
  - destruct (readVTM now f) as [[[lbl t] f']|e] eqn:Er; simpl in H; [|discriminate].
    exists f'. split; [|now apply (@readVTM_kept _ _ _ _ _ Er)].
    destruct ((0 <? len lbl)%nat && (0 <? len t)%nat); inversion H; reflexivity.
  - assert (Hk : kept f f).
    { split; [reflexivity | auto]. }
    exists f. split; [|exact Hk].
    destruct (endswith (fname f) ".vtk").
    + destruct (index (re_split_vtk (fname f)) 1) as [s|e]; simpl in H; [|discriminate].
      destruct (py_int int_of s) as [z|e]; simpl in H; [|discriminate].
      destruct (match last (map Some (r_tlist st)) None with
                | None => Ok (PyInt 0)
                | Some (PyInt z0) => Ok (PyFloat (inject_Z z0 + (1 # 10)))
                | Some (PyFloat q) => Ok (PyFloat (q + (1 # 10)))
                | Some (PyStr _) => Raise TypeError
                end) as [v|e]; simpl in H; [|discriminate].
      inversion H; reflexivity.
    + inversion H; reflexivity.
Qed.

Lemma redo_loop_files : forall now d st st',
  redo_loop int_of now st d = Ok st' ->
  exists d', r_files st' = (r_files st ++ d')%list /\ Forall2 kept d d'.
Proof.
  intros now. induction d as [|f d IH]; intros st st' H; simpl in H.
  - inversion H; subst. exists []. split; [now rewrite app_nil_r | constructor].
  - destruct (redo_file int_of now st f) as [st1|e] eqn:E1; simpl in H; [|discriminate].
    destruct (@redo_file_files _ _ _ _ E1) as [f' [Hf Hk]].
    destruct (IH _ _ H) as [d' [Hd Hk']].
    exists (f' :: d'). split; [|now constructor].
    rewrite Hd, Hf, <- app_assoc. reflexivity.
Qed.

Lemma exportFile_other : forall now name txt d f,
  In f d -> fname f <> name -> In f (exportFile now name txt d).
Proof.
  intros now name txt. induction d as [|h d IH]; intros f Hin Hn; [destruct Hin|].
  simpl. destruct (String.eqb_spec (fname h) name) as [E|E].
  - destruct Hin as [Hin|Hin]; [subst h; contradiction | now right].
  - destruct Hin as [Hin|Hin]; [now left | right; now apply IH].
Qed.

Lemma exportFile_names : forall now name txt d f,
  In f d -> exists f', In f' (exportFile now name txt d) /\ fname f' = fname f.
Proof.
  intros now name txt. induction d as [|h d IH]; intros f Hin; [destruct Hin|].
  simpl. destruct (String.eqb_spec (fname h) name) as [E|E].
  - destruct Hin as [Hin|Hin].
    + subst h. eexists. split; [now left | simpl; now symmetry].
    + exists f. split; [now right | reflexivity].
  - destruct Hin as [Hin|Hin].
    + subst h. exists f. split; [now left | reflexivity].
    + destruct (IH f Hin) as [f' [H1 H2]]. exists f'. split; [now right | exact H2].
Qed.

Lemma exportFile_length : forall now name txt d,
  (List.length d <= List.length (exportFile now name txt d) <= S (List.length d))%nat.
Proof.
  intros now name txt. induction d as [|h d IH]; simpl; [lia|].
  destruct (String.eqb (fname h) name); simpl; lia.
Qed.

(** What [generateVTKSeries] does to the files of the folder. *)
Lemma generateVTKSeries_files : forall base now d tl fl ending lastTime,
  (forall f, In f d ->
     exists f', In f' (generateVTKSeries base now d tl fl ending lastTime)
                /\ fname f' = fname f)
  /\ (forall f, In f d -> contains ".series" (fname f) = false ->
        In f (generateVTKSeries base now d tl fl ending lastTime))
  /\ (List.length d
      <= List.length (generateVTKSeries base now d tl fl ending lastTime)
      <= S (List.length d))%nat.
Proof.
  intros base now d tl fl ending lastTime. unfold generateVTKSeries.
  destruct (generateVTKSeries_table base d tl fl ending lastTime) as [| |name l] eqn:Eg.
  - repeat split; try lia; intros f Hf; [exists f|]; auto.
  - repeat split; try lia; intros f Hf; [exists f|]; auto.
  - assert (Hname : contains ".series" name = true).
    { unfold generateVTKSeries_table in Eg.
      destruct (match find_series d with
                | Some f => (mtime f >? lastTime)%Z
                | None => false
                end); [discriminate|].
      destruct ((List.length tl =? 0)%nat || (List.length fl =? 0)%nat
                || negb (List.length tl =? List.length fl)%nat); [discriminate|].
      inversion Eg. rewrite <- append_assoc. apply contains_suffix. }
    split; [|split].
    + intros f Hf. now apply exportFile_names.
    + intros f Hf Hc. apply exportFile_other; [exact Hf|].
      intros E. rewrite E, Hname in Hc. discriminate.
    + apply exportFile_length.
Qed.

Lemma Forall2_kept_in : forall d d' f,
  Forall2 kept d d' -> In f d -> exists f', In f' d' /\ kept f f'.
Proof.
  intros d d' f H. induction H as [|x y l l' Hxy Hl IH]; intros Hin; [destruct Hin|].
  destruct Hin as [Hin|Hin].
  - subst x. exists y. split; [now left | exact Hxy].
  - destruct (IH Hin) as [f' [H1 H2]]. exists f'. split; [now right | exact H2].
Qed.

Lemma redo_folder : forall sf sf' d,
  vtk sf = Some d ->
  redoVTKSeriesNoLog int_of sf = Ok sf' ->
  cfbase sf' = cfbase sf /\ listing sf' = listing sf /\ clock sf' = clock sf
  /\ exists d',
       vtk sf' = Some d'
       /\ (forall f, In f d -> exists f', In f' d' /\ fname f' = fname f)
       /\ (forall f, In f d ->
             contains ".series" (fname f) = false ->
             endswith (fname f) ".vtm" = false
             \/ (exists lbl t, readVTM_raw (text f) = Ok (lbl, t)
                               /\ (lbl <> "0" \/ t = "0")) ->
             In f d')
       /\ (List.length d <= List.length d' <= S (List.length d))%nat.
Proof.
  intros sf sf' d Hd H. unfold redoVTKSeriesNoLog in H. rewrite Hd in H.
  destruct (redo_loop int_of (clock sf) (mkRedo [] [] ".vtm" 0 []) d) as [st|e] eqn:El;
    simpl in H; [|discriminate].
  destruct (redo_lists st) as [[tl fl]|e]; simpl in H; [|discriminate].
  inversion H; subst sf'. simpl.
  split; [reflexivity|]. split; [reflexivity|]. split; [reflexivity|].
  eexists. split; [reflexivity|].
  destruct (@redo_loop_files _ _ _ _ El) as [d1 [Hf Hk]]. simpl in Hf. rewrite Hf.
  destruct (generateVTKSeries_files (cfbase sf) (clock sf) d1 tl fl (r_ending st)
              (r_lastTime st)) as [G1 [G2 G3]].
  assert (Hlen : List.length d = List.length d1) by (eapply Forall2_length; eassumption).
  split; [|split].
  - intros f Hin. destruct (@Forall2_kept_in _ _ _ Hk Hin) as [f1 [H1 [Hn _]]].
    destruct (G1 f1 H1) as [f2 [H2 Hn2]]. exists f2. split; [exact H2 | congruence].
  - intros f Hin Hc Hother.
    destruct (@Forall2_kept_in _ _ _ Hk Hin) as [f1 [H1 [_ Hsame]]].
    rewrite (Hsame Hother) in H1. now apply G2.
  - rewrite Hlen. exact G3.
Qed.

(** ** The rows of the table *)

Lemma len_pos_iff : forall s, (0 <? len s)%nat = true <-> s <> EmptyString.
Proof.
  intros [|c s]; simpl; split; intros H.
  - discriminate H.
  - now contradiction H.
  - discriminate.
  - reflexivity.
Qed.

Lemma redo_file_rows : forall now done st f st',
  endswith (fname f) ".vtk" = false ->
  redo_file int_of now st f = Ok st' ->
  rows_inv now done st -> rows_inv now (done ++ [f])%list st'.
Proof.
  intros now done st f st' Hk H [He [rows [Ht [Hf Hr]]]]. unfold redo_file in H.
  assert (Hold : forall t lbl, row_of now done t lbl -> row_of now (done ++ [f])%list t lbl).
  { intros t lbl [g [g' [Hin Hrest]]]. exists g, g'. split; [|exact Hrest].
    apply in_or_app. now left. }
  assert (Hnew : forall t lbl, row_of now (done ++ [f])%list t lbl ->
                   row_of now done t lbl
                   \/ (exists f', endswith (fname f) ".vtm" = true
                                  /\ readVTM now f = Ok (lbl, t, f')
                                  /\ lbl <> EmptyString /\ t <> EmptyString)).
  { intros t lbl [g [g' [Hin Hrest]]]. apply in_app_or in Hin.
    destruct Hin as [Hin|[Hin|[]]].
    - left. exists g, g'. now split.
    - subst g. right. exists g'. exact Hrest. }
  destruct (endswith (fname f) ".vtm") eqn:Ev.
  - destruct (readVTM now f) as [[[lbl t] f']|e] eqn:Er; simpl in H; [|discriminate].
    destruct ((0 <? len lbl)%nat && (0 <? len t)%nat) eqn:Epos; inversion H; subst st';
      (split; [exact He|]).
    + apply andb_true_iff in Epos. destruct Epos as [Hl Hpt].
      apply len_pos_iff in Hl. apply len_pos_iff in Hpt.
      exists (rows ++ [(t, lbl)])%list. simpl.
      split; [rewrite Ht, map_app; reflexivity|].
      split; [rewrite Hf, map_app; reflexivity|].
      intros t0 l0. split.
      * intros Hin. apply in_app_or in Hin. destruct Hin as [Hin|[Hin|[]]].
        -- apply Hold. now apply Hr.
        -- inversion Hin; subst. exists f, f'. split; [apply in_or_app; right; now left|].
           repeat split; assumption.
      * intros Hrow. apply in_or_app. destruct (Hnew _ _ Hrow) as [Ho|[g' [_ [Hg _]]]].
        -- left. now apply Hr.
        -- right. left. inversion Hg; subst; reflexivity.
    + exists rows. simpl. split; [exact Ht|]. split; [exact Hf|].
      intros t0 l0. split.
      * intros Hin. apply Hold. now apply Hr.
      * intros Hrow. destruct (Hnew _ _ Hrow) as [Ho|[g' [_ [Hg [Hl Hpt]]]]];
          [now apply Hr|].
        inversion Hg; subst.
        apply len_pos_iff in Hl. apply len_pos_iff in Hpt.
        rewrite Hl, Hpt in Epos. discriminate.
  - rewrite Hk in H. inversion H; subst st'. split; [exact He|].
    exists rows. simpl. split; [exact Ht|]. split; [exact Hf|].
    intros t0 l0. split.
    + intros Hin. apply Hold. now apply Hr.
    + intros Hrow. destruct (Hnew _ _ Hrow) as [Ho|[g' [Hv _]]]; [now apply Hr|].
      discriminate.
Qed.

Lemma redo_loop_rows : forall now d done st st',
  Forall (fun f => endswith (fname f) ".vtk" = false) d ->
  redo_loop int_of now st d = Ok st' ->
  rows_inv now done st -> rows_inv now (done ++ d)%list st'.
Proof.
  intros now. induction d as [|f d IH]; intros done st st' Hk H Hinv; simpl in H.
  - inversion H; subst. now rewrite app_nil_r.
  - inversion Hk as [|? ? Hf Hd]; subst.
    destruct (redo_file int_of now st f) as [st1|e] eqn:E1; simpl in H; [|discriminate].
    replace (done ++ f :: d)%list with ((done ++ [f]) ++ d)%list
      by (rewrite <- app_assoc; reflexivity).
    apply (IH _ _ _ Hd H). now apply (@redo_file_rows _ _ _ _ _ Hf E1).
Qed.

Lemma all_strs_map : forall (A : Type) (g : A -> string) (l : list A),
  all_strs (map (fun r => PyStr (g r)) l) = Ok (map g l).
Proof.
  intros A g. induction l as [|x l IH]; simpl; [reflexivity|].
  rewrite IH. reflexivity.
Qed.

Lemma combine_fst_snd : forall (A B : Type) (l : list (A * B)),
  combine (map fst l) (map snd l) = l.
Proof.
  intros A B. induction l as [|[a b] l IH]; simpl; [reflexivity | now rewrite IH].
Qed.

Lemma redo_rows : forall sf d tl fl name table,
  vtk sf = Some d ->
  Forall (fun f => endswith (fname f) ".vtk" = false) d ->
  redo_generated int_of sf = Ok (tl, fl, Written name table) ->
  forall t lbl, In (t, lbl) table <-> row_of (clock sf) d t lbl.
Proof.
  intros sf d tl fl name table Hd Hk H. unfold redo_generated in H. rewrite Hd in H.
  destruct (redo_loop int_of (clock sf) (mkRedo [] [] ".vtm" 0 []) d) as [st|e] eqn:El;
    simpl in H; [|discriminate].
  assert (Hinv : rows_inv (clock sf) ([] ++ d)%list st).
  { apply (@redo_loop_rows _ _ _ _ _ Hk El). split; [reflexivity|].
    exists []. simpl. split; [reflexivity|]. split; [reflexivity|].
    intros t lbl. split; [intros [] | intros [f [f' [[] _]]]]. }
  simpl in Hinv. destruct Hinv as [He [rows [Ht [Hf Hr]]]].
  unfold redo_lists in H. rewrite He in H. simpl in H.
  rewrite Ht, Hf in H. rewrite !all_strs_map in H. simpl in H.
  inversion H as [[H1 H2 Hg]].
  apply generated_table in Hg. destruct Hg as [Htab _].
  rewrite combine_fst_snd in Htab.
  intros t lbl. rewrite <- Hr. subst table. split; intros Hin.
  - eapply Permutation_in; [apply Permutation_sym; apply argsort_rows_perm | exact Hin].
  - eapply Permutation_in; [apply argsort_rows_perm | exact Hin].
Qed.

End FilesFacts.

(** X22.  [redoVTKSeriesNoLog] keeps the folder and its files: the case
    folder, its listing and the clock are as before; every file of the VTK
    folder is still there under its name; a file that is not a series file
    stays as it was when it is no [.vtm] snapshot, or a snapshot that needs
    no correction; and at most one file, the series file, is added. *)
Theorem redoVTKSeriesNoLog_keeps_the_other_files :
  forall (int_of : string -> option Z) (sf sf' : FolderParser.simfolder)
         (d : list FolderParser.file),
    FolderParser.vtk sf = Some d ->
    FolderParser.redoVTKSeriesNoLog int_of sf = Py.Ok sf' ->
    FolderParser.cfbase sf' = FolderParser.cfbase sf
    /\ FolderParser.listing sf' = FolderParser.listing sf
    /\ FolderParser.clock sf' = FolderParser.clock sf
    /\ exists d',
         FolderParser.vtk sf' = Some d'
         /\ (forall f, In f d ->
               exists f', In f' d' /\ FolderParser.fname f' = FolderParser.fname f)
         /\ (forall f, In f d ->
               Py.contains ".series" (FolderParser.fname f) = false ->
               Py.endswith (FolderParser.fname f) ".vtm" = false
               \/ (exists lbl t,
                     FolderParser.readVTM_raw (FolderParser.text f) = Py.Ok (lbl, t)
                     /\ (lbl <> "0"%string \/ t = "0"%string)) ->
               In f d')
         /\ (List.length d <= List.length d' <= S (List.length d))%nat.
Proof.
  intros int_of sf sf' d Hd H. now apply redo_folder with (int_of := int_of).
Qed.

Lemma redoVTKSeriesNoLog_keeps_the_other_files_witness :
  exists sf' d',
    FolderParser.redoVTKSeriesNoLog FolderParser.decimal_int Scenarios.vtm_folder
    = Py.Ok sf'
    /\ FolderParser.vtk sf' = Some d'
    /\ (List.length d' <= 4)%nat.
Proof.
  destruct (FolderParser.redoVTKSeriesNoLog FolderParser.decimal_int Scenarios.vtm_folder)
    as [sf'|e] eqn:E.
  - destruct (@redoVTKSeriesNoLog_keeps_the_other_files FolderParser.decimal_int
                Scenarios.vtm_folder sf' _ eq_refl E)
      as [_ [_ [_ [d' [Hd [_ [_ Hlen]]]]]]].
    exists sf', d'. split; [reflexivity|]. split; [exact Hd|].
    simpl in Hlen. lia.
  - vm_compute in E. discriminate E.
Defined.

(** X23.  In a VTK folder without [.vtk] files, the rows of the table that
    [redoVTKSeriesNoLog] writes are exactly the pairs of the time and the
    label that [readVTM] reads from the [.vtm] snapshots of the folder that
    give both: every row pairs a time with the label of the same file. *)
Theorem manifest_rows_are_the_snapshot_pairs :
  forall (int_of : string -> option Z) (sf : FolderParser.simfolder)
         (d : list FolderParser.file) (tl fl : list string) (name : string)
         (table : list (string * string)),
    FolderParser.vtk sf = Some d ->
    Forall (fun f => Py.endswith (FolderParser.fname f) ".vtk" = false) d ->
    FolderParser.redo_generated int_of sf
    = Py.Ok (tl, fl, FolderParser.Written name table) ->
    forall t lbl,
      In (t, lbl) table
      <-> exists f f',
            In f d /\ Py.endswith (FolderParser.fname f) ".vtm" = true
            /\ FolderParser.readVTM (FolderParser.clock sf) f = Py.Ok (lbl, t, f')
            /\ lbl <> EmptyString /\ t <> EmptyString.
Proof.
  intros int_of sf d tl fl name table Hd Hk H t lbl.
  apply (@redo_rows int_of sf d tl fl name table Hd Hk H t lbl).
Qed.

Lemma manifest_rows_are_the_snapshot_pairs_witness :
  In ("0.1", "1")%string [("0.1", "1"); ("0.1", "2")]%string
  <-> exists f f',
        In f [FolderParser.mkFile "case_1.vtm" 1 (Scenarios.vtm_text "1" "0.1");
              FolderParser.mkFile "case_2.vtm" 2 (Scenarios.vtm_text "2" "0.1")]
        /\ Py.endswith (FolderParser.fname f) ".vtm" = true
        /\ FolderParser.readVTM 5 f = Py.Ok ("1", "0.1", f')%string
        /\ "1"%string <> EmptyString /\ "0.1"%string <> EmptyString.
Proof.
  apply (@manifest_rows_are_the_snapshot_pairs FolderParser.decimal_int
           Scenarios.twin_folder _ ["0.1"; "0.1"]%string ["1"; "2"]%string
           "case.vtm.series"%string [("0.1", "1"); ("0.1", "2")]%string eq_refl).
  - repeat constructor.
  - vm_compute. reflexivity.
Defined.

(* ================================================================== *)
(** * Theorems: the metrics of one slice *)
(* ================================================================== *)

Section MetricFacts.
Import Py InterfaceMetrics PlotMetrics.
Open Scope Q_scope.

Lemma unique_has : forall l q, In q l -> exists x, In x (unique l) /\ x == q.
Proof.
  induction l as [|h t IH]; intros q H; [destruct H|]. simpl.
  destruct H as [H|H].
  - subst h. exists q. split; [now left | reflexivity].
  - destruct (IH q H) as [x [Hx Ex]].
    destruct (Qeq_bool x h) eqn:E.
    + apply Qeq_bool_iff in E. exists h. split; [now left|]. Lqa.lra.
    + exists x. split; [|exact Ex]. right. apply filter_In. split; [exact Hx|].
      now rewrite E.
Qed.

Lemma rates_of_ok : forall cols labels rates,
  rates_of cols labels = Ok rates ->
  map fst rates = labels
  /\ Forall (fun lv => column (fst lv) cols = Some (snd lv)) rates.
Proof.
  intros cols. induction labels as [|l ls IH]; intros rates H; simpl in H.
  - inversion H. split; [reflexivity | constructor].
  - destruct (column l cols) as [v|] eqn:Ec; [|discriminate].
    destruct (rates_of cols ls) as [rs|e]; simpl in H; [|discriminate].
    inversion H; subst. destruct (IH rs eq_refl) as [Hm Hf].
    split; [simpl; now rewrite Hm|]. constructor; [exact Ec | exact Hf].
Qed.

Lemma metricVals_ok : forall folder_exists ss time xbehind labels rates,
  metricVals folder_exists ss time xbehind labels = Ok rates ->
  folder_exists = true
  /\ (2 <= List.length ss)%nat
  /\ exists r,
       In r ss
       /\ Qabs2 (l_xbehind r - xbehind) <= 2 # 10
       /\ (forall r', In r' ss ->
             Qabs2 (l_xbehind r - xbehind) <= Qabs2 (l_xbehind r' - xbehind))
       /\ l_time r == time
       /\ (forall r', In r' ss ->
             l_xbehind r' == l_xbehind r -> l_time r' == time -> r' = r)
       /\ map fst rates = labels
       /\ Forall (fun lv => column (fst lv) (l_cols r) = Some (snd lv)) rates.
Proof.
  intros ex ss time xb labels rates H. unfold metricVals in H.
  destruct ex; [|discriminate]. simpl in H.
  destruct (Nat.ltb_spec (List.length ss) 2) as [Hlt|Hge]; [discriminate|].
  split; [reflexivity|]. split; [exact Hge|].
  destruct (closest_spec (unique (map l_xbehind ss)) xb) as [[_ E]|[xreal [E [Hin Hmin]]]];
    rewrite E in H; simpl in H; [discriminate|].
  destruct (Qle_bool (Qabs2 (xreal - xb)) (2 # 10)) eqn:Etol; simpl in H; [|discriminate].
  apply Qle_bool_iff in Etol.
  destruct (filter (fun r => Qeq_bool (l_xbehind r) xreal && Qeq_bool (l_time r) time) ss)
    as [|r [|r2 rest]] eqn:Ef; try discriminate.
  assert (Hr : In r (filter (fun r => Qeq_bool (l_xbehind r) xreal
                                      && Qeq_bool (l_time r) time) ss))
    by (rewrite Ef; now left).
  apply filter_In in Hr. destruct Hr as [Hrin Hrm].
  apply andb_true_iff in Hrm. destruct Hrm as [Hx Ht].
  apply Qeq_bool_iff in Hx. apply Qeq_bool_iff in Ht.
  assert (Ea : Qabs2 (l_xbehind r - xb) == Qabs2 (xreal - xb))
    by (apply Qabs2_comp; Lqa.lra).
  destruct (rates_of_ok _ _ H) as [Hm Hf].
  exists r. split; [exact Hrin|]. split; [Lqa.lra|]. split; [|split; [exact Ht|split]].
  - intros r' Hr'.
    destruct (@unique_has (map l_xbehind ss) (l_xbehind r')) as [x [Hx' Ex]];
      [now apply in_map|].
    eapply Forall_forall in Hmin; [|exact Hx'].
    assert (Eb : Qabs2 (x - xb) == Qabs2 (l_xbehind r' - xb))
      by (apply Qabs2_comp; Lqa.lra).
    Lqa.lra.
  - intros r' Hr' Ex' Et'.
    assert (Hin' : In r' (filter (fun r => Qeq_bool (l_xbehind r) xreal
                                           && Qeq_bool (l_time r) time) ss)).
    { apply filter_In. split; [exact Hr'|]. apply andb_true_iff. split.
      - apply Qeq_bool_iff. Lqa.lra.
      - now apply Qeq_bool_iff. }
    rewrite Ef in Hin'. destruct Hin' as [Hin'|[]]. now symmetry.
  - split; assumption.
Qed.

Lemma metricVals_short : forall folder_exists ss time xbehind labels,
  (List.length ss < 2)%nat ->
  metricVals folder_exists ss time xbehind labels = Raise ValueError.
Proof.
  intros ex ss time xb labels H. unfold metricVals.
  destruct ex; [|reflexivity]. simpl.
  destruct (Nat.ltb_spec (List.length ss) 2); [reflexivity | lia].
Qed.

End MetricFacts.

(** X24.  When [metricVals] returns, the folder exists, the summaries have
    two rows or more, and the values are those of the one row at the time
    asked for whose position is nearest to the position asked for, within
    0.2 of it: one value for every label, in the order of the labels.  A
    table of fewer than two rows is refused with [ValueError], also when
    its row is the one asked for. *)
Theorem metricVals_reads_the_single_nearest_row :
  forall (folder_exists : bool) (ss : list PlotMetrics.ssline) (time xbehind : Q)
         (labels : list string),
    (forall rates,
        PlotMetrics.metricVals folder_exists ss time xbehind labels = Py.Ok rates ->
        folder_exists = true
        /\ (2 <= List.length ss)%nat
        /\ exists r,
             In r ss
             /\ InterfaceMetrics.Qabs2 (PlotMetrics.l_xbehind r - xbehind) <= 2 # 10
             /\ (forall r', In r' ss ->
                   InterfaceMetrics.Qabs2 (PlotMetrics.l_xbehind r - xbehind)
                   <= InterfaceMetrics.Qabs2 (PlotMetrics.l_xbehind r' - xbehind))
             /\ PlotMetrics.l_time r == time
             /\ (forall r', In r' ss ->
                   PlotMetrics.l_xbehind r' == PlotMetrics.l_xbehind r ->
                   PlotMetrics.l_time r' == time -> r' = r)
             /\ map fst rates = labels
             /\ Forall (fun lv => PlotMetrics.column (fst lv) (PlotMetrics.l_cols r)
                                  = Some (snd lv)) rates)
    /\ ((List.length ss < 2)%nat ->
        PlotMetrics.metricVals folder_exists ss time xbehind labels
        = Py.Raise Py.ValueError).
Proof.
  intros ex ss time xb labels. split.
  - intros rates H. now apply metricVals_ok.
  - intros H. now apply metricVals_short.
Qed.

Lemma metricVals_reads_the_single_nearest_row_witness :
  exists rates,
    PlotMetrics.metricVals true Scenarios.summaries (25 # 10) (51 # 10)
      ["area"; "speed"]%string = Py.Ok rates
    /\ map fst rates = ["area"; "speed"]%string.
Proof.
  destruct (PlotMetrics.metricVals true Scenarios.summaries (25 # 10) (51 # 10)
              ["area"; "speed"]%string) as [rates|e] eqn:E.
  - exists rates. split; [reflexivity|].
    destruct (metricVals_reads_the_single_nearest_row true Scenarios.summaries
                (25 # 10) (51 # 10) ["area"; "speed"]%string) as [H _].
    destruct (H rates E) as [_ [_ [r [_ [_ [_ [_ [_ [Hm _]]]]]]]]]. exact Hm.
  - vm_compute in E. discriminate E.
Defined.

(* ================================================================== *)
(** * Theorems: a series file is read back as it was written *)
(* ================================================================== *)

Section RoundTripFacts.
Import Py FolderParser Inv.
Open Scope string_scope.

Variable F : Type.
Variable float_of : string -> option F.

Lemma plain_tail : forall c s, Spec.plain (String c s) = true -> Spec.plain s = true.
Proof.
  intros c s H. simpl in H. apply andb_true_iff in H. now destruct H.
Qed.

Lemma plain_head : forall c s,
  Spec.plain (String c s) = true ->
  c <> " "%char /\ c <> Ascii.ascii_of_nat 34 /\ c <> newline.
Proof.
  intros c s H. simpl in H.
  apply andb_true_iff in H. destruct H as [H _].
  apply andb_true_iff in H. destruct H as [H H3].
  apply andb_true_iff in H. destruct H as [H1 H2].
  apply negb_true_iff in H1. apply negb_true_iff in H2. apply negb_true_iff in H3.
  apply Ascii.eqb_neq in H1. apply Ascii.eqb_neq in H2. apply Ascii.eqb_neq in H3.
  auto.
Qed.

Lemma plain_app : forall s1 s2,
  Spec.plain s1 = true -> Spec.plain s2 = true -> Spec.plain (s1 ++ s2) = true.
Proof.
  induction s1 as [|c s1 IH]; intros s2 H1 H2; [exact H2|].
  simpl in *. apply andb_true_iff in H1. destruct H1 as [Hc H1].
  rewrite Hc. simpl. now apply IH.
Qed.

Lemma plain_no_newline : forall s, Spec.plain s = true -> Spec.no_newline s = true.
Proof.
  induction s as [|c s IH]; intros H; [reflexivity|].
  destruct (plain_head _ _ H) as [_ [_ Hn]]. apply plain_tail in H.
  simpl. rewrite (IH H). apply Ascii.eqb_neq in Hn. now rewrite Hn.
Qed.

(** The key of the time does not begin in a plain string that a double
    quote and a comma follow, nor in one that a blank follows. *)
Lemma time_key_before_quote : forall s x,
  Spec.plain s = true ->
  prefix time_key (s ++ String (Ascii.ascii_of_nat 34) (String "," x)) = false.
Proof.
  intros s x H. unfold time_key, dq.
  destruct s as [|c1 [|c2 [|c3 [|c4 [|c5 s]]]]]; cbn -[ascii_dec]; decide_chars;
    simpl in H; discriminate H.
Qed.

Lemma time_key_before_blank : forall s x,
  Spec.plain s = true -> prefix time_key (s ++ String " " x) = false.
Proof.
  intros s x H. unfold time_key, dq.
  destruct s as [|c1 [|c2 [|c3 [|c4 [|c5 s]]]]]; cbn -[ascii_dec]; decide_chars;
    simpl in H; discriminate H.
Qed.

Lemma row_end_not_plain : forall c x,
  c <> " "%char -> prefix row_end (String c x) = false.
Proof.
  intros c x H. unfold row_end. cbn -[ascii_dec].
  destruct (ascii_dec " " c) as [E|E]; [now symmetry in E | reflexivity].
Qed.

Lemma quiet_plain : forall s rest,
  Spec.plain s = true ->
  (forall s', Spec.plain s' = true -> prefix time_key (s' ++ rest) = false) ->
  quiet s rest.
Proof.
  induction s as [|c s IH]; intros rest H Hk; [exact I|].
  split; [now apply Hk|]. split.
  - simpl append. apply row_end_not_plain. now destruct (plain_head _ _ H).
  - apply IH; [now apply plain_tail in H | exact Hk].
Qed.

Lemma quiet_app : forall s1 s2 rest,
  quiet s1 (s2 ++ rest) -> quiet s2 rest -> quiet (s1 ++ s2) rest.
Proof.
  induction s1 as [|c s1 IH]; intros s2 rest H1 H2; [exact H2|].
  destruct H1 as [Ha [Hb Hc]].
  change (String c s1 ++ s2) with (String c (s1 ++ s2)).
  split; [|split].
  - change (String c (s1 ++ s2) ++ rest) with (String c ((s1 ++ s2) ++ rest)).
    rewrite append_assoc. exact Ha.
  - change (String c (s1 ++ s2) ++ rest) with (String c ((s1 ++ s2) ++ rest)).
    rewrite append_assoc. exact Hb.
  - now apply IH.
Qed.

(** Where no pattern matches, the text goes to the piece being collected. *)
Lemma split_quiet : forall s rest cur,
  quiet s rest ->
  re_split2_from time_key row_end 0 cur (s ++ rest)
  = re_split2_from time_key row_end 0 (cur ++ s) rest.
Proof.
  induction s as [|c s IH]; intros rest cur H.
  - simpl. now rewrite append_nil_r.
  - destruct H as [Ha [Hb Hc]].
    change (String c s ++ rest) with (String c (s ++ rest)) in *.
    cbn [re_split2_from]. rewrite Ha, Hb. rewrite (IH rest _ Hc).
    rewrite append_assoc. reflexivity.
Qed.

Lemma split_at_key : forall cur y,
  re_split2_from time_key row_end 0 cur (time_key ++ y)
  = cur :: re_split2_from time_key row_end 0 EmptyString y.
Proof.
  intros cur y. pose proof (prefix_app time_key y) as Hp.
  change (time_key ++ y)
    with (String "t" (String "i" (String "m" (String "e"
            (String (Ascii.ascii_of_nat 34) (String " " (String ":" (String " " y))))))))
    in *.
  cbn [re_split2_from]. rewrite Hp. reflexivity.
Qed.

Lemma split_at_end : forall cur z,
  re_split2_from time_key row_end 0 cur (row_end ++ z)
  = cur :: re_split2_from time_key row_end 0 EmptyString z.
Proof.
  intros cur z. pose proof (prefix_app row_end z) as Hp.
  change (row_end ++ z) with (String " " (String "}" z)) in *.
  assert (Hk : prefix time_key (String " " (String "}" z)) = false) by reflexivity.
  cbn [re_split2_from]. rewrite Hk, Hp. reflexivity.
Qed.

(** The text of a row, cut at the key of the time. *)
Lemma row_text : forall cf ending t lbl tail,
  series_row cf ending t lbl ++ row_end ++ tail
  = (("    { " ++ dq ++ "name" ++ dq ++ " : " ++ dq)
     ++ (cf ++ "_" ++ lbl ++ ending) ++ (dq ++ ", " ++ dq))
    ++ time_key ++ t ++ row_end ++ tail.
Proof.
  intros cf ending t lbl tail. unfold series_row, time_key.
  repeat rewrite append_assoc. reflexivity.
Qed.

Lemma quiet_before_key : forall cf ending lbl rest,
  Spec.plain cf = true -> Spec.plain ending = true -> Spec.plain lbl = true ->
  quiet (("    { " ++ dq ++ "name" ++ dq ++ " : " ++ dq)
         ++ (cf ++ "_" ++ lbl ++ ending) ++ (dq ++ ", " ++ dq))
        (time_key ++ rest).
Proof.
  intros cf ending lbl rest Hc He Hl.
  apply quiet_app; [|apply quiet_app].
  - unfold time_key, row_end, dq. simpl. repeat split; reflexivity.
  - apply quiet_plain.
    + apply plain_app; [exact Hc|]. apply (@plain_app "_"); [reflexivity|].
      now apply plain_app.
    + intros s' Hs'. now apply time_key_before_quote.
  - unfold time_key, row_end, dq. simpl. repeat split; reflexivity.
Qed.

Lemma row_time : forall cf ending t lbl tail,
  Spec.plain cf = true -> Spec.plain ending = true ->
  Spec.plain lbl = true -> Spec.plain t = true ->
  tail = nl \/ tail = "," ++ nl ->
  index (re_split2 time_key row_end (series_row cf ending t lbl ++ row_end ++ tail)) 1
  = Ok t.
Proof.
  intros cf ending t lbl tail Hc He Hl Ht Htail.
  unfold re_split2. rewrite row_text.
  rewrite split_quiet by now apply quiet_before_key.
  rewrite split_at_key.
  assert (Hq : quiet t (row_end ++ tail)).
  { apply quiet_plain; [exact Ht|]. intros s' Hs'.
    now apply time_key_before_blank. }
  rewrite split_quiet by exact Hq. rewrite split_at_end.
  destruct Htail; subst tail; reflexivity.
Qed.

Lemma row_has_name : forall cf ending t lbl tail,
  contains "name" (series_row cf ending t lbl ++ tail) = true.
Proof.
  intros. reflexivity.
Qed.

Lemma series_row_no_newline : forall cf ending t lbl,
  Spec.plain cf = true -> Spec.plain ending = true ->
  Spec.plain lbl = true -> Spec.plain t = true ->
  Spec.no_newline (series_row cf ending t lbl) = true.
Proof.
  intros cf ending t lbl Hc He Hl Ht. unfold series_row.
  repeat (apply no_newline_app;
          [first [reflexivity | now apply plain_no_newline]|]).
  now apply plain_no_newline.
Qed.

Lemma line_time : forall cf ending t lbl tail,
  Spec.plain cf = true -> Spec.plain ending = true ->
  Spec.plain lbl = true -> Spec.plain t = true ->
  tail = nl \/ tail = "," ++ nl ->
  series_line_time float_of (series_row cf ending t lbl ++ row_end ++ tail)
  = py_float float_of t.
Proof.
  intros cf ending t lbl tail Hc He Hl Ht Htail. unfold series_line_time.
  change ("time" ++ dq ++ " : ") with time_key. change " }" with row_end.
  rewrite row_time by assumption. reflexivity.
Qed.

Lemma series_rows_cons : forall cf ending t lbl r2 l,
  series_rows cf ending ((t, lbl) :: r2 :: l)
  = series_row cf ending t lbl ++ " }," ++ nl ++ series_rows cf ending (r2 :: l).
Proof.
  reflexivity.
Qed.

Lemma row_lines_cons : forall cf ending t lbl r2 l,
  row_lines cf ending ((t, lbl) :: r2 :: l)
  = (series_row cf ending t lbl ++ " }," ++ nl) :: row_lines cf ending (r2 :: l).
Proof.
  reflexivity.
Qed.

Lemma readlines_rows : forall cf ending l footer,
  Spec.plain cf = true -> Spec.plain ending = true -> Forall Spec.plain_row l ->
  readlines_from EmptyString (series_rows cf ending l ++ footer)
  = (row_lines cf ending l ++ readlines_from EmptyString footer)%list.
Proof.
  intros cf ending l footer Hc He. induction l as [|[t lbl] l IH]; intros Hl.
  - reflexivity.
  - inversion Hl as [|? ? [Ht Hlb] Hl']; subst. simpl in Ht, Hlb.
    pose proof (@series_row_no_newline cf ending t lbl Hc He Hlb Ht) as Hn.
    destruct l as [|r2 l].
    + cbn [series_rows row_lines app].
      assert (Hb : Spec.no_newline (series_row cf ending t lbl ++ " }") = true)
        by (apply no_newline_app; [exact Hn | reflexivity]).
      replace ((series_row cf ending t lbl ++ " }" ++ nl) ++ footer)
        with (((series_row cf ending t lbl ++ " }") ++ nl) ++ footer)
        by (now rewrite !append_assoc).
      rewrite (@readlines_from_full _ EmptyString footer Hb).
      simpl append. now rewrite append_assoc.
    + rewrite series_rows_cons, row_lines_cons. cbn [app].
      assert (Hb : Spec.no_newline (series_row cf ending t lbl ++ " },") = true)
        by (apply no_newline_app; [exact Hn | reflexivity]).
      replace ((series_row cf ending t lbl ++ " }," ++ nl
                ++ series_rows cf ending (r2 :: l)) ++ footer)
        with (((series_row cf ending t lbl ++ " },") ++ nl)
              ++ (series_rows cf ending (r2 :: l) ++ footer))
        by (now rewrite !append_assoc).
      rewrite (@readlines_from_full _ EmptyString _ Hb).
      rewrite (IH Hl'). simpl append. now rewrite append_assoc.
Qed.

Lemma series_times_rows : forall cf ending l foot,
  Spec.plain cf = true -> Spec.plain ending = true -> Forall Spec.plain_row l ->
  series_times float_of foot = Ok [] ->
  series_times float_of (row_lines cf ending l ++ foot)%list
  = Spec.py_floats float_of (map fst l).
Proof.
  intros cf ending l foot Hc He Hl Hfoot. induction l as [|[t lbl] l IH].
  - exact Hfoot.
  - inversion Hl as [|? ? [Ht Hlb] Hl']; subst. simpl in Ht, Hlb.
    specialize (IH Hl').
    destruct l as [|r2 l].
    + cbn [row_lines app map fst Spec.py_floats series_times].
      rewrite row_has_name.
      change (series_row cf ending t lbl ++ " }" ++ nl)
        with (series_row cf ending t lbl ++ row_end ++ nl).
      rewrite line_time by auto.
      simpl in IH. rewrite IH. reflexivity.
    + rewrite row_lines_cons.
      cbn [app map fst Spec.py_floats series_times].
      rewrite row_has_name.
      change (series_row cf ending t lbl ++ " }," ++ nl)
        with (series_row cf ending t lbl ++ row_end ++ "," ++ nl).
      rewrite line_time by auto.
      rewrite IH. reflexivity.
Qed.

Lemma series_text_read : forall cf ending table,
  Spec.plain cf = true -> Spec.plain ending = true -> Forall Spec.plain_row table ->
  series_times float_of (readlines (series_text cf ending table))
  = Spec.py_floats float_of (map fst table).
Proof.
  intros cf ending table Hc He Hl. unfold series_text, readlines.
  assert (Hhead : forall x,
            readlines_from EmptyString
              ("{" ++ nl ++ "  " ++ dq ++ "file-series-version" ++ dq ++ " : " ++ dq
               ++ "1.0" ++ dq ++ "," ++ nl ++ "  " ++ dq ++ "files" ++ dq ++ " : ["
               ++ nl ++ x)
            = ("{" ++ nl)
                :: ("  " ++ dq ++ "file-series-version" ++ dq ++ " : " ++ dq ++ "1.0"
                    ++ dq ++ "," ++ nl)
                :: ("  " ++ dq ++ "files" ++ dq ++ " : [" ++ nl)
                :: readlines_from EmptyString x).
  { intros x. reflexivity. }
  rewrite Hhead. rewrite readlines_rows by assumption.
  cbn [series_times].
  assert (H1 : contains "name" ("{" ++ nl) = false) by reflexivity.
  assert (H2 : contains "name"
                 ("  " ++ dq ++ "file-series-version" ++ dq ++ " : " ++ dq ++ "1.0"
                  ++ dq ++ "," ++ nl) = false) by reflexivity.
  assert (H3 : contains "name" ("  " ++ dq ++ "files" ++ dq ++ " : [" ++ nl) = false)
    by reflexivity.
  rewrite H1, H2, H3.
  apply series_times_rows; try assumption. reflexivity.
Qed.

End RoundTripFacts.

(** X25.  A series file is read back as it was written: for a case name,
    an ending, and times and labels without blank, double quote and
    newline, the loop of [parseVTKSeries] over the lines of the text that
    [generateVTKSeries] writes gives [float] of the times of the table, row
    by row, and fails only where [float] fails on one of them. *)
Theorem series_file_is_read_back :
  forall (F : Type) (float_of : string -> option F)
         (cfbasename ending : string) (table : list (string * string)),
    Spec.plain cfbasename = true ->
    Spec.plain ending = true ->
    Forall Spec.plain_row table ->
    FolderParser.series_times float_of
      (Py.readlines (FolderParser.series_text cfbasename ending table))
    = Spec.py_floats float_of (map fst table).
Proof.
  intros. now apply series_text_read.
Qed.

Lemma series_file_is_read_back_witness :
  FolderParser.series_times FolderParser.decimal_float
    (Py.readlines
       (FolderParser.series_text "case" ".vtm" [("0", "0"); ("0.1", "1")]%string))
  = Spec.py_floats FolderParser.decimal_float ["0"; "0.1"]%string.
Proof.
  apply (@series_file_is_read_back Q FolderParser.decimal_float "case" ".vtm"
           [("0", "0"); ("0.1", "1")]%string).
  - reflexivity.
  - reflexivity.
  - repeat constructor.
Defined.

Section OnDemandFacts.
Import Py FolderParser Inv.
Open Scope string_scope.

Variable F : Type.
Variable float_of : string -> option F.
Variable int_of : string -> option Z.

Lemma redo_file_ending : forall now st f st',
  redo_file int_of now st f = Ok st' ->
  r_ending st = ".vtm" \/ r_ending st = ".vtk" ->
  r_ending st' = ".vtm" \/ r_ending st' = ".vtk".
Proof.
  intros now st f st' H He. unfold redo_file in H.
  destruct (endswith (fname f) ".vtm").
  - destruct (readVTM now f) as [[[lbl t] f']|e]; simpl in H; [|discriminate].
    destruct ((0 <? len lbl)%nat && (0 <? len t)%nat); inversion H; exact He.
  - destruct (endswith (fname f) ".vtk").
    + destruct (index (re_split_vtk (fname f)) 1) as [s|e]; simpl in H; [|discriminate].
      destruct (py_int int_of s) as [z|e]; simpl in H; [|discriminate].
      destruct (match last (map Some (r_tlist st)) None with
                | None => Ok (PyInt 0)
                | Some (PyInt z0) => Ok (PyFloat (inject_Z z0 + (1 # 10)))
                | Some (PyFloat q) => Ok (PyFloat (q + (1 # 10)))
                | Some (PyStr _) => Raise TypeError
                end) as [v|e]; simpl in H; [|discriminate].
      inversion H. right. reflexivity.
    + inversion H. exact He.
Qed.

Lemma redo_loop_ending : forall now d st st',
  redo_loop int_of now st d = Ok st' ->
  r_ending st = ".vtm" \/ r_ending st = ".vtk" ->
  r_ending st' = ".vtm" \/ r_ending st' = ".vtk".
Proof.
  intros now. induction d as [|f d IH]; intros st st' H He; simpl in H.
  - inversion H; subst. exact He.
  - destruct (redo_file int_of now st f) as [st1|e] eqn:E1; simpl in H; [|discriminate].
    apply (IH _ _ H). apply (@redo_file_ending _ _ _ _ E1 He).
Qed.

Lemma find_series_kept : forall d d',
  Forall2 kept d d' -> find_series d = None -> find_series d' = None.
Proof.
  intros d d' H. unfold find_series.
  induction H as [|x y l l' [Hn _] Hl IH]; intros Hf; [reflexivity|].
  simpl in *. rewrite Hn.
  destruct (contains ".series" (fname x)); [discriminate | now apply IH].
Qed.

Lemma find_series_export : forall now name txt d,
  find_series d = None -> contains ".series" name = true ->
  find_series (exportFile now name txt d) = Some (mkFile name now txt).
Proof.
  intros now name txt d Hd Hn. unfold find_series in *.
  induction d as [|f d IH]; simpl in *.
  - now rewrite Hn.
  - destruct (contains ".series" (fname f)) eqn:Ef; [discriminate|].
    destruct (String.eqb_spec (fname f) name) as [E|E].
    + rewrite E, Hn in Ef. discriminate.
    + simpl. rewrite Ef. now apply IH.
Qed.

Lemma series_on_demand : forall sf d tl fl name table,
  vtk sf = Some d ->
  find_series d = None ->
  redo_generated int_of sf = Ok (tl, fl, Written name table) ->
  Spec.plain (cfbase sf) = true ->
  Forall Spec.plain_row table ->
  exists f sf',
    redoVTKSeriesNoLog int_of sf = Ok sf'
    /\ series int_of true sf = Ok (Some f, sf')
    /\ fname f = name /\ mtime f = clock sf
    /\ series_times float_of (readlines (text f))
       = Spec.py_floats float_of (map fst table).
Proof.
  intros sf d tl fl name table Hd Hfind H Hc Hrows.
  unfold series. rewrite Hd, Hfind.
  unfold redo_generated in H. unfold redoVTKSeriesNoLog. rewrite Hd in *.
  destruct (redo_loop int_of (clock sf) (mkRedo [] [] ".vtm" 0 []) d) as [st|e] eqn:El;
    cbn [bind] in *; [|discriminate].
  destruct (redo_lists st) as [[tl' fl']|e]; cbn [bind] in *; [|discriminate].
  inversion H as [[H1 H2 Hg]]. subst tl' fl'.
  destruct (@redo_loop_files int_of _ _ _ _ El) as [d1 [Hf Hk]]. simpl in Hf.
  pose proof (find_series_kept Hk Hfind) as Hnone. rewrite <- Hf in Hnone.
  assert (He : r_ending st = ".vtm" \/ r_ending st = ".vtk").
  { apply (@redo_loop_ending _ _ _ _ El). now left. }
  assert (Hpe : Spec.plain (r_ending st) = true).
  { destruct He as [He|He]; rewrite He; reflexivity. }
  assert (Hname : name = cfbase sf ++ r_ending st ++ ".series").
  { unfold generateVTKSeries_table in Hg. rewrite Hnone in Hg.
    destruct ((List.length tl =? 0)%nat || (List.length fl =? 0)%nat
              || negb (List.length tl =? List.length fl)%nat); [discriminate|].
    now inversion Hg. }
  assert (Hcont : contains ".series" name = true).
  { rewrite Hname, <- append_assoc. apply contains_suffix. }
  unfold generateVTKSeries. rewrite Hg, Hnone.
  eexists. eexists. split; [reflexivity|]. cbn [vtk].
  rewrite (@find_series_export _ _ _ _ Hnone Hcont).
  split; [reflexivity|]. split; [reflexivity|]. split; [reflexivity|].
  simpl text. now apply series_text_read.
Qed.

End OnDemandFacts.

(** X26.  In a VTK folder without series file, [series] has the series
    file written on demand and answers that file: it carries the name and
    the table that [redoVTKSeriesNoLog] generates and the modification time
    of the clock, and when the case name and the times and labels of the
    table hold no blank, double quote or newline, the times that
    [parseVTKSeries] reads from it are [float] of the time column of the
    table, row by row. *)
Theorem series_is_written_on_demand_and_read_back :
  forall (F : Type) (float_of : string -> option F) (int_of : string -> option Z)
         (sf : FolderParser.simfolder) (d : list FolderParser.file)
         (tl fl : list string) (name : string) (table : list (string * string)),
    FolderParser.vtk sf = Some d ->
    FolderParser.find_series d = None ->
    FolderParser.redo_generated int_of sf
    = Py.Ok (tl, fl, FolderParser.Written name table) ->
    Spec.plain (FolderParser.cfbase sf) = true ->
    Forall Spec.plain_row table ->
    exists f sf',
      FolderParser.redoVTKSeriesNoLog int_of sf = Py.Ok sf'
      /\ FolderParser.series int_of true sf = Py.Ok (Some f, sf')
      /\ FolderParser.fname f = name
      /\ FolderParser.mtime f = FolderParser.clock sf
      /\ FolderParser.series_times float_of (Py.readlines (FolderParser.text f))
         = Spec.py_floats float_of (map fst table).
Proof.
  intros F float_of int_of sf d tl fl name table Hd Hfind H Hc Hrows.
  now apply series_on_demand with (d := d) (tl := tl) (fl := fl).
Qed.

Lemma series_is_written_on_demand_and_read_back_witness :
  exists f sf',
    FolderParser.redoVTKSeriesNoLog FolderParser.decimal_int Scenarios.twin_folder
    = Py.Ok sf'
    /\ FolderParser.series FolderParser.decimal_int true Scenarios.twin_folder
       = Py.Ok (Some f, sf')
    /\ FolderParser.fname f = "case.vtm.series"%string
    /\ FolderParser.mtime f = FolderParser.clock Scenarios.twin_folder
    /\ FolderParser.series_times FolderParser.decimal_float
         (Py.readlines (FolderParser.text f))
       = Spec.py_floats FolderParser.decimal_float
           (map fst [("0.1", "1"); ("0.1", "2")]%string).
Proof.
  apply (@series_is_written_on_demand_and_read_back Q FolderParser.decimal_float
           FolderParser.decimal_int Scenarios.twin_folder _
           ["0.1"; "0.1"]%string ["1"; "2"]%string "case.vtm.series"%string
           [("0.1", "1"); ("0.1", "2")]%string eq_refl).
  - reflexivity.
  - vm_compute. reflexivity.
  - reflexivity.
  - repeat constructor.
Defined.

(* ================================================================== *)
(** * Theorems: legends *)
(* ================================================================== *)

Section LegendFacts.
Import Py FolderParser.
Open Scope string_scope.

Lemma first_cells_ok : forall t,
  Forall (fun r => r <> []) t -> first_cells t = Ok (map (hd EmptyString) t).
Proof.
  induction t as [|r t IH]; intros H; [reflexivity|].
  inversion H as [|? ? Hr Ht]; subst.
  destruct r as [|h cells]; [congruence|]. simpl. rewrite (IH Ht). reflexivity.
Qed.

Lemma first_cells_empty_row : forall t,
  In [] t -> first_cells t = Raise IndexError.
Proof.
  induction t as [|r t IH]; intros H; [destruct H|].
  destruct r as [|h cells]; [reflexivity|]. simpl.
  destruct H as [H|H]; [discriminate|]. rewrite (IH H). reflexivity.
Qed.

Lemma section_word_iff : forall h,
  existsb (String.eqb h) section_words = true <-> In h section_words.
Proof.
  intros h. rewrite existsb_exists. split.
  - intros [x [Hx E]]. apply String.eqb_eq in E. now subst.
  - intros H. exists h. split; [exact H | apply String.eqb_refl].
Qed.

(** What the renaming makes of a row. *)
Lemma legend_row_spec : forall headers headers2 section done h0 cells rest',
  Forall (fun r => r <> []) done ->
  Forall (fun r => r <> []) rest' ->
  (h0 = EmptyString -> rest' = [] ->
   legend_row headers headers2 section done h0 cells rest' = Raise IndexError)
  /\ (h0 <> EmptyString \/ rest' <> [] ->
      exists n hs s,
        legend_row headers headers2 section done h0 cells rest' = Ok (n :: cells, hs, s)
        /\ (h0 = EmptyString \/ In h0 section_words -> n = h0)
        /\ (h0 <> EmptyString -> ~ In h0 section_words ->
            (count h0 headers <= 1)%nat -> n = underscores h0)).
Proof.
  intros headers headers2 section done h0 cells rest' Hd Hr. unfold legend_row.
  destruct (String.eqb_spec h0 EmptyString) as [E|E].
  - split.
    + intros _ Hn. subst rest'. reflexivity.
    + intros [Hne|Hne]; [contradiction|].
      destruct rest' as [|r2 rest2]; [congruence|].
      inversion Hr as [|? ? Hr2 _]; subst.
      destruct r2 as [|h1 c1]; [congruence|].
      exists EmptyString, headers2, h1. split; [reflexivity|].
      split; [reflexivity | intros H; congruence].
  - split; [intros H; contradiction|]. intros _.
    destruct (existsb (String.eqb h0) section_words) eqn:Es.
    + apply section_word_iff in Es.
      exists h0, headers2, h0. split; [reflexivity|].
      split; [reflexivity | intros _ H; contradiction].
    + assert (Hns : ~ In h0 section_words).
      { intros H. apply section_word_iff in H. congruence. }
      destruct (Nat.ltb_spec 1 (count h0 headers)) as [Hc|Hc].
      * set (n := if (0 <? count _ headers2)%nat || (len section =? 0)%nat
                  then _ else _).
        assert (Hall : Forall (fun r => r <> []) (done ++ (n :: cells) :: rest')%list).
        { apply Forall_app. split; [exact Hd|]. constructor; [discriminate | exact Hr]. }
        rewrite (first_cells_ok Hall). cbn [bind].
        eexists. eexists. eexists. split; [reflexivity|].
        split; [intros [H|H]; contradiction | intros _ _ H; lia].
      * exists (underscores h0), headers2, section. split; [reflexivity|].
        split; [intros [H|H]; contradiction | reflexivity].
Qed.

Lemma blank_last_cons : forall r r2 t,
  Spec.blank_last (r :: r2 :: t) = Spec.blank_last (r2 :: t).
Proof.
  reflexivity.
Qed.

Lemma legend_loop_spec : forall headers rest headers2 section done,
  Forall (fun r => r <> []) done ->
  Forall (fun r => r <> []) rest ->
  (Spec.blank_last rest = true ->
   legend_loop headers headers2 section done rest = Raise IndexError)
  /\ (Spec.blank_last rest = false ->
      exists rest',
        legend_loop headers headers2 section done rest = Ok (done ++ rest')%list
        /\ Forall2 (Spec.renamed headers) rest rest').
Proof.
  intros headers. induction rest as [|row rest IH]; intros headers2 section done Hd Hr.
  - split; [discriminate|]. intros _. exists []. split; [|constructor].
    simpl. now rewrite app_nil_r.
  - inversion Hr as [|? ? Hrow Hrest]; subst.
    destruct row as [|h0 cells]; [congruence|].
    destruct (legend_row_spec headers headers2 section h0 cells Hd Hrest) as [Hfail Hok].
    assert (Hlast : rest = [] -> Spec.blank_last [h0 :: cells] = true -> h0 = EmptyString).
    { intros _ H. unfold Spec.blank_last in H. simpl in H.
      destruct h0; [reflexivity | discriminate]. }
    assert (Hstep : h0 <> EmptyString \/ rest <> [] ->
              forall n hs s,
                legend_row headers headers2 section done h0 cells rest
                = Ok (n :: cells, hs, s) ->
                (h0 = EmptyString \/ In h0 section_words -> n = h0) ->
                (h0 <> EmptyString -> ~ In h0 section_words ->
                 (count h0 headers <= 1)%nat -> n = underscores h0) ->
                exists row'',
                  Spec.renamed headers (h0 :: cells) row'' /\ row'' <> []
                  /\ legend_loop headers headers2 section done ((h0 :: cells) :: rest)
                     = legend_loop headers hs s (done ++ [row''])%list rest).
    { intros _ n hs s E Hn1 Hn2.
      exists (n :: (if (List.length cells =? 1)%nat then cells ++ [EmptyString]
                    else cells)%list).
      split; [exists h0, cells, n; auto|]. split; [discriminate|].
      cbn [legend_loop]. rewrite E. cbn [bind]. cbn [List.length].
      destruct cells as [|c1 [|c2 cells]]; reflexivity. }
    destruct rest as [|r2 rest].
    + split.
      * intros Hb. cbn [legend_loop].
        rewrite Hfail; [reflexivity | now apply Hlast | reflexivity].
      * intros Hb.
        assert (Hne : h0 <> EmptyString).
        { intros E. subst h0. discriminate Hb. }
        destruct (Hok (or_introl Hne)) as [n [hs [s [E [Hn1 Hn2]]]]].
        destruct (Hstep (or_introl Hne) n hs s E Hn1 Hn2) as [row'' [Hren [_ Hloop]]].
        rewrite Hloop.
        exists [row'']. split; [reflexivity|]. constructor; [exact Hren | constructor].
    + assert (Hne : h0 <> EmptyString \/ r2 :: rest <> []) by (right; discriminate).
      destruct (Hok Hne) as [n [hs [s [E [Hn1 Hn2]]]]].
      destruct (Hstep Hne n hs s E Hn1 Hn2) as [row'' [Hren [Hnn Hloop]]].
      rewrite Hloop. rewrite blank_last_cons.
      assert (Hd' : Forall (fun r => r <> []) (done ++ [row''])%list).
      { apply Forall_app. split; [exact Hd|]. constructor; [exact Hnn | constructor]. }
      destruct (IH hs s (done ++ [row''])%list Hd' Hrest) as [IH1 IH2].
      split; [exact IH1|]. intros Hb.
      destruct (IH2 Hb) as [rest' [El Hf]].
      exists (row'' :: rest'). split; [|now constructor].
      rewrite El, <- app_assoc. reflexivity.
Qed.

(** The pairs of the rows after the loop. *)
Lemma values_of_ok : forall t,
  Forall (fun r => (2 <= List.length r)%nat) t ->
  values_of t = Ok (map (fun r => (hd EmptyString r, nth 1 r EmptyString)) t).
Proof.
  induction t as [|r t IH]; intros H; [reflexivity|].
  inversion H as [|? ? Hr Ht]; subst.
  destruct r as [|k [|v r]]; simpl in Hr; try lia.
  simpl. rewrite (IH Ht). reflexivity.
Qed.

Lemma values_of_short : forall t r,
  In r t -> (List.length r < 2)%nat -> values_of t = Raise IndexError.
Proof.
  induction t as [|x t IH]; intros r Hin Hr; [destruct Hin|].
  destruct Hin as [Hin|Hin].
  - subst x. destruct r as [|k [|v r]]; simpl in Hr; try lia; reflexivity.
  - destruct x as [|k [|v x]]; try reflexivity. simpl.
    rewrite (IH r Hin Hr). reflexivity.
Qed.

Lemma renamed_length : forall headers r r',
  Spec.renamed headers r r' ->
  ((2 <= List.length r)%nat <-> (2 <= List.length r')%nat).
Proof.
  intros headers r r' [h [cells [n [Er [Er' _]]]]]. subst r r'.
  destruct cells as [|c1 [|c2 cells]]; simpl; lia.
Qed.

Lemma renamed_rows_length : forall headers t t',
  Forall2 (Spec.renamed headers) t t' ->
  (Forall (fun r => (2 <= List.length r)%nat) t
   -> Forall (fun r => (2 <= List.length r)%nat) t')
  /\ (forall r, In r t -> (List.length r < 2)%nat ->
        exists r', In r' t' /\ (List.length r' < 2)%nat).
Proof.
  intros headers t t' H. induction H as [|r r' t t' Hr Ht [IH1 IH2]].
  - split; [auto | intros r []].
  - pose proof (renamed_length Hr) as Hl. split.
    + intros Hall. inversion Hall; subst. constructor; [tauto | auto].
    + intros x [Hx|Hx] Hs.
      * subst x. exists r'. split; [now left | lia].
      * destruct (IH2 x Hx Hs) as [x' [Hx' Hs']]. exists x'. split; [now right | exact Hs'].
Qed.

Lemma nonempty_rows : forall t : list (list string),
  Forall (fun r => (2 <= List.length r)%nat) t -> Forall (fun r => r <> []) t.
Proof.
  intros t H. eapply Forall_impl; [|exact H].
  intros r Hr E. subst r. simpl in Hr. lia.
Qed.

Lemma legendTableToDict_ok : forall t,
  Forall (fun r => (2 <= List.length r)%nat) t ->
  Spec.blank_last t = false ->
  exists t',
    Forall2 (Spec.renamed (map (hd EmptyString) t)) t t'
    /\ legendTableToDict t
       = Ok (to_dict (map (fun r => (hd EmptyString r, nth 1 r EmptyString)) t')).
Proof.
  intros t Hlen Hb. unfold legendTableToDict.
  pose proof (nonempty_rows Hlen) as Hne.
  rewrite (first_cells_ok Hne). cbn [bind].
  destruct (@legend_loop_spec (map (hd EmptyString) t) t (map (hd EmptyString) t)
              EmptyString [] (Forall_nil _) Hne) as [_ H].
  destruct (H Hb) as [t' [El Hf]]. simpl in El. rewrite El. cbn [bind].
  exists t'. split; [exact Hf|].
  destruct (renamed_rows_length Hf) as [Hl _].
  rewrite (values_of_ok (Hl Hlen)). reflexivity.
Qed.

Lemma legendTableToDict_raises : forall t,
  (exists r, In r t /\ (List.length r < 2)%nat) \/ Spec.blank_last t = true ->
  legendTableToDict t = Raise IndexError.
Proof.
  intros t H. unfold legendTableToDict.
  destruct (in_dec (list_eq_dec string_dec) [] t) as [He|He].
  { rewrite (first_cells_empty_row _ He). reflexivity. }
  assert (Hne : Forall (fun r => r <> []) t).
  { apply Forall_forall. intros r Hr E. subst r. contradiction. }
  rewrite (first_cells_ok Hne). cbn [bind].
  destruct (@legend_loop_spec (map (hd EmptyString) t) t (map (hd EmptyString) t)
              EmptyString [] (Forall_nil _) Hne) as [H1 H2].
  destruct (Spec.blank_last t) eqn:Hb.
  - rewrite (H1 eq_refl). reflexivity.
  - destruct H as [[r [Hr Hs]]|H]; [|discriminate].
    destruct (H2 eq_refl) as [t' [El Hf]]. simpl in El. rewrite El. cbn [bind].
    destruct (renamed_rows_length Hf) as [_ Hshort].
    destruct (Hshort r Hr Hs) as [r' [Hr' Hs']].
    rewrite (values_of_short _ _ Hr' Hs'). reflexivity.
Qed.

(** ** Rows that share a header *)

Lemma dict_set_same : forall pairs k x,
  fold_left (fun d kv => dict_set (fst kv) (snd kv) d)
            (map (fun v => (k, v)) pairs) [(k, x)]
  = [(k, last (x :: pairs) EmptyString)].
Proof.
  induction pairs as [|v pairs IH]; intros k x; [reflexivity|].
  cbn [map fold_left dict_set fst snd]. rewrite String.eqb_refl. rewrite IH.
  reflexivity.
Qed.

Lemma count_same : forall (h : string) (A : Type) (l : list A),
  count h (map (fun _ => h) l) = List.length l.
Proof.
  intros h A l. unfold count. induction l as [|x l IH]; [reflexivity|].
  simpl. rewrite String.eqb_refl. simpl. now rewrite IH.
Qed.

Lemma legend_loop_same : forall headers h vs headers2 done,
  h <> EmptyString -> ~ In h section_words ->
  (1 < count h headers)%nat ->
  Forall (fun r => r <> []) done ->
  legend_loop headers headers2 EmptyString done (map (fun v => [h; v]) vs)
  = Ok (done ++ map (fun v => [(underscores h ++ "_0")%string; v; EmptyString]) vs)%list.
Proof.
  intros headers h vs. induction vs as [|v vs IH]; intros headers2 done Hh Hs Hc Hd.
  - simpl. now rewrite app_nil_r.
  - cbn [map legend_loop]. unfold legend_row.
    apply String.eqb_neq in Hh. rewrite Hh.
    assert (Es : existsb (String.eqb h) section_words = false).
    { destruct (existsb (String.eqb h) section_words) eqn:E; [|reflexivity].
      apply section_word_iff in E. contradiction. }
    rewrite Es.
    destruct (Nat.ltb_spec 1 (count h headers)) as [_|Hn]; [|lia].
    cbn [len String.length Nat.ltb Nat.leb Nat.eqb orb].
    rewrite orb_true_r.
    assert (Hall : Forall (fun r => r <> [])
                     (done ++ [(underscores h ++ "_0")%string; v]
                           :: map (fun v0 => [h; v0]) vs)%list).
    { apply Forall_app. split; [exact Hd|]. constructor; [discriminate|].
      apply Forall_forall. intros r Hr. apply in_map_iff in Hr.
      destruct Hr as [x [E _]]. subst r. discriminate. }
    rewrite (first_cells_ok Hall). cbn [bind List.length Nat.eqb app].
    rewrite IH.
    + rewrite <- app_assoc. reflexivity.
    + now apply String.eqb_neq.
    + exact Hs.
    + exact Hc.
    + apply Forall_app. split; [exact Hd|]. constructor; [discriminate | constructor].
Qed.

Lemma legendTableToDict_same : forall h vs,
  h <> EmptyString -> ~ In h section_words -> (2 <= List.length vs)%nat ->
  legendTableToDict (map (fun v => [h; v]) vs)
  = Ok [(underscores h ++ "_0", last vs EmptyString)].
Proof.
  intros h vs Hh Hs Hlen. unfold legendTableToDict.
  assert (Hne : Forall (fun r => r <> []) (map (fun v => [h; v]) vs)).
  { apply Forall_forall. intros r Hr. apply in_map_iff in Hr.
    destruct Hr as [x [E _]]. subst r. discriminate. }
  rewrite (first_cells_ok Hne). cbn [bind]. rewrite map_map. cbn [hd].
  rewrite legend_loop_same; [|exact Hh | exact Hs | rewrite count_same; lia | constructor].
  cbn [bind app].
  rewrite values_of_ok.
  - cbn [bind]. rewrite map_map. cbn [hd nth]. unfold to_dict.
    destruct vs as [|v vs]; [simpl in Hlen; lia|].
    cbn [map fold_left dict_set fst snd].
    rewrite (dict_set_same vs (underscores h ++ "_0") v). reflexivity.
  - apply Forall_forall. intros r Hr. apply in_map_iff in Hr.
    destruct Hr as [x [E _]]. subst r. simpl. lia.
Qed.

End LegendFacts.

(** X27.  [legendTableToDict] returns a dictionary when every row of the
    legend has two cells or more and the last row does not begin with an
    empty cell.  It raises [IndexError] when a row has fewer than two
    cells, as the row of an empty line has, or when the last row begins
    with an empty cell, since the name of the section is then read from the
    row behind it. *)
Theorem legendTableToDict_fails_on_short_rows :
  forall t : list (list string),
    (Forall (fun r => (2 <= List.length r)%nat) t /\ Spec.blank_last t = false ->
     exists d, FolderParser.legendTableToDict t = Py.Ok d)
    /\ ((exists r, In r t /\ (List.length r < 2)%nat) \/ Spec.blank_last t = true ->
        FolderParser.legendTableToDict t = Py.Raise Py.IndexError).
Proof.
  intros t. split.
  - intros [Hlen Hb]. destruct (legendTableToDict_ok Hlen Hb) as [t' [_ E]].
    eexists. exact E.
  - apply legendTableToDict_raises.
Qed.

(** X28.  The dictionary that [legendTableToDict] returns is made from the
    rows of the legend in their order, each with the value it had: only
    first cells are changed.  A first cell that is empty or the name of a
    section stays, and a first cell that occurs once in the first column
    has its blanks replaced by underscores. *)
Theorem legendTableToDict_keeps_values_and_order :
  forall (t : list (list string)) (d : FolderParser.legend_dict),
    FolderParser.legendTableToDict t = Py.Ok d ->
    exists t',
      Forall2 (Spec.renamed (map (hd EmptyString) t)) t t'
      /\ map (fun r => nth 1 r EmptyString) t' = map (fun r => nth 1 r EmptyString) t
      /\ d = FolderParser.to_dict
               (map (fun r => (hd EmptyString r, nth 1 r EmptyString)) t').
Proof.
  intros t d H.
  destruct (Forall_Exists_dec (fun r : list string => (2 <= List.length r)%nat)
              (fun r => le_dec 2 (List.length r)) t) as [Hlen|Hlen].
  - destruct (Spec.blank_last t) eqn:Hb.
    + rewrite legendTableToDict_raises in H by now right. discriminate.
    + destruct (legendTableToDict_ok Hlen Hb) as [t' [Hf E]].
      rewrite E in H. inversion H. exists t'. split; [exact Hf|]. split; [|reflexivity].
      clear - Hf. induction Hf as [|r r' l l' Hr Hl IH]; [reflexivity|].
      simpl. rewrite IH. f_equal.
      destruct Hr as [h [cells [n [Er [Er' _]]]]]. subst r r'.
      destruct cells as [|c1 [|c2 cells]]; reflexivity.
  - apply Exists_exists in Hlen. destruct Hlen as [r [Hr Hs]].
    rewrite legendTableToDict_raises in H; [discriminate|].
    left. exists r. split; [exact Hr | lia].
Qed.

Lemma legendTableToDict_keeps_values_and_order_witness :
  exists d t',
    FolderParser.legendTableToDict Scenarios.legend_rows = Py.Ok d
    /\ map (fun r => nth 1 r EmptyString) t'
       = [EmptyString; "1"; EmptyString; "2"; "16"]%string
    /\ d = FolderParser.to_dict
             (map (fun r => (hd EmptyString r, nth 1 r EmptyString)) t').
Proof.
  destruct (FolderParser.legendTableToDict Scenarios.legend_rows) as [d|e] eqn:E.
  - destruct (legendTableToDict_keeps_values_and_order Scenarios.legend_rows E)
      as [t' [_ [Hv Hd]]].
    exists d, t'. split; [reflexivity|]. split; [exact Hv | exact Hd].
  - vm_compute in E. discriminate E.
Defined.

(** X29.  [legendTableToDict] does not keep apart the rows that share a
    header outside any section and carry no unit: they all get the header
    with [_0] behind it, and the dictionary holds that one key, with the
    value of the last of these rows. *)
Theorem legendTableToDict_merges_repeated_headers :
  forall (h : string) (vs : list string),
    h <> EmptyString ->
    ~ In h FolderParser.section_words ->
    (2 <= List.length vs)%nat ->
    FolderParser.legendTableToDict (map (fun v => [h; v]) vs)
    = Py.Ok [((FolderParser.underscores h ++ "_0")%string, last vs EmptyString)].
Proof.
  intros. now apply legendTableToDict_same.
Qed.

Lemma legendTableToDict_merges_repeated_headers_witness :
  FolderParser.legendTableToDict
    (map (fun v => ["density"; v]%string) ["1000"; "1100"; "1200"]%string)
  = Py.Ok [("density_0", "1200")]%string.
Proof.
  apply (@legendTableToDict_merges_repeated_headers "density"
           ["1000"; "1100"; "1200"]%string).
  - discriminate.
  - intros [H|[H|[H|[H|[]]]]]; discriminate H.
  - simpl. lia.
Defined.

(* ================================================================== *)
(** * Theorems: the order of a steady range *)
(* ================================================================== *)

Section RangeFacts.
Import Py InterfaceMetrics.
Open Scope Q_scope.

Variable dother : Q.
Variable vdcrit : Q.
Variable m : mode.

Lemma Qlt_strongly_sorted : forall l, Sorted Qlt l -> StronglySorted Qlt l.
Proof.
  apply Sorted_StronglySorted. intros x y z. apply Qlt_trans.
Qed.

(** A loop that starts behind the value [a] stops at [a] or at a later
    value of the list, and leaves the values behind the one it stops at. *)
Lemma scan_order : forall cond l1 rest vd a vd' xo' rest',
  scan dother m cond l1 vd (Some a) rest = (vd', xo', rest') ->
  StronglySorted Qlt rest ->
  Forall (fun v => a < v) rest ->
  exists b,
    xo' = Some b /\ a <= b /\ In b (a :: rest)
    /\ StronglySorted Qlt rest' /\ Forall (fun v => b < v) rest'.
Proof.
  induction rest as [|v rest IH]; intros vd a vd' xo' rest' H Hs Ha; simpl in H.
  - inversion H; subst. exists a. split; [reflexivity|].
    split; [apply Qle_refl|]. split; [now left|]. split; constructor.
  - destruct (cond vd).
    + inversion Hs as [|? ? Hs' Hv]; subst.
      inversion Ha as [|? ? Hav _]; subst.
      destruct (IH _ _ _ _ _ H Hs' Hv) as [b [E [Hle [Hin [Hs2 Hb]]]]].
      exists b. split; [exact E|]. split; [|split; [right; exact Hin | split; assumption]].
      apply Qlt_le_weak. eapply Qlt_le_trans; eassumption.
    + inversion H; subst. exists a. split; [reflexivity|].
      split; [apply Qle_refl|]. split; [now left|]. split; assumption.
Qed.

Lemma steady_group_range : forall ss g row,
  steady_group dother vdcrit m ss g = Ok (Some row) ->
  exists other0 otherf,
    row = steady_row m g other0 otherf
    /\ In other0 (Spec.scanned m ss g)
    /\ (otherf = 1000
        \/ (In otherf (Spec.scanned m ss g) /\ other0 <= otherf)).
Proof.
  intros ss g row H. rewrite steady_group_scanned in H.
  pose proof (Qlt_strongly_sorted
                (sort_unique_sorted (map (by_mode (other m)) (Spec.group m ss g)))) as Hs.
  fold (Spec.scanned m ss g) in Hs.
  destruct (Spec.scanned m ss g) as [|v0 list2]; [discriminate H|].
  cbn [scan] in H.
  destruct (above vdcrit (Some 100)); [|discriminate H].
  inversion Hs as [|? ? Hs0 Hv0]; subst.
  destruct (scan dother m (above vdcrit) (Spec.group m ss g)
              (vdrange_at dother m (Spec.group m ss g) v0) (Some v0) list2)
    as [[vd xo] rest] eqn:E1.
  destruct (scan_order _ _ _ E1 Hs0 Hv0) as [b [Exo [Hvb [Hinb [Hs1 Hb]]]]].
  subst xo. destruct rest as [|w rest]; [discriminate H|].
  destruct (scan dother m (within vdcrit) (Spec.group m ss g) vd (Some b) (w :: rest))
    as [[vd' xo'] rest'] eqn:E2.
  destruct (scan_order _ _ _ E2 Hs1 Hb) as [c [Exo' [Hbc [Hinc _]]]].
  subst xo'. inversion H.
  assert (Hrest : forall x, In x (w :: rest) -> In x (v0 :: list2)).
  { intros x Hx. apply scan_xtother in E1. destruct E1 as [_ [_ E1]].
    right. now apply E1. }
  exists b. eexists. split; [reflexivity|]. split; [exact Hinb|].
  destruct rest' as [|u rest'']; [now left|].
  right. split; [|exact Hbc].
  destruct Hinc as [Hinc|Hinc]; [now subst c | now apply Hrest].
Qed.

End RangeFacts.

(** X30.  A row that a group gets comes from [steady_row] with a start
    that is a scanned value of the group and an end that is either the
    end mark 1000 or a scanned value of the group that is not before the
    start. *)
Theorem steady_range_is_ordered :
  forall (dother vdcrit : Q) (m : InterfaceMetrics.mode)
         (ss : list InterfaceMetrics.ssrow) (g : Q) (row : Q * Q * Q),
    InterfaceMetrics.steady_group dother vdcrit m ss g = Py.Ok (Some row) ->
    exists other0 otherf,
      row = InterfaceMetrics.steady_row m g other0 otherf
      /\ In other0 (Spec.scanned m ss g)
      /\ (otherf = 1000
          \/ (In otherf (Spec.scanned m ss g) /\ other0 <= otherf)).
Proof.
  intros dother vdcrit m ss g row H.
  now apply steady_group_range with (dother := dother) (vdcrit := vdcrit).
Qed.

Lemma steady_range_is_ordered_witness :
  exists other0 otherf,
    InterfaceMetrics.steady_row InterfaceMetrics.Time 2 0 1000
    = InterfaceMetrics.steady_row InterfaceMetrics.Time 2 other0 otherf
    /\ In other0 (Spec.scanned InterfaceMetrics.Time Scenarios.steady_rows 2)
    /\ (otherf = 1000
        \/ (In otherf (Spec.scanned InterfaceMetrics.Time Scenarios.steady_rows 2)
            /\ other0 <= otherf)).
Proof.
  apply (@steady_range_is_ordered 1 (1 # 100) InterfaceMetrics.Time
           Scenarios.steady_rows 2).
  vm_compute. reflexivity.
Defined.
